(** * Peer-to-peer lending platform: a shallow embedding of [lending-platform.py]

    The console application keeps three CSV tables (users, loans and
    repayments) and offers a menu of six operations over them.  This file
    embeds the tables, the Python built-ins the program calls and each
    operation of the source as Rocq functions over an explicit world
    (disk, standard input and output, clock, entropy), and proves the
    properties of the ledger logic. *)

From Stdlib Require Import ZArith List String Ascii Bool Lia SpecFloat FinFun.
Import ListNotations.
Open Scope string_scope.
Open Scope list_scope.
Open Scope Z_scope.

Set Implicit Arguments.

(* ================================================================= *)
(** ** Strings *)

(** [str.lower()] on the ASCII letters.  No character outside ASCII
    lowercases to a letter of ['borrower'] or ['investor'], so on the only
    test the program applies to a lowered string (membership in those two
    words) this agrees with Python's Unicode-aware method. *)
Module Str.

Definition lower_ascii (c : ascii) : ascii :=
  let n := nat_of_ascii c in
  if (Nat.leb 65 n && Nat.leb n 90)%bool then ascii_of_nat (n + 32) else c.

Fixpoint lower (s : string) : string :=
  match s with
  | EmptyString => EmptyString
  | String c s' => String (lower_ascii c) (lower s')
  end.

(** [s[:n]] *)
Definition prefix (n : nat) (s : string) : string := substring 0 n s.

(** [a <= b] on [str]: lexicographic on code points. *)
Definition le (a b : string) : bool := String.leb a b.

(** [x in xs] for a list of strings. *)
Definition mem (x : string) (xs : list string) : bool :=
  existsb (String.eqb x) xs.

Definition concat (xs : list string) : string := String.concat "" xs.

End Str.

(* ================================================================= *)
(** ** Dates: [datetime.today()], [timedelta(days=...)], [strftime] *)

(** A date is its proleptic Gregorian ordinal (day 1 is 0001-01-01), the
    representation [datetime] itself computes with. *)
Module Datetime.

Definition MINORDINAL : Z := 1.
Definition MAXORDINAL : Z := 3652059.          (* 9999-12-31 *)
Definition MAXDELTA : Z := 999999999.          (* timedelta.max.days *)

Definition is_leap (y : Z) : bool :=
  ((y mod 4 =? 0) && (negb (y mod 100 =? 0) || (y mod 400 =? 0)))%bool.

Definition days_in_month (leap : bool) (m : Z) : Z :=
  if m =? 2 then (if leap then 29 else 28)
  else if (m =? 4) || (m =? 6) || (m =? 9) || (m =? 11) then 30
  else 31.

(** Days of the year before January 1st of year [y] (since ordinal 1). *)
Definition days_before_year (y : Z) : Z :=
  let p := y - 1 in p * 365 + p / 4 - p / 100 + p / 400.

(** Walk the months of a year: [n] is the zero-based day of the year. *)
Fixpoint month_day (fuel : nat) (leap : bool) (m n : Z) : Z * Z :=
  match fuel with
  | O => (m, n + 1)
  | S fuel' =>
      let dim := days_in_month leap m in
      if n <? dim then (m, n + 1) else month_day fuel' leap (m + 1) (n - dim)
  end.

(** The year of the zero-based day number [n], searched upwards from [y]. *)
Fixpoint find_year (fuel : nat) (n y : Z) : Z :=
  match fuel with
  | O => y
  | S fuel' =>
      if days_before_year (y + 1) <=? n then find_year fuel' n (y + 1) else y
  end.

(** Year, month and day of an ordinal.  The first estimate of the year is
    never late and, up to year 9999, less than 32 years early. *)
Definition ord2ymd (o : Z) : Z * Z * Z :=
  let n := o - 1 in
  let y := find_year 32 n (n / 366 + 1) in
  let '(m, d) := month_day 11 (is_leap y) 1 (n - days_before_year y) in
  (y, m, d).

(** Days of the year before the first of month [m]. *)
Definition days_before_month (leap : bool) (m : Z) : Z :=
  let feb := if leap then 29 else 28 in
  if m <=? 1 then 0
  else if m =? 2 then 31
  else if m =? 3 then 31 + feb
  else if m =? 4 then 62 + feb
  else if m =? 5 then 92 + feb
  else if m =? 6 then 123 + feb
  else if m =? 7 then 153 + feb
  else if m =? 8 then 184 + feb
  else if m =? 9 then 215 + feb
  else if m =? 10 then 245 + feb
  else if m =? 11 then 276 + feb
  else 306 + feb.

Definition digit (n : Z) : ascii := ascii_of_nat (48 + Z.to_nat (n mod 10)).

Definition pad2 (n : Z) : string :=
  String (digit (n / 10)) (String (digit n) EmptyString).

Definition pad4 (n : Z) : string :=
  String (digit (n / 1000)) (String (digit (n / 100)) (pad2 n)).

(** [d.strftime('%Y-%m-%d')] *)
Definition strftime (o : Z) : string :=
  let '(y, m, d) := ord2ymd o in
  (pad4 y ++ "-" ++ pad2 m ++ "-" ++ pad2 d)%string.

(** [d + timedelta(days=k)]: [None] is Python's [OverflowError], raised
    when the delta or the resulting date is out of range. *)
Definition plus_days (o k : Z) : option Z :=
  if (Z.abs k <=? MAXDELTA) && (MINORDINAL <=? o + k) && (o + k <=? MAXORDINAL)
  then Some (o + k) else None.

Definition year_length (y : Z) : Z := if is_leap y then 366 else 365.

(** The number a date shows when its digits are read in a row. *)
Definition date_key (y m d : Z) : Z := y * 10000 + m * 100 + d.

(** The ordinals of [date.min .. date.max]. *)
Definition valid (o : Z) : Prop := MINORDINAL <= o <= MAXORDINAL.

End Datetime.

(* ================================================================= *)
(** ** Data model: the rows of the three CSV tables *)

(** [csv.DictReader] yields every field as text, so all fields are strings:
    numbers are parsed where the program uses them, [status] is ['open'] or
    ['funded'], [paid] is ['True'] or ['False'], dates are [YYYY-MM-DD]. *)

Module User.
Record t := mk { user_id : string; name : string; role : string }.
End User.

Module Loan.
Record t := mk {
  loan_id : string;
  borrower_id : string;
  amount : string;
  interest_rate : string;
  duration : string;
  status : string
}.

(** [l['status'] = s] *)
Definition set_status (s : string) (l : t) : t :=
  mk (loan_id l) (borrower_id l) (amount l) (interest_rate l) (duration l) s.
End Loan.

Module Repayment.
Record t := mk {
  loan_id : string;
  investor_id : string;
  monthly_payment : string;
  due_date : string;
  paid : string
}.

(** [r['paid'] = s] *)
Definition set_paid (s : string) (r : t) : t :=
  mk (loan_id r) (investor_id r) (monthly_payment r) (due_date r) s.
End Repayment.

(** The three file paths of the source, and the row type each one holds. *)
Inductive path := users_file | loans_file | repayments_file.

Definition row (p : path) : Type :=
  match p with
  | users_file => User.t
  | loans_file => Loan.t
  | repayments_file => Repayment.t
  end.

(** The data folder: each file is the ordered sequence of its rows (the
    header line, fixed by [init_csv], is implicit). *)
Record Disk := mkDisk {
  users : list User.t;
  loans : list Loan.t;
  repayments : list Repayment.t
}.

Definition read (d : Disk) (p : path) : list (row p) :=
  match p with
  | users_file => users d
  | loans_file => loans d
  | repayments_file => repayments d
  end.

Definition store (d : Disk) (p : path) : list (row p) -> Disk :=
  match p with
  | users_file => fun rows => mkDisk rows (loans d) (repayments d)
  | loans_file => fun rows => mkDisk (users d) rows (repayments d)
  | repayments_file => fun rows => mkDisk (users d) (loans d) rows
  end.

(** [init_csv] at import time on an empty data folder. *)
Definition empty_disk : Disk := mkDisk [] [] [].

(** What a file operation did to the disk: the trace of writes. *)
Inductive fs_event :=
| Appended (p : path)
| Rewritten (p : path).

(* ================================================================= *)
(** ** The Python runtime the program calls into *)

(** Exceptions the operations can raise; none is caught in the source. *)
Inductive exn :=
  ValueError | ZeroDivisionError | OverflowError | IndexError | EOFError.

(** Built-ins on numbers and [uuid.uuid4].  They are not code of this
    repository, so the operations are stated over any implementation of
    this interface; [None] stands for the exception named beside it. *)
Class Runtime := {
  float : Type;
  float_of_str : string -> option float;       (* float(s), ValueError *)
  int_of_str : string -> option Z;             (* int(s), ValueError *)
  float_of_int : Z -> option float;            (* int operand of a float
                                                  operation, OverflowError *)
  str_of_float : float -> string;              (* str(x) *)
  str_of_int : Z -> string;                    (* str(n) *)
  fadd : float -> float -> float;
  fsub : float -> float -> float;
  fmul : float -> float -> float;
  fdiv : float -> float -> option float;       (* x / y, ZeroDivisionError *)
  round2 : float -> float;                     (* round(x, 2) *)
  fsum : list float -> float;                  (* sum(...) of floats; on no
                                                  item Python returns the int
                                                  0, which subtracts and
                                                  formats as 0.0 does *)
  format_2f : float -> string;                 (* f"{x:.2f}" *)
  uuid4 : nat -> string                        (* str of the n-th uuid4() *)
}.

(* ================================================================= *)
(** ** The world and the monad of operations *)

Record World := mkWorld {
  disk : Disk;
  fs_log : list fs_event;      (* file writes so far, oldest first *)
  stdin : list string;         (* lines still to be read by input() *)
  stdout : list string;        (* what was written, oldest first *)
  clock : Z;                   (* ordinal of datetime.today() *)
  entropy : nat                (* uuid4() calls so far *)
}.

Inductive outcome (A : Type) :=
| Return (a : A) (w : World)
| Raise (e : exn) (w : World).

Arguments Raise {A} e w.

Definition world_of {A} (o : outcome A) : World :=
  match o with Return _ w => w | Raise _ w => w end.

Definition M (A : Type) : Type := World -> outcome A.

Definition ret {A} (a : A) : M A := fun w => Return a w.

Definition bind {A B} (m : M A) (k : A -> M B) : M B :=
  fun w => match m w with
           | Return a w' => k a w'
           | Raise e w' => Raise e w'
           end.

Definition raise {A} (e : exn) : M A := fun w => Raise e w.

Declare Scope py_scope.
Delimit Scope py_scope with py.
Notation "x <- m ;; k" := (bind m (fun x => k))
  (at level 61, m at next level, right associativity) : py_scope.
Notation "m ;; k" := (bind m (fun _ => k))
  (at level 61, right associativity) : py_scope.
Open Scope py_scope.

(** Lift a built-in that may raise. *)
Definition try {A} (e : exn) (o : option A) : M A :=
  match o with Some a => ret a | None => raise e end.

(** [print(s)] *)
Definition print (s : string) : M unit :=
  fun w => Return tt (mkWorld (disk w) (fs_log w) (stdin w) (stdout w ++ [s])
                              (clock w) (entropy w)).

(** [input(prompt)]: writes the prompt and reads a line; at end of input
    Python raises [EOFError]. *)
Definition input (prompt : string) : M string :=
  fun w =>
    let out := stdout w ++ [prompt] in
    match stdin w with
    | [] => Raise EOFError (mkWorld (disk w) (fs_log w) [] out (clock w) (entropy w))
    | line :: rest =>
        Return line (mkWorld (disk w) (fs_log w) rest out (clock w) (entropy w))
    end.

(** [datetime.today()] *)
Definition today : M Z := fun w => Return (clock w) w.

(** For loop over a list, stopping at the first exception. *)
Fixpoint for_each {A} (xs : list A) (body : A -> M unit) : M unit :=
  match xs with
  | [] => ret tt
  | x :: xs' => body x ;; for_each xs' body
  end.

(** [range(n)] *)
Definition range (n : Z) : list Z := map Z.of_nat (seq 0 (Z.to_nat n)).

(* ================================================================= *)
(** ** The program *)

Definition nl : string := String (ascii_of_nat 10) EmptyString.

Section Program.

Context {py : Runtime}.

(** *** Helper functions *)

(** [generate_id()]: [str(uuid.uuid4())[:8]] *)
Definition generate_id : M string :=
  fun w =>
    Return (Str.prefix 8 (uuid4 (entropy w)))
           (mkWorld (disk w) (fs_log w) (stdin w) (stdout w) (clock w)
                    (S (entropy w))).

Definition load_csv (p : path) : M (list (row p)) :=
  fun w => Return (read (disk w) p) w.

(** [data[0].keys()], the header argument of [write_csv]: evaluating it
    on an empty table is an [IndexError]. *)
Definition first_keys {A} (data : list A) : M unit :=
  match data with
  | [] => raise IndexError
  | _ :: _ => ret tt
  end.

Definition write_csv (p : path) (data : list (row p)) : M unit :=
  fun w =>
    Return tt (mkWorld (store (disk w) p data) (fs_log w ++ [Rewritten p])
                       (stdin w) (stdout w) (clock w) (entropy w)).

Definition append_csv (p : path) (r : row p) : M unit :=
  fun w =>
    Return tt (mkWorld (store (disk w) p (read (disk w) p ++ [r]))
                       (fs_log w ++ [Appended p])
                       (stdin w) (stdout w) (clock w) (entropy w)).

(** [any(u['user_id'] == uid and u['role'] == r for u in users)] *)
Definition has_user (uid r : string) (us : list User.t) : bool :=
  existsb (fun u => String.eqb (User.user_id u) uid
                    && String.eqb (User.role u) r) us.

(** *** Business logic *)

Definition register_user : M unit :=
  name <- input "Enter your name: " ;;
  typed <- input "Role (borrower/investor): " ;;
  let role := Str.lower typed in
  if negb (Str.mem role ["borrower"; "investor"]) then
    print "Invalid role."
  else
    user_id <- generate_id ;;
    append_csv users_file (User.mk user_id name role) ;;
    print (Str.concat ["✅ User '"; name; "' registered with ID: "; user_id]).

Definition list_loan : M unit :=
  borrower_id <- input "Enter your user ID: " ;;
  us <- load_csv users_file ;;
  if negb (has_user borrower_id "borrower" us) then
    print "❌ Invalid borrower ID."
  else
    a <- input "Loan amount (R): " ;;
    amount <- try ValueError (float_of_str a) ;;
    r <- input "Interest rate (%): " ;;
    rate <- try ValueError (float_of_str r) ;;
    d <- input "Duration (months): " ;;
    duration <- try ValueError (int_of_str d) ;;
    loan_id <- generate_id ;;
    append_csv loans_file
      (Loan.mk loan_id borrower_id (str_of_float amount) (str_of_float rate)
               (str_of_int duration) "open") ;;
    print (Str.concat ["📌 Loan listed with ID: "; loan_id]).

Definition is_open (l : Loan.t) : bool := String.eqb (Loan.status l) "open".

Definition view_loans : M unit :=
  all <- load_csv loans_file ;;
  let ls := filter is_open all in
  match ls with
  | [] => print "No open loans available."
  | _ :: _ =>
      print (Str.concat [nl; "📊 Open Loans:"]) ;;
      for_each ls (fun loan =>
        print (Str.concat ["ID: "; Loan.loan_id loan;
                           ", Amount: R"; Loan.amount loan;
                           ", Rate: "; Loan.interest_rate loan;
                           "%, Duration: "; Loan.duration loan; " months"]))
  end.

(** Line 101: [round(float(amount) * (1 + float(rate) / 100) / int(duration), 2)],
    with the int operands converted where Python converts them. *)
Definition monthly_payment_of (loan : Loan.t) : M float :=
  a <- try ValueError (float_of_str (Loan.amount loan)) ;;
  r <- try ValueError (float_of_str (Loan.interest_rate loan)) ;;
  hundred <- try OverflowError (float_of_int 100) ;;
  pct <- try ZeroDivisionError (fdiv r hundred) ;;
  one <- try OverflowError (float_of_int 1) ;;
  let total := fmul a (fadd one pct) in
  d <- try ValueError (int_of_str (Loan.duration loan)) ;;
  months <- try OverflowError (float_of_int d) ;;
  q <- try ZeroDivisionError (fdiv total months) ;;
  ret (round2 q).

(** Lines 112-114: every row carrying the chosen id gets ['funded']. *)
Definition mark_funded (loan_id : string) (l : Loan.t) : Loan.t :=
  if String.eqb (Loan.loan_id l) loan_id then Loan.set_status "funded" l else l.

Definition invest : M unit :=
  investor_id <- input "Enter your user ID: " ;;
  us <- load_csv users_file ;;
  if negb (has_user investor_id "investor" us) then
    print "❌ Invalid investor ID."
  else
    view_loans ;;
    loan_id <- input "Enter Loan ID to invest in: " ;;
    ls <- load_csv loans_file ;;
    match find (fun l => String.eqb (Loan.loan_id l) loan_id && is_open l) ls with
    | None => print "❌ Invalid loan ID."
    | Some loan =>
        monthly_payment <- monthly_payment_of loan ;;
        n <- try ValueError (int_of_str (Loan.duration loan)) ;;
        for_each (range n) (fun i =>
          t <- today ;;
          due <- try OverflowError (Datetime.plus_days t (30 * (i + 1))) ;;
          append_csv repayments_file
            (Repayment.mk loan_id investor_id (str_of_float monthly_payment)
                          (Datetime.strftime due) "False")) ;;
        let ls' := map (mark_funded loan_id) ls in
        first_keys ls' ;;
        write_csv loans_file ls' ;;
        print "💰 Investment successful! Repayments will be tracked monthly."
    end.

(** Line 123: the test of the repayment loop. *)
Definition is_due (today_s : string) (r : Repayment.t) : bool :=
  Str.le (Repayment.due_date r) today_s && String.eqb (Repayment.paid r) "False".

(** Lines 122-126: the loop mutates the loaded rows in place, prints one
    line per processed row and remembers whether any row was touched. *)
Fixpoint process_rows (today_s : string) (rs : list Repayment.t)
  : M (list Repayment.t * bool) :=
  match rs with
  | [] => ret ([], false)
  | r :: rest =>
      if is_due today_s r then
        print (Str.concat ["✅ Processed repayment of R"; Repayment.monthly_payment r;
                           " for Loan ID "; Repayment.loan_id r;
                           " to Investor "; Repayment.investor_id r]) ;;
        res <- process_rows today_s rest ;;
        ret (Repayment.set_paid "True" r :: fst res, true)
      else
        res <- process_rows today_s rest ;;
        ret (r :: fst res, snd res)
  end.

Definition process_repayments : M unit :=
  rs <- load_csv repayments_file ;;
  t <- today ;;
  res <- process_rows (Datetime.strftime t) rs ;;
  if snd res then
    first_keys (fst res) ;;
    write_csv repayments_file (fst res)
  else
    print "No repayments due today.".

(** [sum(float(r['monthly_payment']) for r in rows)] *)
Fixpoint payments (rows : list Repayment.t) : M (list float) :=
  match rows with
  | [] => ret []
  | r :: rest =>
      x <- try ValueError (float_of_str (Repayment.monthly_payment r)) ;;
      xs <- payments rest ;;
      ret (x :: xs)
  end.

Definition sum_payments (rows : list Repayment.t) : M float :=
  xs <- payments rows ;; ret (fsum xs).

Definition of_investor (investor_id : string) (r : Repayment.t) : bool :=
  String.eqb (Repayment.investor_id r) investor_id.

Definition is_paid (r : Repayment.t) : bool :=
  String.eqb (Repayment.paid r) "True".

Definition investor_dashboard : M unit :=
  investor_id <- input "Enter your user ID: " ;;
  data <- load_csv repayments_file ;;
  total_expected <- sum_payments (filter (of_investor investor_id) data) ;;
  total_paid <-
    sum_payments (filter (fun r => of_investor investor_id r && is_paid r) data) ;;
  print (Str.concat [nl; "📈 Total Expected: R"; format_2f total_expected;
                     nl; "✅ Total Paid: R"; format_2f total_paid;
                     nl; "❌ Outstanding: R";
                     format_2f (fsub total_expected total_paid)]).

(** *** Main menu *)

Inductive flow := Continue | Break.

(** One turn of the [while True] loop of [menu]. *)
Definition menu_turn : M flow :=
  print (Str.concat [nl; "🔁 P2P Lending Menu"]) ;;
  print "1. Register User" ;;
  print "2. List Loan (Borrower)" ;;
  print "3. View Open Loans (Investor)" ;;
  print "4. Invest in Loan" ;;
  print "5. Process Monthly Repayments" ;;
  print "6. Investor Dashboard" ;;
  print "7. Exit" ;;
  choice <- input "Choose an option: " ;;
  if String.eqb choice "1" then register_user ;; ret Continue
  else if String.eqb choice "2" then list_loan ;; ret Continue
  else if String.eqb choice "3" then view_loans ;; ret Continue
  else if String.eqb choice "4" then invest ;; ret Continue
  else if String.eqb choice "5" then process_repayments ;; ret Continue
  else if String.eqb choice "6" then investor_dashboard ;; ret Continue
  else if String.eqb choice "7" then print "👋 Goodbye!" ;; ret Break
  else print "❌ Invalid choice. Try again." ;; ret Continue.

(** [menu()]: the loop runs until [break] or an uncaught exception; [None]
    only when the bound on the number of turns is used up. *)
Fixpoint menu (turns : nat) (w : World) : option (outcome unit) :=
  match turns with
  | O => None
  | S turns' =>
      match menu_turn w with
      | Return Continue w' => menu turns' w'
      | Return Break w' => Some (Return tt w')
      | Raise e w' => Some (Raise e w')
      end
  end.

End Program.

(* ================================================================= *)
(** ** A reference runtime: IEEE 754 binary64 as CPython uses it *)

(** The instance the examples run on.  Floats are [spec_float] values of
    the Standard Library at precision 53; text conversions are correctly
    rounded on the exact binary value, as CPython's are.  [fsum] is the
    plain left fold of additions from zero. *)
Module CPython.

Definition prec : Z := 53.
Definition emax : Z := 1024.

(** Nearest binary64 (ties to even) to the rational [n / d], [n >= 0 < d]:
    the quotient is taken with enough extra bits and a sticky bit. *)
Definition of_ratio (neg : bool) (n d : Z) : spec_float :=
  if n =? 0 then S754_zero neg
  else
    let sh := Z.max 0 (56 + Z.log2 d - Z.log2 n) in
    let num := n * 2 ^ sh in
    let m := 2 * (num / d) + (if num mod d =? 0 then 0 else 1) in
    binary_normalize prec emax (if neg then - m else m) (- sh - 1) neg.

(** [m * 10^e] as a fraction. *)
Definition dec_ratio (m e : Z) : Z * Z :=
  if 0 <=? e then (m * 10 ^ e, 1) else (m, 10 ^ (- e)).

(** The exact value of a finite float as a fraction of its magnitude. *)
Definition ratio_of (m : positive) (e : Z) : Z * Z :=
  if 0 <=? e then (Zpos m * 2 ^ e, 1) else (Zpos m, 2 ^ (- e)).

(** Round half to even of [n / d]. *)
Definition round_half_even (n d : Z) : Z :=
  let q := n / d in
  let r := n mod d in
  match 2 * r ?= d with
  | Lt => q
  | Gt => q + 1
  | Eq => if Z.even q then q else q + 1
  end.

(** *** Reading numbers *)

Definition digit_val (c : ascii) : option Z :=
  let n := Z.of_nat (nat_of_ascii c) in
  if (48 <=? n) && (n <=? 57) then Some (n - 48) else None.

Definition is_space (c : ascii) : bool :=
  let n := Z.of_nat (nat_of_ascii c) in
  ((9 <=? n) && (n <=? 13)) || ((28 <=? n) && (n <=? 32)).

Fixpoint lstrip (s : list ascii) : list ascii :=
  match s with
  | c :: s' => if is_space c then lstrip s' else s
  | [] => []
  end.

Definition strip (s : string) : list ascii :=
  rev (lstrip (rev (lstrip (list_ascii_of_string s)))).

(** The tail of a [digitpart]: digits, each optionally preceded by one
    underscore.  Returns the value, the number of digits and the rest. *)
Fixpoint digits_tail (acc cnt : Z) (s : list ascii) : Z * Z * list ascii :=
  match s with
  | [] => (acc, cnt, s)
  | c :: s' =>
      match digit_val c with
      | Some d => digits_tail (10 * acc + d) (cnt + 1) s'
      | None =>
          if Ascii.eqb c "_" then
            match s' with
            | c2 :: s'' =>
                match digit_val c2 with
                | Some d => digits_tail (10 * acc + d) (cnt + 1) s''
                | None => (acc, cnt, s)
                end
            | [] => (acc, cnt, s)
            end
          else (acc, cnt, s)
      end
  end.

Definition digitpart (acc : Z) (s : list ascii) : option (Z * Z * list ascii) :=
  match s with
  | c :: s' =>
      match digit_val c with
      | Some d => Some (digits_tail (10 * acc + d) 1 s')
      | None => None
      end
  | [] => None
  end.

Definition sign (s : list ascii) : bool * list ascii :=
  match s with
  | c :: s' =>
      if Ascii.eqb c "-" then (true, s')
      else if Ascii.eqb c "+" then (false, s')
      else (false, s)
  | [] => (false, s)
  end.

(** [int(s)] in base 10. *)
Definition int_of_str (s : string) : option Z :=
  let '(neg, body) := sign (strip s) in
  match digitpart 0 body with
  | Some (v, _, []) => Some (if neg then - v else v)
  | _ => None
  end.

(** [number ::= [digitpart] "." digitpart | digitpart ["."]]: mantissa,
    decimal exponent, rest. *)
Definition number (s : list ascii) : option (Z * Z * list ascii) :=
  match digitpart 0 s with
  | Some (ip, _, rest) =>
      match rest with
      | c :: r2 =>
          if Ascii.eqb c "." then
            match digitpart ip r2 with
            | Some (m, cnt, r3) => Some (m, - cnt, r3)
            | None => Some (ip, 0, r2)
            end
          else Some (ip, 0, rest)
      | [] => Some (ip, 0, rest)
      end
  | None =>
      match s with
      | c :: r2 =>
          if Ascii.eqb c "." then
            match digitpart 0 r2 with
            | Some (m, cnt, r3) => Some (m, - cnt, r3)
            | None => None
            end
          else None
      | [] => None
      end
  end.

(** [exponent ::= ("e" | "E") [sign] digitpart], absent or to the end. *)
Definition exponent (s : list ascii) : option Z :=
  match s with
  | [] => Some 0
  | c :: s' =>
      if Ascii.eqb c "e" || Ascii.eqb c "E" then
        let '(neg, body) := sign s' in
        match digitpart 0 body with
        | Some (v, _, []) => Some (if neg then - v else v)
        | _ => None
        end
      else None
  end.

(** [float(s)] *)
Definition float_of_str (s : string) : option spec_float :=
  let '(neg, body) := sign (strip s) in
  let word := Str.lower (string_of_list_ascii body) in
  if String.eqb word "inf" || String.eqb word "infinity" then Some (S754_infinity neg)
  else if String.eqb word "nan" then Some S754_nan
  else
    match number body with
    | Some (m, e1, rest) =>
        match exponent rest with
        | Some e2 => let '(n, d) := dec_ratio m (e1 + e2) in Some (of_ratio neg n d)
        | None => None
        end
    | None => None
    end.

(** An [int] operand of a float operation; too large is [OverflowError]. *)
Definition float_of_int (z : Z) : option spec_float :=
  match binary_normalize prec emax z 0 false with
  | S754_infinity _ => None
  | x => Some x
  end.

(** *** Arithmetic *)

Definition fadd := SFadd prec emax.
Definition fsub := SFsub prec emax.
Definition fmul := SFmul prec emax.

Definition fdiv (x y : spec_float) : option spec_float :=
  match y with
  | S754_zero _ => None
  | _ => Some (SFdiv prec emax x y)
  end.

Definition fsum (xs : list spec_float) : spec_float :=
  fold_left fadd xs (S754_zero false).

(** [round(x, 2)]: the decimal nearest to the exact value, read back. *)
Definition round2 (x : spec_float) : spec_float :=
  match x with
  | S754_finite neg m e =>
      let '(n, d) := ratio_of m e in
      of_ratio neg (round_half_even (n * 100) d) 100
  | _ => x
  end.

(** *** Writing numbers *)

Definition digit_char (d : Z) : ascii := ascii_of_nat (48 + Z.to_nat d).

Fixpoint digits_acc (fuel : nat) (n : Z) (acc : string) : string :=
  match fuel with
  | O => acc
  | S fuel' =>
      let acc' := String (digit_char (n mod 10)) acc in
      if n <? 10 then acc' else digits_acc fuel' (n / 10) acc'
  end.

(** Decimal digits of [n >= 0]. *)
Definition digits (n : Z) : string :=
  digits_acc (S (Z.to_nat (Z.log2 n))) n EmptyString.

(** [str(n)] *)
Definition str_of_int (z : Z) : string :=
  if z <? 0 then String "-" (digits (- z)) else digits z.

Fixpoint zeros (n : nat) : string :=
  match n with O => EmptyString | S n' => String "0" (zeros n') end.

(** [floor(log10(n / d))] for [n / d > 0], searched from an estimate. *)
Fixpoint log10_up (fuel : nat) (n d p : Z) : Z :=
  match fuel with
  | O => p
  | S fuel' => if d * 10 ^ (p + 1) <=? n then log10_up fuel' n d (p + 1) else p
  end.

Fixpoint log10_down (fuel : nat) (n d p : Z) : Z :=
  match fuel with
  | O => p
  | S fuel' => if n * 10 ^ (- p) <? d then log10_down fuel' n d (p - 1) else p
  end.

Definition log10_floor (n d : Z) : Z :=
  if d <=? n then log10_up 400 n d 0 else log10_down 400 n d (-1).

Fixpoint rstrip_zeros_rev (s : list ascii) : list ascii :=
  match s with
  | c :: s' => if Ascii.eqb c "0" then rstrip_zeros_rev s' else s
  | [] => []
  end.

Definition rstrip_zeros (s : string) : string :=
  string_of_list_ascii (rev (rstrip_zeros_rev (rev (list_ascii_of_string s)))).

(** The shortest digit string that reads back as the float, and the
    position of its decimal point; among equally short ones the closest
    to the exact value.  [k] digits are tried for [k = 1 .. 17]. *)
Fixpoint shortest (tries : nat) (k : Z) (x : spec_float) (n d p : Z) : string * Z :=
  let scale := k - 1 - p in
  let '(sn, sd) := if 0 <=? scale then (n * 10 ^ scale, d) else (n, d * 10 ^ (- scale)) in
  let lo := sn / sd in
  let hi := lo + 1 in
  let r := sn mod sd in
  let back c := let '(cn, cd) := dec_ratio c (- scale) in of_ratio false cn cd in
  let ok c := SFeqb (back c) x in
  let first := match 2 * r ?= sd with
               | Lt => lo | Gt => hi | Eq => if Z.even lo then lo else hi end in
  let second := if first =? lo then hi else lo in
  let emit c := (rstrip_zeros (digits c), Z.of_nat (String.length (digits c)) - scale) in
  match tries with
  | O => emit first
  | S tries' =>
      if ok first then emit first
      else if ok second then emit second
      else shortest tries' (k + 1) x n d p
  end.

Definition exp_text (e : Z) : string :=
  Str.concat [if e <? 0 then "e-" else "e+";
              if Z.abs e <? 10 then "0" else ""; digits (Z.abs e)].

(** [repr] of a positive finite float from its digits and point. *)
Definition layout (ds : string) (decpt : Z) : string :=
  let nd := Z.of_nat (String.length ds) in
  if (decpt <=? -4) || (16 <? decpt) then
    let head := substring 0 1 ds in
    let tail := substring 1 (String.length ds - 1) ds in
    Str.concat [head; if String.eqb tail "" then "" else "."; tail;
                exp_text (decpt - 1)]
  else if decpt <=? 0 then
    Str.concat ["0."; zeros (Z.to_nat (- decpt)); ds]
  else if nd <=? decpt then
    Str.concat [ds; zeros (Z.to_nat (decpt - nd)); ".0"]
  else
    Str.concat [substring 0 (Z.to_nat decpt) ds; ".";
                substring (Z.to_nat decpt) (String.length ds - Z.to_nat decpt) ds].

(** [str(x)] *)
Definition str_of_float (x : spec_float) : string :=
  match x with
  | S754_nan => "nan"
  | S754_infinity neg => if neg then "-inf" else "inf"
  | S754_zero neg => if neg then "-0.0" else "0.0"
  | S754_finite neg m e =>
      let '(n, d) := ratio_of m e in
      let '(ds, decpt) := shortest 16 1 (S754_finite false m e) n d (log10_floor n d) in
      Str.concat [if neg then "-" else ""; layout ds decpt]
  end.

(** [f"{x:.2f}"] *)
Definition format_2f (x : spec_float) : string :=
  let fixed (neg : bool) (c : Z) :=
    Str.concat [if neg then "-" else ""; digits (c / 100); ".";
                String (digit_char (c / 10 mod 10)) (String (digit_char (c mod 10)) "")] in
  match x with
  | S754_nan => "nan"
  | S754_infinity neg => if neg then "-inf" else "inf"
  | S754_zero neg => fixed neg 0
  | S754_finite neg m e =>
      let '(n, d) := ratio_of m e in fixed neg (round_half_even (n * 100) d)
  end.

(** *** Identifiers *)

Definition hex_char (d : Z) : ascii :=
  if d <? 10 then digit_char d else ascii_of_nat (87 + Z.to_nat d).

Fixpoint hex (len : nat) (n : Z) (acc : string) : string :=
  match len with
  | O => acc
  | S len' => hex len' (n / 16) (String (hex_char (n mod 16)) acc)
  end.

(** A fixed sequence of version-4 UUIDs in their text form. *)
Definition uuid4 (n : nat) : string :=
  let a := (Z.of_nat n + 1) * 2654435761 mod 2 ^ 32 in
  let b := (Z.of_nat n + 7) * 40503 mod 2 ^ 16 in
  Str.concat [hex 8 a ""; "-"; hex 4 b ""; "-4"; hex 3 (b / 16) "";
              "-8"; hex 3 (a / 4096) ""; "-"; hex 12 (a * b) ""].

#[global] Instance runtime : Runtime := {
  float := spec_float;
  float_of_str := float_of_str;
  int_of_str := int_of_str;
  float_of_int := float_of_int;
  str_of_float := str_of_float;
  str_of_int := str_of_int;
  fadd := fadd;
  fsub := fsub;
  fmul := fmul;
  fdiv := fdiv;
  round2 := round2;
  fsum := fsum;
  format_2f := format_2f;
  uuid4 := uuid4
}.

End CPython.

(* ================================================================= *)
(** ** Vocabulary of the properties *)

Section Vocabulary.

Context {py : Runtime}.

(** A session started on a given data folder. *)
Definition boot (d : Disk) (day : Z) (lines : list string) : World :=
  mkWorld d [] lines [] day 0.

(** What [view_loans] prints for a loan table. *)
Definition view_lines (all : list Loan.t) : list string :=
  match filter is_open all with
  | [] => ["No open loans available."]
  | ls =>
      Str.concat [nl; "📊 Open Loans:"]
      :: map (fun loan =>
                Str.concat ["ID: "; Loan.loan_id loan;
                            ", Amount: R"; Loan.amount loan;
                            ", Rate: "; Loan.interest_rate loan;
                            "%, Duration: "; Loan.duration loan; " months"]) ls
  end.

(** The installment written by turn [i] of the loop of [invest]. *)
Definition installment (loan_id investor_id : string) (mp : float) (day i : Z)
  : Repayment.t :=
  Repayment.mk loan_id investor_id (str_of_float mp)
               (Datetime.strftime (day + 30 * (i + 1))) "False".

(** [mp] is the value of the expression of line 101 on the stored fields
    of [loan], every conversion and division having succeeded. *)
Definition payment_formula (loan : Loan.t) (d : Z) (mp : float) : Prop :=
  exists a r hundred pct one months q,
    float_of_str (Loan.amount loan) = Some a /\
    float_of_str (Loan.interest_rate loan) = Some r /\
    float_of_int 100 = Some hundred /\
    fdiv r hundred = Some pct /\
    float_of_int 1 = Some one /\
    int_of_str (Loan.duration loan) = Some d /\
    float_of_int d = Some months /\
    fdiv (fmul a (fadd one pct)) months = Some q /\
    mp = round2 q.

(** The loan that [invest] picks for an id: the first open row with it. *)
Definition open_loan (loan_id : string) (ls : list Loan.t) : option Loan.t :=
  find (fun l => String.eqb (Loan.loan_id l) loan_id && is_open l) ls.

(** What the repayment loop does to one row. *)
Definition settle (today_s : string) (r : Repayment.t) : Repayment.t :=
  if is_due today_s r then Repayment.set_paid "True" r else r.

Definition processed_line (r : Repayment.t) : string :=
  Str.concat ["✅ Processed repayment of R"; Repayment.monthly_payment r;
              " for Loan ID "; Repayment.loan_id r;
              " to Investor "; Repayment.investor_id r].

(** The operations a menu choice dispatches to. *)
Inductive operation :=
| RegisterUser | ListLoan | ViewLoans | Invest | ProcessRepayments
| InvestorDashboard.

Definition run (o : operation) : M unit :=
  match o with
  | RegisterUser => register_user
  | ListLoan => list_loan
  | ViewLoans => view_loans
  | Invest => invest
  | ProcessRepayments => process_repayments
  | InvestorDashboard => investor_dashboard
  end.

(** Data folders the program can produce: from the empty tables, by any
    operation on any input, date and entropy, whether it returns or dies
    on an exception (the files written so far stay on disk). *)
Inductive reachable : Disk -> Prop :=
| reach_boot : reachable empty_disk
| reach_run : forall w o,
    reachable (disk w) -> reachable (disk (world_of (run o w))).

Definition status_ok (l : Loan.t) : Prop :=
  Loan.status l = "open" \/ Loan.status l = "funded".

(** The moves of one loan row: none, or open to funded. *)
Definition loan_step (l l' : Loan.t) : Prop :=
  l' = l \/ (Loan.status l = "open" /\ l' = Loan.set_status "funded" l).

(** A loan table after an operation: the old rows in place, each moved by
    [loan_step], followed by newly listed rows, all open. *)
Definition loans_evolve (ls ls' : list Loan.t) : Prop :=
  exists old new,
    ls' = old ++ new /\ Forall2 loan_step ls old /\
    Forall (fun l => Loan.status l = "open") new.

(** The text the menu prints before reading a choice. *)
Definition menu_text : list string :=
  [Str.concat [nl; "🔁 P2P Lending Menu"]; "1. Register User";
   "2. List Loan (Borrower)"; "3. View Open Loans (Investor)";
   "4. Invest in Loan"; "5. Process Monthly Repayments";
   "6. Investor Dashboard"; "7. Exit"; "Choose an option: "].

(** World updates used to state results. *)
Definition wrote (lines : list string) (w : World) : World :=
  mkWorld (disk w) (fs_log w) (stdin w) (stdout w ++ lines) (clock w) (entropy w).

Definition consumed (rest : list string) (w : World) : World :=
  mkWorld (disk w) (fs_log w) rest (stdout w) (clock w) (entropy w).

(** Lines 101-116: what [invest] does once the loan is found, given the
    ids read and the loan table loaded before. *)
Definition funding (investor_id loan_id : string) (ls : list Loan.t)
           (loan : Loan.t) : M unit :=
  monthly_payment <- monthly_payment_of loan ;;
  n <- try ValueError (int_of_str (Loan.duration loan)) ;;
  for_each (range n) (fun i =>
    t <- today ;;
    due <- try OverflowError (Datetime.plus_days t (30 * (i + 1))) ;;
    append_csv repayments_file
      (Repayment.mk loan_id investor_id (str_of_float monthly_payment)
                    (Datetime.strftime due) "False")) ;;
  let ls' := map (mark_funded loan_id) ls in
  first_keys ls' ;;
  write_csv loans_file ls' ;;
  print "💰 Investment successful! Repayments will be tracked monthly.".

(** A frame: a relation every run of a computation keeps between the
    world it starts in and the world it leaves, however it ends. *)
Definition keeps {A} (R : World -> World -> Prop) (m : M A) : Prop :=
  forall w, R w (world_of (m w)).

Definition same_users (w w' : World) : Prop := users (disk w') = users (disk w).
Definition same_loans (w w' : World) : Prop := loans (disk w') = loans (disk w).
Definition same_repayments (w w' : World) : Prop :=
  repayments (disk w') = repayments (disk w).
Definition same_files (w w' : World) : Prop :=
  disk w' = disk w /\ fs_log w' = fs_log w.
Definition no_more_input (w w' : World) : Prop :=
  (List.length (stdin w') <= List.length (stdin w))%nat.

(** Lines 103-110: one turn of the installment loop. *)
Definition installment_turn (loan_id investor_id : string) (mp : float)
           (i : Z) : M unit :=
  t <- today ;;
  due <- try OverflowError (Datetime.plus_days t (30 * (i + 1))) ;;
  append_csv repayments_file
    (Repayment.mk loan_id investor_id (str_of_float mp)
                  (Datetime.strftime due) "False").

(** The world after appending installments for the turns [xs]. *)
Definition scheduled (loan_id investor_id : string) (mp : float)
           (xs : list Z) (w : World) : World :=
  mkWorld (mkDisk (users (disk w)) (loans (disk w))
                  (repayments (disk w)
                     ++ map (installment loan_id investor_id mp (clock w)) xs))
          (fs_log w ++ repeat (Appended repayments_file) (List.length xs))
          (stdin w) (stdout w) (clock w) (entropy w).

(** The world after a funding that went through: one installment per
    month appended, the loan table rewritten, the success line printed. *)
Definition funded (investor_id loan_id : string) (ls : list Loan.t)
           (mp : float) (d : Z) (w : World) : World :=
  mkWorld (mkDisk (users (disk w)) (map (mark_funded loan_id) ls)
                  (repayments (disk w)
                     ++ map (installment loan_id investor_id mp (clock w)) (range d)))
          (fs_log w
             ++ repeat (Appended repayments_file) (List.length (range d))
             ++ [Rewritten loans_file])
          (stdin w)
          (stdout w ++ ["💰 Investment successful! Repayments will be tracked monthly."])
          (clock w) (entropy w).

(** A repayment row whose due date is the text of a calendar day. *)
Definition dated (r : Repayment.t) : Prop :=
  exists day, Datetime.valid day /\ Repayment.due_date r = Datetime.strftime day.

(** The repayments table only grows, by dated rows. *)
Definition installments_grow (w w' : World) : Prop :=
  exists new, repayments (disk w') = repayments (disk w) ++ new /\
              Forall dated new.

(** The loan table only grows, by open rows. *)
Definition loans_grow (w w' : World) : Prop :=
  exists new, loans (disk w') = loans (disk w) ++ new /\
              Forall (fun l => Loan.status l = "open") new.

(** Inputs an operation turns down with a message: what was typed at the
    menu, the lines left unread afterwards, the message. *)
Inductive refused (w : World) : list string -> string -> Prop :=
| refused_role : forall name typed rest,
    stdin w = "1" :: name :: typed :: rest ->
    ~ In (Str.lower typed) ["borrower"; "investor"] ->
    refused w rest "Invalid role."
| refused_borrower : forall borrower_id rest,
    stdin w = "2" :: borrower_id :: rest ->
    has_user borrower_id "borrower" (users (disk w)) = false ->
    refused w rest "❌ Invalid borrower ID."
| refused_investor : forall investor_id rest,
    stdin w = "4" :: investor_id :: rest ->
    has_user investor_id "investor" (users (disk w)) = false ->
    refused w rest "❌ Invalid investor ID."
| refused_loan : forall investor_id loan_id rest,
    stdin w = "4" :: investor_id :: loan_id :: rest ->
    has_user investor_id "investor" (users (disk w)) = true ->
    open_loan loan_id (loans (disk w)) = None ->
    refused w rest "❌ Invalid loan ID."
| refused_choice : forall choice rest,
    stdin w = choice :: rest ->
    ~ In choice ["1"; "2"; "3"; "4"; "5"; "6"; "7"] ->
    refused w rest "❌ Invalid choice. Try again.".

(** A loan listing by a registered borrower in which the amount, the rate
    or the duration typed is not a number; the lines left unread. *)
Inductive non_numeric (w : World) : list string -> Prop :=
| non_numeric_amount : forall borrower_id a rest,
    stdin w = "2" :: borrower_id :: a :: rest ->
    has_user borrower_id "borrower" (users (disk w)) = true ->
    float_of_str a = None ->
    non_numeric w rest
| non_numeric_rate : forall borrower_id a r rest,
    stdin w = "2" :: borrower_id :: a :: r :: rest ->
    has_user borrower_id "borrower" (users (disk w)) = true ->
    float_of_str a <> None -> float_of_str r = None ->
    non_numeric w rest
| non_numeric_duration : forall borrower_id a r d rest,
    stdin w = "2" :: borrower_id :: a :: r :: d :: rest ->
    has_user borrower_id "borrower" (users (disk w)) = true ->
    float_of_str a <> None -> float_of_str r <> None -> int_of_str d = None ->
    non_numeric w rest.

(** The [if]/[elif] chain of [menu] on the choice read. *)
Definition dispatch (choice : string) : M flow :=
  if String.eqb choice "1" then register_user ;; ret Continue
  else if String.eqb choice "2" then list_loan ;; ret Continue
  else if String.eqb choice "3" then view_loans ;; ret Continue
  else if String.eqb choice "4" then invest ;; ret Continue
  else if String.eqb choice "5" then process_repayments ;; ret Continue
  else if String.eqb choice "6" then investor_dashboard ;; ret Continue
  else if String.eqb choice "7" then print "👋 Goodbye!" ;; ret Break
  else print "❌ Invalid choice. Try again." ;; ret Continue.

End Vocabulary.

(* ================================================================= *)
(** ** Vocabulary of the further properties *)

Section MoreVocabulary.

Context {py : Runtime}.

(** A computation whose exceptions, if any, are among [es]. *)
Definition raises_only {A} (es : list exn) (m : M A) : Prop :=
  forall w e w', m w = Raise e w' -> In e es.

(** The exceptions each operation can end on. *)
Definition may_raise (o : operation) : list exn :=
  match o with
  | RegisterUser => [EOFError]
  | ListLoan => [EOFError; ValueError]
  | ViewLoans => []
  | Invest => [EOFError; ValueError; OverflowError; ZeroDivisionError]
  | ProcessRepayments => []
  | InvestorDashboard => [EOFError; ValueError]
  end.

(** The moves of one installment row: none, or unpaid to paid. *)
Definition repayment_step (r r' : Repayment.t) : Prop :=
  r' = r \/ (Repayment.paid r = "False" /\ r' = Repayment.set_paid "True" r).

(** The line [view_loans] prints for one loan. *)
Definition loan_line (loan : Loan.t) : string :=
  Str.concat ["ID: "; Loan.loan_id loan;
              ", Amount: R"; Loan.amount loan;
              ", Rate: "; Loan.interest_rate loan;
              "%, Duration: "; Loan.duration loan; " months"].

(** References between the tables: the borrower of a loan is a registered
    borrower; the investor of an installment is a registered investor, its
    loan is in the loan table and its flag is one of the two texts. *)
Definition loan_refers (d : Disk) (l : Loan.t) : Prop :=
  has_user (Loan.borrower_id l) "borrower" (users d) = true.

Definition repayment_refers (d : Disk) (r : Repayment.t) : Prop :=
  has_user (Repayment.investor_id r) "investor" (users d) = true /\
  In (Repayment.loan_id r) (map Loan.loan_id (loans d)) /\
  (Repayment.paid r = "False" \/ Repayment.paid r = "True").


(** Lines 65-77: what [list_loan] does once the borrower is accepted. *)
Definition listing (borrower_id : string) : M unit :=
  a <- input "Loan amount (R): " ;;
  amount <- try ValueError (float_of_str a) ;;
  r <- input "Interest rate (%): " ;;
  rate <- try ValueError (float_of_str r) ;;
  d <- input "Duration (months): " ;;
  duration <- try ValueError (int_of_str d) ;;
  loan_id <- generate_id ;;
  append_csv loans_file
    (Loan.mk loan_id borrower_id (str_of_float amount) (str_of_float rate)
             (str_of_int duration) "open") ;;
  print (Str.concat ["📌 Loan listed with ID: "; loan_id]).

(** The world after a listing that went through. *)
Definition loan_listed (borrower_id : string) (amount rate : float) (duration : Z)
           (rest : list string) (w : World) : World :=
  let loan_id := Str.prefix 8 (uuid4 (entropy w)) in
  mkWorld (mkDisk (users (disk w))
                  (loans (disk w)
                     ++ [Loan.mk loan_id borrower_id (str_of_float amount)
                                 (str_of_float rate) (str_of_int duration) "open"])
                  (repayments (disk w)))
          (fs_log w ++ [Appended loans_file]) rest
          (stdout w ++ ["Enter your user ID: "; "Loan amount (R): ";
                        "Interest rate (%): "; "Duration (months): ";
                        Str.concat ["📌 Loan listed with ID: "; loan_id]])
          (clock w) (S (entropy w)).

(** The world after a registration that went through. *)
Definition user_registered (name typed : string) (rest : list string) (w : World)
  : World :=
  let user_id := Str.prefix 8 (uuid4 (entropy w)) in
  mkWorld (mkDisk (users (disk w) ++ [User.mk user_id name (Str.lower typed)])
                  (loans (disk w)) (repayments (disk w)))
          (fs_log w ++ [Appended users_file]) rest
          (stdout w ++ ["Enter your name: "; "Role (borrower/investor): ";
                        Str.concat ["✅ User '"; name;
                                    "' registered with ID: "; user_id]])
          (clock w) (S (entropy w)).

End MoreVocabulary.
From Stdlib Require Import Permutation.

(* ================================================================= *)
(** ** Vocabulary of the session properties *)

Section SessionVocabulary.

Context {py : Runtime}.

(** No id was drawn. *)
Definition same_entropy (w w' : World) : Prop := entropy w' = entropy w.

(** The key of the menu that runs an operation. *)
Definition choice_of (o : operation) : string :=
  match o with
  | RegisterUser => "1"
  | ListLoan => "2"
  | ViewLoans => "3"
  | Invest => "4"
  | ProcessRepayments => "5"
  | InvestorDashboard => "6"
  end.


(** Every reference of the loan and repayment tables resolves. *)
Definition references_ok (d : Disk) : Prop :=
  Forall (loan_refers d) (loans d) /\ Forall (repayment_refers d) (repayments d).

(** A payment text that [float()] refuses. *)
Definition bad_payment (r : Repayment.t) : Prop :=
  float_of_str (Repayment.monthly_payment r) = None.

End SessionVocabulary.

(* ================================================================= *)
(** ** A reference session *)

(** The scenario of the specification on the reference runtime: Alice
    lists a loan of 1000 at 10% over 2 months, Bob funds it.  The ids are
    the first three the reference [uuid4] yields. *)
Module Scenario.

Import CPython.

Definition day0 : Z := 739923.                  (* 2026-11-03 *)

Definition alice : User.t := User.mk "9e3779b1" "Alice" "borrower".
Definition bob : User.t := User.mk "3c6ef362" "Bob" "investor".

Definition listed : Loan.t :=
  Loan.mk "daa66d13" "9e3779b1" "1000.0" "10.0" "2" "open".

(** A loan listed with a negative number of months. *)
Definition backwards : Loan.t :=
  Loan.mk "daa66d13" "9e3779b1" "1000.0" "10.0" "-2" "open".

Definition first_due : Repayment.t :=
  Repayment.mk "daa66d13" "3c6ef362" "550.0" "2026-12-03" "False".
Definition second_due : Repayment.t :=
  Repayment.mk "daa66d13" "3c6ef362" "550.0" "2027-01-02" "False".

(** Both users registered and the loan listed. *)
Definition market : Disk := mkDisk [alice; bob] [listed] [].

(** The same with the backwards loan. *)
Definition odd_market : Disk := mkDisk [alice; bob] [backwards] [].

(** After Bob funded the loan. *)
Definition ledger : Disk :=
  mkDisk [alice; bob] [Loan.set_status "funded" listed] [first_due; second_due].

(** After both installments were processed. *)
Definition settled : Disk :=
  mkDisk [alice; bob] [Loan.set_status "funded" listed]
         [Repayment.set_paid "True" first_due; Repayment.set_paid "True" second_due].

(** The keystrokes that bring the empty data folder to [ledger]. *)
Definition script (months : string) : list string :=
  ["1"; "Alice"; "borrower"; "1"; "Bob"; "investor";
   "2"; "9e3779b1"; "1000"; "10"; months;
   "4"; "3c6ef362"; "daa66d13"; "7"].

End Scenario.

(** Further folders of the reference session. *)
Module Scenario2.

(** The last days of the calendar: a funding whose second due date does
    not exist. *)
Definition doomsday : Z := Datetime.MAXORDINAL - 45.



(** A repayments table edited by hand, the payment no longer a number. *)
Definition smudged : Disk :=
  mkDisk [Scenario.alice; Scenario.bob] [Loan.set_status "funded" Scenario.listed]
         [Scenario.first_due;
          Repayment.mk "daa66d13" "3c6ef362" "R550" "2027-01-02" "False"].

End Scenario2.

(* ================================================================= *)
(** ** Properties *)

Section Properties.

Context {py : Runtime}.

(** *** The monad and the frames *)

Lemma world_of_bind {A B} (m : M A) (k : A -> M B) w :
  world_of (bind m k w) =
  match m w with
  | Return a w' => world_of (k a w')
  | Raise _ w' => w'
  end.
Proof. unfold bind. destruct (m w); reflexivity. Qed.

Lemma keeps_bind {A B} (R : World -> World -> Prop) (m : M A) (k : A -> M B) :
  (forall x y z, R x y -> R y z -> R x z) ->
  keeps R m -> (forall a, keeps R (k a)) -> keeps R (bind m k).
Proof.
  intros tr Hm Hk w. rewrite world_of_bind.
  specialize (Hm w). destruct (m w) as [a w'|e w']; simpl in Hm.
  - eapply tr; [exact Hm | apply Hk].
  - exact Hm.
Qed.

Lemma keeps_for_each {A} (R : World -> World -> Prop) (xs : list A) body :
  (forall x, R x x) -> (forall x y z, R x y -> R y z -> R x z) ->
  (forall x, keeps R (body x)) -> keeps R (for_each xs body).
Proof.
  intros rf tr Hb. induction xs as [|x xs IH]; simpl.
  - intro w. apply rf.
  - apply keeps_bind; auto.
Qed.

(** The frame relations are preorders. *)
Lemma same_users_refl w : same_users w w. Proof. reflexivity. Qed.
Lemma same_loans_refl w : same_loans w w. Proof. reflexivity. Qed.
Lemma same_repayments_refl w : same_repayments w w. Proof. reflexivity. Qed.
Lemma same_files_refl w : same_files w w. Proof. split; reflexivity. Qed.
Lemma no_more_input_refl w : no_more_input w w. Proof. unfold no_more_input; lia. Qed.

Lemma same_users_trans x y z : same_users x y -> same_users y z -> same_users x z.
Proof. unfold same_users; congruence. Qed.
Lemma same_loans_trans x y z : same_loans x y -> same_loans y z -> same_loans x z.
Proof. unfold same_loans; congruence. Qed.
Lemma same_repayments_trans x y z :
  same_repayments x y -> same_repayments y z -> same_repayments x z.
Proof. unfold same_repayments; congruence. Qed.
Lemma same_files_trans x y z : same_files x y -> same_files y z -> same_files x z.
Proof. unfold same_files; intros [] []; split; congruence. Qed.
Lemma no_more_input_trans x y z :
  no_more_input x y -> no_more_input y z -> no_more_input x z.
Proof. unfold no_more_input; lia. Qed.

(** Primitives and the frames they keep. *)
Lemma keeps_ret {A} (R : World -> World -> Prop) (a : A) :
  (forall x, R x x) -> keeps R (ret a).
Proof. intros rf w; apply rf. Qed.

Lemma keeps_raise {A} (R : World -> World -> Prop) e :
  (forall x, R x x) -> keeps R (@raise A e).
Proof. intros rf w; apply rf. Qed.

Lemma keeps_try {A} (R : World -> World -> Prop) e (o : option A) :
  (forall x, R x x) -> keeps R (try e o).
Proof. intros rf w; destruct o; apply rf. Qed.

Lemma keeps_first_keys {A} (R : World -> World -> Prop) (xs : list A) :
  (forall x, R x x) -> keeps R (first_keys xs).
Proof. intros rf w; destruct xs; apply rf. Qed.

Lemma keeps_load_csv (R : World -> World -> Prop) p :
  (forall x, R x x) -> keeps R (load_csv p).
Proof. intros rf w; apply rf. Qed.

Lemma keeps_today (R : World -> World -> Prop) :
  (forall x, R x x) -> keeps R today.
Proof. intros rf w; apply rf. Qed.

Lemma keeps_print (R : World -> World -> Prop) s :
  (forall w lines, R w (wrote lines w)) -> keeps R (print s).
Proof. intros H w. apply (H w [s]). Qed.

Lemma keeps_generate_id (R : World -> World -> Prop) :
  (forall w n, R w (mkWorld (disk w) (fs_log w) (stdin w) (stdout w) (clock w) n)) ->
  keeps R generate_id.
Proof. intros H w. apply H. Qed.

Lemma keeps_input (R : World -> World -> Prop) prompt :
  (forall w lines, R w (wrote lines w)) ->
  (forall w l rest, stdin w = l :: rest -> R w (consumed rest w)) ->
  (forall x y z, R x y -> R y z -> R x z) ->
  keeps R (input prompt).
Proof.
  intros Hw Hc tr w. unfold input.
  destruct (stdin w) as [|l rest] eqn:E; simpl.
  - replace (mkWorld _ _ _ _ _ _) with (wrote [prompt] w); [apply Hw|].
    unfold wrote; rewrite E; reflexivity.
  - eapply tr; [apply (Hc w l rest E)|].
    apply (Hw (consumed rest w) [prompt]).
Qed.

(** How the relations see the elementary world updates. *)
Lemma wrote_same_users w lines : same_users w (wrote lines w). Proof. reflexivity. Qed.
Lemma wrote_same_loans w lines : same_loans w (wrote lines w). Proof. reflexivity. Qed.
Lemma wrote_same_repayments w lines : same_repayments w (wrote lines w).
Proof. reflexivity. Qed.
Lemma wrote_same_files w lines : same_files w (wrote lines w).
Proof. split; reflexivity. Qed.
Lemma wrote_no_more_input w lines : no_more_input w (wrote lines w).
Proof. unfold no_more_input; simpl; lia. Qed.

Lemma consumed_same_users w l rest :
  stdin w = l :: rest -> same_users w (consumed rest w).
Proof. reflexivity. Qed.
Lemma consumed_same_loans w l rest :
  stdin w = l :: rest -> same_loans w (consumed rest w).
Proof. reflexivity. Qed.
Lemma consumed_same_repayments w l rest :
  stdin w = l :: rest -> same_repayments w (consumed rest w).
Proof. reflexivity. Qed.
Lemma consumed_same_files w l rest :
  stdin w = l :: rest -> same_files w (consumed rest w).
Proof. split; reflexivity. Qed.
Lemma consumed_no_more_input w l rest :
  stdin w = l :: rest -> no_more_input w (consumed rest w).
Proof. intro E; unfold no_more_input; rewrite E; simpl; lia. Qed.

Lemma drew_same_users w n :
  same_users w (mkWorld (disk w) (fs_log w) (stdin w) (stdout w) (clock w) n).
Proof. reflexivity. Qed.
Lemma drew_same_loans w n :
  same_loans w (mkWorld (disk w) (fs_log w) (stdin w) (stdout w) (clock w) n).
Proof. reflexivity. Qed.
Lemma drew_same_repayments w n :
  same_repayments w (mkWorld (disk w) (fs_log w) (stdin w) (stdout w) (clock w) n).
Proof. reflexivity. Qed.
Lemma drew_no_more_input w n :
  no_more_input w (mkWorld (disk w) (fs_log w) (stdin w) (stdout w) (clock w) n).
Proof. unfold no_more_input; simpl; lia. Qed.

(** File writes: each touches one table, never the input. *)
Lemma keeps_append_input p r : keeps no_more_input (append_csv p r).
Proof. intro w; unfold no_more_input; simpl; lia. Qed.
Lemma keeps_write_input p rows : keeps no_more_input (write_csv p rows).
Proof. intro w; unfold no_more_input; simpl; lia. Qed.

Lemma keeps_append_loans_users r : keeps same_users (append_csv loans_file r).
Proof. intro w; reflexivity. Qed.
Lemma keeps_append_loans_repayments r :
  keeps same_repayments (append_csv loans_file r).
Proof. intro w; reflexivity. Qed.
Lemma keeps_append_users_loans r : keeps same_loans (append_csv users_file r).
Proof. intro w; reflexivity. Qed.
Lemma keeps_append_users_repayments r :
  keeps same_repayments (append_csv users_file r).
Proof. intro w; reflexivity. Qed.
Lemma keeps_append_repayments_users r :
  keeps same_users (append_csv repayments_file r).
Proof. intro w; reflexivity. Qed.
Lemma keeps_append_repayments_loans r :
  keeps same_loans (append_csv repayments_file r).
Proof. intro w; reflexivity. Qed.
Lemma keeps_write_loans_users rows : keeps same_users (write_csv loans_file rows).
Proof. intro w; reflexivity. Qed.
Lemma keeps_write_loans_repayments rows :
  keeps same_repayments (write_csv loans_file rows).
Proof. intro w; reflexivity. Qed.
Lemma keeps_write_repayments_users rows :
  keeps same_users (write_csv repayments_file rows).
Proof. intro w; reflexivity. Qed.
Lemma keeps_write_repayments_loans rows :
  keeps same_loans (write_csv repayments_file rows).
Proof. intro w; reflexivity. Qed.

End Properties.

Create HintDb frames.

#[export] Hint Resolve
  same_users_refl same_loans_refl same_repayments_refl same_files_refl
  no_more_input_refl
  same_users_trans same_loans_trans same_repayments_trans same_files_trans
  no_more_input_trans
  wrote_same_users wrote_same_loans wrote_same_repayments wrote_same_files
  wrote_no_more_input
  consumed_same_users consumed_same_loans consumed_same_repayments
  consumed_same_files consumed_no_more_input
  drew_same_users drew_same_loans drew_same_repayments
  drew_no_more_input
  keeps_append_input keeps_write_input
  keeps_append_loans_users keeps_append_loans_repayments
  keeps_append_users_loans keeps_append_users_repayments
  keeps_append_repayments_users keeps_append_repayments_loans
  keeps_write_loans_users keeps_write_loans_repayments
  keeps_write_repayments_users keeps_write_repayments_loans
  : frames.

(** Walks a computation built from binds, tests and primitives, leaving
    only the frame conditions of the writes it meets. *)
Ltac frame :=
  repeat first
    [ apply keeps_bind; [eauto with frames | | intro]
    | apply keeps_for_each; [eauto with frames | eauto with frames | intro]
    | apply keeps_ret; eauto with frames
    | apply keeps_raise; eauto with frames
    | apply keeps_try; eauto with frames
    | apply keeps_first_keys; eauto with frames
    | apply keeps_load_csv; eauto with frames
    | apply keeps_today; eauto with frames
    | apply keeps_print; eauto with frames
    | apply keeps_generate_id; eauto with frames
    | apply keeps_input; eauto with frames
    | match goal with
      | |- keeps _ (if ?b then _ else _) => destruct b eqn:?
      | |- keeps _ (match ?x with _ => _ end) => destruct x eqn:?
      end
    | solve [eauto with frames] ].

Section Operations.

Context {py : Runtime}.

(** *** Frames of the operations *)

Lemma view_loans_same_files : keeps same_files view_loans.
Proof. unfold view_loans. frame. Qed.

Lemma view_loans_no_more_input : keeps no_more_input view_loans.
Proof. unfold view_loans. frame. Qed.


Lemma monthly_payment_of_same_files loan : keeps same_files (monthly_payment_of loan).
Proof. unfold monthly_payment_of. frame. Qed.

Lemma register_user_same_loans : keeps same_loans register_user.
Proof. unfold register_user. frame. Qed.

Lemma register_user_same_repayments : keeps same_repayments register_user.
Proof. unfold register_user. frame. Qed.

Lemma register_user_no_more_input : keeps no_more_input register_user.
Proof. unfold register_user. frame. Qed.

Lemma list_loan_same_users : keeps same_users list_loan.
Proof. unfold list_loan. frame. Qed.

Lemma list_loan_same_repayments : keeps same_repayments list_loan.
Proof. unfold list_loan. frame. Qed.

Lemma list_loan_no_more_input : keeps no_more_input list_loan.
Proof. unfold list_loan. frame. Qed.

Lemma invest_same_users : keeps same_users invest.
Proof. unfold invest, view_loans, monthly_payment_of. frame. Qed.

Lemma invest_no_more_input : keeps no_more_input invest.
Proof. unfold invest, view_loans, monthly_payment_of. frame. Qed.


End Operations.

(* ================================================================= *)
(** ** The calendar *)

Section Calendar.

Import Datetime.

(** *** The calendar: text order is date order *)

Ltac euclid := Z.to_euclidean_division_equations; lia.

(** Replaces the month tables applied to constants by their values. *)
Ltac month_tables :=
  repeat match goal with
         | |- context [days_in_month ?l ?m] =>
             let v := eval vm_compute in (days_in_month l m) in
             change (days_in_month l m) with v
         | |- context [days_before_month ?l ?m] =>
             let v := eval vm_compute in (days_before_month l m) in
             change (days_before_month l m) with v
         end.

Lemma mod_100_4 y : y mod 4 = (y mod 100) mod 4.
Proof.
  rewrite (Z.div_mod y 100) at 1 by lia.
  replace (100 * (y / 100) + y mod 100) with (y mod 100 + (25 * (y / 100)) * 4) by lia.
  apply Z.mod_add. lia.
Qed.

Lemma mod_400_100 y : y mod 100 = (y mod 400) mod 100.
Proof.
  rewrite (Z.div_mod y 400) at 1 by lia.
  replace (400 * (y / 400) + y mod 400) with (y mod 400 + (4 * (y / 400)) * 100) by lia.
  apply Z.mod_add. lia.
Qed.

Lemma div_step_4 y : y / 4 = (y - 1) / 4 + (if y mod 4 =? 0 then 1 else 0).
Proof. destruct (Z.eqb_spec (y mod 4) 0); euclid. Qed.

Lemma div_step_100 y : y / 100 = (y - 1) / 100 + (if y mod 100 =? 0 then 1 else 0).
Proof. destruct (Z.eqb_spec (y mod 100) 0); euclid. Qed.

Lemma div_step_400 y : y / 400 = (y - 1) / 400 + (if y mod 400 =? 0 then 1 else 0).
Proof. destruct (Z.eqb_spec (y mod 400) 0); euclid. Qed.

(** A year is as long as the gap between two first days of January. *)
Lemma days_before_year_next y :
  days_before_year (y + 1) = days_before_year y + year_length y.
Proof.
  unfold days_before_year, year_length, is_leap.
  replace (y + 1 - 1) with y by lia.
  rewrite (div_step_4 y), (div_step_100 y), (div_step_400 y).
  pose proof (mod_100_4 y) as A. pose proof (mod_400_100 y) as B.
  destruct (Z.eqb_spec (y mod 4) 0) as [E4|E4],
           (Z.eqb_spec (y mod 100) 0) as [E100|E100],
           (Z.eqb_spec (y mod 400) 0) as [E400|E400]; cbn; try lia.
  all: exfalso.
  all: try (rewrite E400 in B; cbn in B; congruence).
  all: try (rewrite E100 in A; cbn in A; congruence).
Qed.

Lemma year_length_bounds y : 365 <= year_length y <= 366.
Proof. unfold year_length. destruct (is_leap y); lia. Qed.

Lemma days_before_year_mono a b :
  a <= b -> days_before_year a <= days_before_year b.
Proof.
  intro L. replace b with (a + Z.of_nat (Z.to_nat (b - a))) by lia.
  induction (Z.to_nat (b - a)) as [|k IH]; [replace (a + Z.of_nat 0) with a by lia; lia|].
  replace (a + Z.of_nat (S k)) with (a + Z.of_nat k + 1) by lia.
  rewrite days_before_year_next. pose proof (year_length_bounds (a + Z.of_nat k)). lia.
Qed.

(** The search stops at the year that contains the day. *)
Lemma find_year_spec fuel : forall n y,
  days_before_year y <= n ->
  n < days_before_year (y + Z.of_nat fuel) ->
  y <= find_year fuel n y /\
  days_before_year (find_year fuel n y) <= n
    < days_before_year (find_year fuel n y + 1).
Proof.
  induction fuel as [|fuel IH]; intros n y L U; cbn [find_year].
  - replace (y + Z.of_nat 0) with y in U by lia. lia.
  - destruct (Z.leb_spec (days_before_year (y + 1)) n) as [H|H].
    + destruct (IH n (y + 1) H) as [A B]; [|split; [lia|exact B]].
      replace (y + 1 + Z.of_nat fuel) with (y + Z.of_nat (S fuel)) by lia.
      exact U.
    + lia.
Qed.

Lemma first_guess n :
  0 <= n < MAXORDINAL ->
  days_before_year (n / 366 + 1) <= n
    < days_before_year (n / 366 + 1 + Z.of_nat 32%nat).
Proof. unfold days_before_year, MAXORDINAL. cbn [Z.of_nat Pos.of_succ_nat Pos.succ]. intros H. euclid. Qed.

Lemma days_before_month_next (leap : bool) m :
  1 <= m <= 11 ->
  days_before_month leap (m + 1) = days_before_month leap m + days_in_month leap m.
Proof.
  intro M.
  assert (m = 1 \/ m = 2 \/ m = 3 \/ m = 4 \/ m = 5 \/ m = 6 \/ m = 7
          \/ m = 8 \/ m = 9 \/ m = 10 \/ m = 11) as C by lia.
  destruct leap; repeat (destruct C as [C|C]); subst m; reflexivity.
Qed.

Lemma days_before_december (leap : bool) :
  days_before_month leap 12 + 31 = (if leap then 366 else 365).
Proof. destruct leap; reflexivity. Qed.

(** The walk over the months stops in the month that contains the day. *)
Lemma month_day_inv fuel : forall (leap : bool) m n,
  1 <= m -> m + Z.of_nat fuel = 12 -> 0 <= n ->
  days_before_month leap m + n < (if leap then 366 else 365) ->
  m <= fst (month_day fuel leap m n) <= 12 /\
  1 <= snd (month_day fuel leap m n)
    <= days_in_month leap (fst (month_day fuel leap m n)) /\
  days_before_month leap m + n
  = days_before_month leap (fst (month_day fuel leap m n))
    + snd (month_day fuel leap m n) - 1.
Proof.
  induction fuel as [|fuel IH]; intros leap m n M F N K; cbn [month_day].
  - assert (m = 12) as -> by lia. cbn [fst snd].
    pose proof (days_before_december leap) as D.
    replace (days_in_month leap 12) with 31 by (destruct leap; reflexivity). lia.
  - destruct (Z.ltb_spec n (days_in_month leap m)) as [L|L]; cbn [fst snd].
    + lia.
    + pose proof (@days_before_month_next leap m ltac:(lia)) as Nx.
      destruct (IH leap (m + 1) (n - days_in_month leap m)) as (A & B & C); lia.
Qed.

Lemma month_day_spec (leap : bool) (k : Z) :
  0 <= k < (if leap then 366 else 365) ->
  1 <= fst (month_day 11 leap 1 k) <= 12 /\
  1 <= snd (month_day 11 leap 1 k)
    <= days_in_month leap (fst (month_day 11 leap 1 k)) /\
  k = days_before_month leap (fst (month_day 11 leap 1 k))
      + snd (month_day 11 leap 1 k) - 1.
Proof.
  intro K.
  destruct (@month_day_inv 11 leap 1 k) as (A & B & C); try lia.
  - replace (days_before_month leap 1) with 0 by (destruct leap; reflexivity). lia.
  - replace (days_before_month leap 1) with 0 in C by (destruct leap; reflexivity).
    repeat split; try lia.
Qed.

(** Within a year, an earlier day has the smaller month-and-day number. *)
Lemma in_year_order leap m1 d1 m2 d2 :
  1 <= m1 <= 12 -> 1 <= d1 <= days_in_month leap m1 ->
  1 <= m2 <= 12 -> 1 <= d2 <= days_in_month leap m2 ->
  days_before_month leap m1 + d1 < days_before_month leap m2 + d2 ->
  m1 * 100 + d1 < m2 * 100 + d2.
Proof.
  intros M1 D1 M2 D2.
  assert (m1 = 1 \/ m1 = 2 \/ m1 = 3 \/ m1 = 4 \/ m1 = 5 \/ m1 = 6 \/ m1 = 7
          \/ m1 = 8 \/ m1 = 9 \/ m1 = 10 \/ m1 = 11 \/ m1 = 12) as C1 by lia.
  assert (m2 = 1 \/ m2 = 2 \/ m2 = 3 \/ m2 = 4 \/ m2 = 5 \/ m2 = 6 \/ m2 = 7
          \/ m2 = 8 \/ m2 = 9 \/ m2 = 10 \/ m2 = 11 \/ m2 = 12) as C2 by lia.
  clear M1 M2. revert D1 D2.
  destruct leap;
    repeat (destruct C1 as [C1|C1]); subst m1;
    repeat (destruct C2 as [C2|C2]); subst m2; month_tables; lia.
Qed.

(** What [ord2ymd] returns for a date in range. *)
Lemma ord2ymd_spec o :
  Datetime.valid o ->
  let '(y, m, d) := ord2ymd o in
  1 <= y <= 9999 /\ 1 <= m <= 12 /\ 1 <= d <= days_in_month (is_leap y) m /\
  o = days_before_year y + days_before_month (is_leap y) m + d.
Proof.
  unfold valid, MINORDINAL. intro V. unfold ord2ymd.
  set (n := o - 1).
  assert (0 <= n < MAXORDINAL) as N by (unfold n; lia).
  destruct (first_guess N) as [G1 G2].
  destruct (@find_year_spec 32 _ _ G1 G2) as (Y0 & Y1 & Y2).
  set (y := find_year 32 n (n / 366 + 1)) in *.
  rewrite days_before_year_next in Y2.
  assert (0 <= n - days_before_year y < (if is_leap y then 366 else 365)) as K
    by (unfold year_length in Y2; destruct (is_leap y); lia).
  destruct (@month_day_spec _ _ K) as (M & D & E).
  destruct (month_day 11 (is_leap y) 1 (n - days_before_year y)) as [m d].
  cbn [fst snd] in *.
  assert (1 <= y) as Y by (unfold MAXORDINAL in N; euclid).
  assert (y <= 9999) as Y'.
  { destruct (Z.le_gt_cases y 9999) as [|H]; [assumption|].
    pose proof (@days_before_year_mono 10000 y ltac:(lia)) as Mo.
    unfold MAXORDINAL in N.
    change (days_before_year 10000) with 3652059 in Mo. lia. }
  repeat split; try lia.
Qed.

(** Later dates have larger year-month-day numbers. *)
Lemma ord2ymd_increasing a b :
  Datetime.valid a -> Datetime.valid b -> a < b ->
  let '(y1, m1, d1) := ord2ymd a in
  let '(y2, m2, d2) := ord2ymd b in
  date_key y1 m1 d1 < date_key y2 m2 d2.
Proof.
  intros Va Vb L.
  pose proof (ord2ymd_spec Va) as Sa. pose proof (ord2ymd_spec Vb) as Sb.
  destruct (ord2ymd a) as [[y1 m1] d1], (ord2ymd b) as [[y2 m2] d2].
  destruct Sa as (Y1 & M1 & D1 & E1), Sb as (Y2 & M2 & D2 & E2).
  assert (d1 <= 31 /\ d2 <= 31) as [B1 B2].
  { unfold days_in_month in D1, D2.
    repeat match goal with
           | H : context [if ?c then _ else _] |- _ => destruct c
           end; lia. }
  unfold date_key.
  destruct (Z.lt_trichotomy y1 y2) as [Hlt|[Heq|Hgt]].
  - lia.
  - subst y2.
    assert (days_before_month (is_leap y1) m1 + d1
            < days_before_month (is_leap y1) m2 + d2) as Hk by lia.
    pose proof (@in_year_order (is_leap y1) m1 d1 m2 d2 M1 D1 M2 D2 Hk) as Hmd.
    clear -Hmd. lia.
  - exfalso.
    pose proof (@days_before_year_mono (y2 + 1) y1 ltac:(lia)) as Mo.
    rewrite days_before_year_next in Mo.
    assert (days_before_month (is_leap y2) m2 + d2 <= year_length y2) as Le.
    { unfold year_length.
      assert (m2 = 1 \/ m2 = 2 \/ m2 = 3 \/ m2 = 4 \/ m2 = 5 \/ m2 = 6 \/ m2 = 7
              \/ m2 = 8 \/ m2 = 9 \/ m2 = 10 \/ m2 = 11 \/ m2 = 12) as C2 by lia.
      clear -C2 D2. revert D2.
      destruct (is_leap y2);
        repeat (destruct C2 as [C2|C2]); subst m2; month_tables; lia. }
    assert (0 <= days_before_month (is_leap y1) m1) as Ge.
    { unfold days_before_month.
      repeat match goal with
             | |- context [if ?c then _ else _] => destruct c
             end; lia. }
    lia.
Qed.

(** The ten digit characters are ordered as the digits are. *)
Lemma digit_compare p q :
  Ascii.compare (digit p) (digit q) = (p mod 10 ?= q mod 10).
Proof.
  unfold digit.
  pose proof (Z.mod_pos_bound p 10 ltac:(lia)) as P.
  pose proof (Z.mod_pos_bound q 10 ltac:(lia)) as Q.
  assert (p mod 10 = 0 \/ p mod 10 = 1 \/ p mod 10 = 2 \/ p mod 10 = 3
          \/ p mod 10 = 4 \/ p mod 10 = 5 \/ p mod 10 = 6 \/ p mod 10 = 7
          \/ p mod 10 = 8 \/ p mod 10 = 9) as Cp by lia.
  assert (q mod 10 = 0 \/ q mod 10 = 1 \/ q mod 10 = 2 \/ q mod 10 = 3
          \/ q mod 10 = 4 \/ q mod 10 = 5 \/ q mod 10 = 6 \/ q mod 10 = 7
          \/ q mod 10 = 8 \/ q mod 10 = 9) as Cq by lia.
  clear P Q.
  repeat (destruct Cp as [Cp|Cp]); rewrite Cp;
    repeat (destruct Cq as [Cq|Cq]); rewrite Cq; reflexivity.
Qed.

(** Zero-padded fields compare as the numbers they show. *)
Lemma date_text_compare y m d y' m' d' :
  0 <= y <= 9999 -> 0 <= m <= 99 -> 0 <= d <= 99 ->
  0 <= y' <= 9999 -> 0 <= m' <= 99 -> 0 <= d' <= 99 ->
  String.compare (pad4 y ++ "-" ++ pad2 m ++ "-" ++ pad2 d)%string
                 (pad4 y' ++ "-" ++ pad2 m' ++ "-" ++ pad2 d')%string
  = (date_key y m d ?= date_key y' m' d').
Proof.
  intros Y M D Y' M' D'. unfold pad4, pad2, date_key.
  cbn [append String.compare].
  change (Ascii.compare "-" "-") with Eq. cbv iota.
  rewrite !digit_compare.
  repeat match goal with
         | |- context [?a ?= ?b] =>
             lazymatch goal with
             | |- _ = (a ?= b) => fail
             | _ => destruct (Z.compare_spec a b)
             end
         end;
    symmetry;
    first [apply Z.compare_eq_iff | apply Z.compare_lt_iff | apply Z.compare_gt_iff];
    euclid.
Qed.

(** On dates in range, the order of the [YYYY-MM-DD] texts is the order of
    the days. *)
Lemma strftime_le a b :
  Datetime.valid a -> Datetime.valid b ->
  Str.le (strftime a) (strftime b) = (a <=? b).
Proof.
  intros Va Vb. unfold Str.le, String.leb, strftime.
  pose proof (ord2ymd_spec Va) as Sa. pose proof (ord2ymd_spec Vb) as Sb.
  pose proof (@ord2ymd_increasing a b Va Vb) as Iab.
  pose proof (@ord2ymd_increasing b a Vb Va) as Iba.
  destruct (ord2ymd a) as [[y1 m1] d1] eqn:Ea, (ord2ymd b) as [[y2 m2] d2] eqn:Eb.
  destruct Sa as (Y1 & M1 & D1 & E1), Sb as (Y2 & M2 & D2 & E2).
  assert (d1 <= 31 /\ d2 <= 31) as [B1 B2].
  { unfold days_in_month in D1, D2.
    repeat match goal with
           | H : context [if ?c then _ else _] |- _ => destruct c
           end; lia. }
  rewrite date_text_compare by lia.
  destruct (Z.leb_spec a b) as [Hle|Hgt].
  - destruct (Z.eq_dec a b) as [->|Hne].
    + rewrite Ea in Eb. inversion Eb; subst. rewrite Z.compare_refl. reflexivity.
    + specialize (Iab ltac:(lia)).
      rewrite (proj2 (Z.compare_lt_iff _ _) Iab). reflexivity.
  - specialize (Iba Hgt).
    rewrite (proj2 (Z.compare_gt_iff _ _) Iba). reflexivity.
Qed.

End Calendar.

Section Repayments.

Context {py : Runtime}.

(** *** Processing due repayments *)

Lemma wrote_nil w : wrote [] w = w.
Proof. destruct w; unfold wrote; simpl; rewrite app_nil_r; reflexivity. Qed.

Lemma wrote_app w l1 l2 : wrote l2 (wrote l1 w) = wrote (l1 ++ l2) w.
Proof. unfold wrote; simpl; rewrite app_assoc; reflexivity. Qed.

Lemma print_spec s w : print s w = Return tt (wrote [s] w).
Proof. reflexivity. Qed.

(** The loop returns the settled rows, whether any row was due, and has
    printed one line per due row, in table order. *)
Lemma process_rows_spec today_s rs : forall w,
  process_rows today_s rs w =
  Return (map (settle today_s) rs, existsb (is_due today_s) rs)
         (wrote (map processed_line (filter (is_due today_s) rs)) w).
Proof.
  induction rs as [|r rs IH]; intro w; simpl.
  - unfold ret. rewrite wrote_nil. reflexivity.
  - unfold settle at 1. destruct (is_due today_s r) eqn:D; simpl.
    + unfold bind at 1. rewrite print_spec.
      unfold bind. rewrite IH. unfold ret; simpl.
      rewrite wrote_app. reflexivity.
    + unfold bind. rewrite IH. reflexivity.
Qed.

Lemma settle_not_due today_s rs :
  existsb (is_due today_s) rs = false -> map (settle today_s) rs = rs.
Proof.
  induction rs as [|r rs IH]; simpl; intro H; [reflexivity|].
  apply orb_false_iff in H as [Hr Hrs].
  unfold settle at 1. rewrite Hr, (IH Hrs). reflexivity.
Qed.

(** A settled row is no longer due: its flag is ['True']. *)
Lemma settle_is_due today_s r : is_due today_s (settle today_s r) = false.
Proof.
  unfold settle. destruct (is_due today_s r) eqn:D; [|exact D].
  unfold is_due; simpl. apply andb_false_r.
Qed.


Lemma settled_none_due today_s rs :
  existsb (is_due today_s) (map (settle today_s) rs) = false.
Proof.
  induction rs as [|r rs IH]; simpl; [reflexivity|].
  rewrite settle_is_due, IH. reflexivity.
Qed.

(** The whole operation, in its two cases. *)
Lemma process_repayments_spec w :
  let today_s := Datetime.strftime (clock w) in
  let rs := repayments (disk w) in
  process_repayments w =
  Return tt
    (if existsb (is_due today_s) rs then
       mkWorld (mkDisk (users (disk w)) (loans (disk w)) (map (settle today_s) rs))
               (fs_log w ++ [Rewritten repayments_file]) (stdin w)
               (stdout w ++ map processed_line (filter (is_due today_s) rs))
               (clock w) (entropy w)
     else wrote ["No repayments due today."] w).
Proof.
  intros today_s rs. unfold process_repayments, bind, load_csv, today.
  simpl. rewrite process_rows_spec. fold today_s rs. simpl.
  destruct (existsb (is_due today_s) rs) eqn:E.
  - destruct rs as [|r rs']; [discriminate|]. reflexivity.
  - rewrite print_spec, wrote_app.
    assert (filter (is_due today_s) rs = []) as ->; [|reflexivity].
    clear -E. induction rs as [|r rs IH]; simpl in *; [reflexivity|].
    apply orb_false_iff in E as [-> E]. auto.
Qed.

End Repayments.

(** Two worlds built by the elementary updates are equal. *)
Ltac world_eq :=
  unfold print, ret, generate_id, append_csv, write_csv, wrote, consumed; simpl;
  repeat rewrite <- app_assoc; simpl; reflexivity.

Section Specifications.

Context {py : Runtime}.

(** *** What each primitive returns *)

Lemma input_eof prompt w :
  stdin w = [] -> input prompt w = Raise EOFError (wrote [prompt] w).
Proof. intro E. unfold input, wrote. rewrite E. reflexivity. Qed.

Lemma input_line prompt w line rest :
  stdin w = line :: rest ->
  input prompt w = Return line (wrote [prompt] (consumed rest w)).
Proof. intro E. unfold input. rewrite E. reflexivity. Qed.

Lemma for_each_print {A} (f : A -> string) xs : forall w,
  for_each xs (fun x => print (f x)) w = Return tt (wrote (map f xs) w).
Proof.
  induction xs as [|x xs IH]; intro w; simpl.
  - unfold ret. rewrite wrote_nil. reflexivity.
  - unfold bind. rewrite print_spec, IH, wrote_app. reflexivity.
Qed.

Lemma view_loans_spec w :
  view_loans w = Return tt (wrote (view_lines (loans (disk w))) w).
Proof.
  unfold view_loans, view_lines, bind, load_csv.
  change (read (disk w) loans_file) with (loans (disk w)).
  destruct (filter is_open (loans (disk w))) as [|l ls]; [reflexivity|].
  rewrite print_spec, for_each_print, wrote_app. reflexivity.
Qed.

(** A computation that never touches the world keeps every reflexive
    relation. *)
Lemma keeps_pure {A} (R : World -> World -> Prop) (m : M A) :
  (forall w, world_of (m w) = w) -> (forall x, R x x) -> keeps R m.
Proof. intros P rf w. rewrite P. apply rf. Qed.

Lemma payments_pure rows w : world_of (payments rows w) = w.
Proof.
  induction rows as [|r rows IH]; simpl; [reflexivity|].
  unfold bind. destruct (float_of_str (Repayment.monthly_payment r)); simpl;
    [|reflexivity].
  destruct (payments rows w) eqn:E; simpl in *; exact IH.
Qed.

Lemma sum_payments_pure rows w : world_of (sum_payments rows w) = w.
Proof.
  unfold sum_payments, bind. pose proof (payments_pure rows w) as P.
  destruct (payments rows w); exact P.
Qed.

(** *** register_user *)

Lemma register_user_rejects w name typed rest :
  stdin w = name :: typed :: rest ->
  Str.mem (Str.lower typed) ["borrower"; "investor"] = false ->
  register_user w =
  Return tt (wrote ["Enter your name: "; "Role (borrower/investor): ";
                    "Invalid role."] (consumed rest w)).
Proof.
  intros E H. unfold register_user, bind.
  rewrite (input_line _ _ E).
  erewrite input_line by reflexivity.
  rewrite H. simpl. world_eq.
Qed.

Lemma register_user_accepts w name typed rest :
  stdin w = name :: typed :: rest ->
  Str.mem (Str.lower typed) ["borrower"; "investor"] = true ->
  let user_id := Str.prefix 8 (uuid4 (entropy w)) in
  register_user w =
  Return tt
    (mkWorld (mkDisk (users (disk w) ++ [User.mk user_id name (Str.lower typed)])
                     (loans (disk w)) (repayments (disk w)))
             (fs_log w ++ [Appended users_file]) rest
             (stdout w ++ ["Enter your name: "; "Role (borrower/investor): ";
                           Str.concat ["✅ User '"; name;
                                       "' registered with ID: "; user_id]])
             (clock w) (S (entropy w))).
Proof.
  intros E H uid. unfold register_user, bind.
  rewrite (input_line _ _ E).
  erewrite input_line by reflexivity.
  rewrite H. simpl. world_eq.
Qed.

Lemma mem_roles role :
  Str.mem role ["borrower"; "investor"] = true <->
  role = "borrower" \/ role = "investor".
Proof.
  unfold Str.mem. cbn [existsb].
  rewrite !orb_true_iff, !String.eqb_eq. intuition discriminate.
Qed.

End Specifications.

Section Funding.

Context {py : Runtime}.

(** *** The monthly payment *)

(** The expression of line 101 either raises, leaving the world alone, or
    returns the value the formula describes. *)
Lemma monthly_payment_of_cases loan w :
  (exists d mp, payment_formula loan d mp /\
                monthly_payment_of loan w = Return mp w) \/
  (exists e, monthly_payment_of loan w = Raise e w).
Proof.
  unfold monthly_payment_of, payment_formula, bind, try, ret, raise.
  destruct (float_of_str (Loan.amount loan)) as [a|] eqn:Ea; [|right; eauto].
  destruct (float_of_str (Loan.interest_rate loan)) as [r|] eqn:Er; [|right; eauto].
  destruct (float_of_int 100) as [h|] eqn:Eh; [|right; eauto].
  destruct (fdiv r h) as [pct|] eqn:Ep; [|right; eauto].
  destruct (float_of_int 1) as [one|] eqn:Eo; [|right; eauto].
  destruct (int_of_str (Loan.duration loan)) as [d|] eqn:Ed; [|right; eauto].
  destruct (float_of_int d) as [months|] eqn:Em; [|right; eauto].
  destruct (fdiv (fmul a (fadd one pct)) months) as [q|] eqn:Eq; [|right; eauto].
  left. exists d, (round2 q). split; [|reflexivity].
  exists a, r, h, pct, one, months, q. repeat split; assumption.
Qed.

Lemma payment_formula_duration loan d mp :
  payment_formula loan d mp -> int_of_str (Loan.duration loan) = Some d.
Proof. intros (a & r & h & pct & one & months & q & H). tauto. Qed.

(** *** The installment loop *)

Lemma plus_days_some o k x : Datetime.plus_days o k = Some x -> x = o + k.
Proof.
  unfold Datetime.plus_days.
  destruct (_ && _ && _); intro H; inversion H; reflexivity.
Qed.

Lemma scheduled_nil loan_id investor_id mp w :
  scheduled loan_id investor_id mp [] w = w.
Proof.
  destruct w as [[us ls rs] lg i o c e]; unfold scheduled; simpl.
  rewrite !app_nil_r. reflexivity.
Qed.

Lemma scheduled_cons loan_id investor_id mp x xs w :
  scheduled loan_id investor_id mp xs (scheduled loan_id investor_id mp [x] w)
  = scheduled loan_id investor_id mp (x :: xs) w.
Proof.
  unfold scheduled; simpl. rewrite <- !app_assoc. reflexivity.
Qed.

Lemma installment_turn_spec loan_id investor_id mp i w :
  installment_turn loan_id investor_id mp i w =
  match Datetime.plus_days (clock w) (30 * (i + 1)) with
  | Some _ => Return tt (scheduled loan_id investor_id mp [i] w)
  | None => Raise OverflowError w
  end.
Proof.
  unfold installment_turn, bind, today, try.
  destruct (Datetime.plus_days (clock w) (30 * (i + 1))) as [due|] eqn:E;
    [|reflexivity].
  apply plus_days_some in E. subst due. reflexivity.
Qed.

(** The loop of lines 102-110 returns exactly when every due date is in
    range, having appended one installment per turn, in order. *)
Lemma schedule_loop_return loan_id investor_id mp xs : forall w w',
  for_each xs (installment_turn loan_id investor_id mp) w = Return tt w' ->
  w' = scheduled loan_id investor_id mp xs w /\
  Forall (fun i => Datetime.plus_days (clock w) (30 * (i + 1)) <> None) xs.
Proof.
  induction xs as [|x xs IH]; intros w w'; cbn [for_each].
  - unfold ret. intro H; inversion H. rewrite scheduled_nil. auto.
  - unfold bind. rewrite installment_turn_spec.
    destruct (Datetime.plus_days (clock w) (30 * (x + 1))) as [due|] eqn:E;
      [|discriminate].
    intro H. apply IH in H as [-> F]. rewrite scheduled_cons. split; auto.
    constructor; [congruence | exact F].
Qed.

Lemma schedule_loop_ok loan_id investor_id mp xs : forall w,
  Forall (fun i => Datetime.plus_days (clock w) (30 * (i + 1)) <> None) xs ->
  for_each xs (installment_turn loan_id investor_id mp) w
  = Return tt (scheduled loan_id investor_id mp xs w).
Proof.
  induction xs as [|x xs IH]; intros w F; cbn [for_each].
  - unfold ret. rewrite scheduled_nil. reflexivity.
  - inversion F as [|? ? Hx Hxs]; subst.
    unfold bind. rewrite installment_turn_spec.
    destruct (Datetime.plus_days (clock w) (30 * (x + 1))) as [due|] eqn:E;
      [|congruence].
    rewrite IH by exact Hxs. rewrite scheduled_cons. reflexivity.
Qed.

(** [funding] with its loop body named. *)
Lemma funding_unfold investor_id loan_id ls loan :
  funding investor_id loan_id ls loan =
  (monthly_payment <- monthly_payment_of loan ;;
   n <- try ValueError (int_of_str (Loan.duration loan)) ;;
   for_each (range n) (installment_turn loan_id investor_id monthly_payment) ;;
   first_keys (map (mark_funded loan_id) ls) ;;
   write_csv loans_file (map (mark_funded loan_id) ls) ;;
   print "💰 Investment successful! Repayments will be tracked monthly.").
Proof. reflexivity. Qed.

(** *** Lines 101-116 as a whole *)

Lemma funding_return investor_id loan_id ls loan w w' :
  funding investor_id loan_id ls loan w = Return tt w' ->
  exists d mp,
    payment_formula loan d mp /\
    Forall (fun i => Datetime.plus_days (clock w) (30 * (i + 1)) <> None) (range d) /\
    w' = funded investor_id loan_id ls mp d w.
Proof.
  rewrite funding_unfold. unfold bind at 1.
  destruct (monthly_payment_of_cases loan w) as [(d & mp & F & ->)|[e ->]];
    [|discriminate].
  unfold bind at 1. rewrite (payment_formula_duration F). cbn [try ret].
  unfold bind at 1.
  destruct (for_each _ _ w) as [[] w1|e w1] eqn:L; [|discriminate].
  apply schedule_loop_return in L as [-> Hd].
  unfold bind at 1. destruct ls as [|l ls]; [discriminate|].
  intro H. inversion H. exists d, mp. repeat split; auto.
  unfold funded, scheduled; cbn. rewrite <- app_assoc. reflexivity.
Qed.

Lemma funding_ok investor_id loan_id ls loan d mp w :
  payment_formula loan d mp ->
  Forall (fun i => Datetime.plus_days (clock w) (30 * (i + 1)) <> None) (range d) ->
  ls <> [] ->
  funding investor_id loan_id ls loan w
  = Return tt (funded investor_id loan_id ls mp d w).
Proof.
  intros F Hd Hls. rewrite funding_unfold. unfold bind at 1.
  destruct (monthly_payment_of_cases loan w) as [(d' & mp' & F' & ->)|[e E]].
  - assert (d' = d) as ->.
    { apply payment_formula_duration in F, F'. congruence. }
    assert (mp' = mp) as ->.
    { destruct F as (a & r & h & p & o & m & q & F),
               F' as (a' & r' & h' & p' & o' & m' & q' & F').
      decompose [and] F; decompose [and] F'; subst.
      repeat match goal with
             | H1 : ?x = Some _, H2 : ?x = Some _ |- _ =>
                 rewrite H1 in H2; inversion H2; subst; clear H2
             end.
      reflexivity. }
    unfold bind at 1. rewrite (payment_formula_duration F). cbn [try ret].
    unfold bind at 1. rewrite schedule_loop_ok by exact Hd.
    destruct ls as [|l ls]; [congruence|].
    unfold funded, scheduled, bind; cbn. rewrite <- app_assoc. reflexivity.
  - exfalso.
    destruct F as (a & r & h & p & o & m & q & Fa & Fr & Fh & Fp & Fo & Fd & Fm & Fq & _).
    revert E. unfold monthly_payment_of, bind, try, ret, raise.
    rewrite Fa, Fr, Fh, Fp, Fo, Fd, Fm, Fq. discriminate.
Qed.

(** *** invest, path by path *)

Lemma invest_no_input w :
  stdin w = [] -> invest w = Raise EOFError (wrote ["Enter your user ID: "] w).
Proof. intro E. unfold invest, bind. rewrite (input_eof _ _ E). reflexivity. Qed.

Lemma invest_bad_investor w investor_id rest :
  stdin w = investor_id :: rest ->
  has_user investor_id "investor" (users (disk w)) = false ->
  invest w =
  Return tt (wrote ["Enter your user ID: "; "❌ Invalid investor ID."]
                   (consumed rest w)).
Proof.
  intros E H. unfold invest, bind. rewrite (input_line _ _ E).
  unfold load_csv. cbn [read disk wrote consumed]. rewrite H.
  cbn [negb]. world_eq.
Qed.

(** The world in which the loan id has just been read. *)
Lemma invest_reads_loan_id w investor_id :
  has_user investor_id "investor" (users (disk w)) = true ->
  forall rest0, stdin w = investor_id :: rest0 ->
  invest w =
  match rest0 with
  | [] =>
      Raise EOFError
            (wrote ("Enter your user ID: " :: view_lines (loans (disk w))
                      ++ ["Enter Loan ID to invest in: "]) (consumed [] w))
  | loan_id :: rest =>
      let w2 := wrote ("Enter your user ID: " :: view_lines (loans (disk w))
                         ++ ["Enter Loan ID to invest in: "]) (consumed rest w) in
      match open_loan loan_id (loans (disk w)) with
      | None => print "❌ Invalid loan ID." w2
      | Some loan => funding investor_id loan_id (loans (disk w)) loan w2
      end
  end.
Proof.
  intros H rest0 E. unfold invest. unfold bind at 1.
  rewrite (input_line _ _ E). unfold bind at 1, load_csv at 1.
  cbn [read disk wrote consumed]. rewrite H. cbn [negb].
  unfold bind at 1. rewrite view_loans_spec. cbn [disk wrote].
  unfold bind at 1.
  destruct rest0 as [|loan_id rest].
  - rewrite input_eof by reflexivity. f_equal. world_eq.
  - erewrite input_line by reflexivity.
    unfold bind at 1, load_csv at 1. cbn [read disk wrote consumed].
    unfold open_loan.
    assert (wrote ["Enter Loan ID to invest in: "]
              (consumed rest
                 (wrote (view_lines (loans (disk w)))
                    (wrote ["Enter your user ID: "]
                           (consumed (loan_id :: rest) w))))
            = wrote ("Enter your user ID: " :: view_lines (loans (disk w))
                       ++ ["Enter Loan ID to invest in: "]) (consumed rest w))
      as -> by world_eq.
    destruct (find _ (loans (disk w))); reflexivity.
Qed.

Lemma invest_bad_loan w investor_id loan_id rest :
  stdin w = investor_id :: loan_id :: rest ->
  has_user investor_id "investor" (users (disk w)) = true ->
  open_loan loan_id (loans (disk w)) = None ->
  invest w =
  Return tt (wrote ("Enter your user ID: " :: view_lines (loans (disk w))
                      ++ ["Enter Loan ID to invest in: "; "❌ Invalid loan ID."])
                   (consumed rest w)).
Proof.
  intros E H O. rewrite (invest_reads_loan_id _ H E). cbv zeta. rewrite O.
  rewrite print_spec, wrote_app. cbn [app]. rewrite <- app_assoc. reflexivity.
Qed.

Lemma invest_open w investor_id loan_id rest loan :
  stdin w = investor_id :: loan_id :: rest ->
  has_user investor_id "investor" (users (disk w)) = true ->
  open_loan loan_id (loans (disk w)) = Some loan ->
  invest w =
  funding investor_id loan_id (loans (disk w)) loan
          (wrote ("Enter your user ID: " :: view_lines (loans (disk w))
                    ++ ["Enter Loan ID to invest in: "]) (consumed rest w)).
Proof.
  intros E H O. rewrite (invest_reads_loan_id _ H E). cbv zeta. rewrite O.
  reflexivity.
Qed.

End Funding.

Section DueDates.

Context {py : Runtime}.

(** *** More frames *)

Lemma process_repayments_same_loans : keeps same_loans process_repayments.
Proof.
  intro w. rewrite process_repayments_spec. cbn [world_of].
  destruct (existsb _ _); reflexivity.
Qed.

Lemma process_repayments_same_users : keeps same_users process_repayments.
Proof.
  intro w. rewrite process_repayments_spec. cbn [world_of].
  destruct (existsb _ _); reflexivity.
Qed.

Lemma process_repayments_no_more_input : keeps no_more_input process_repayments.
Proof.
  intro w. rewrite process_repayments_spec. cbn [world_of].
  unfold no_more_input. destruct (existsb _ _); cbn; lia.
Qed.

Lemma investor_dashboard_same_files : keeps same_files investor_dashboard.
Proof.
  unfold investor_dashboard. frame;
    apply keeps_pure; auto using payments_pure with frames.
Qed.

Lemma investor_dashboard_no_more_input : keeps no_more_input investor_dashboard.
Proof.
  unfold investor_dashboard. frame;
    apply keeps_pure; auto using payments_pure with frames.
Qed.

(** *** Due dates are calendar days *)

Lemma plus_days_valid o k x : Datetime.plus_days o k = Some x -> Datetime.valid x.
Proof.
  unfold Datetime.plus_days, Datetime.valid.
  destruct (Z.leb_spec (Z.abs k) Datetime.MAXDELTA) as [Hk|Hk]; cbn [andb];
    [|discriminate].
  destruct (Z.leb_spec Datetime.MINORDINAL (o + k)) as [Lo|Lo]; cbn [andb];
    [|discriminate].
  destruct (Z.leb_spec (o + k) Datetime.MAXORDINAL) as [Hi|Hi]; [|discriminate].
  intro E; inversion E; subst. lia.
Qed.

Lemma installments_grow_refl w : installments_grow w w.
Proof. exists []. rewrite app_nil_r. auto. Qed.

Lemma installments_grow_trans x y z :
  installments_grow x y -> installments_grow y z -> installments_grow x z.
Proof.
  intros (n1 & E1 & F1) (n2 & E2 & F2). exists (n1 ++ n2).
  rewrite E2, E1, app_assoc. split; [reflexivity|]. apply Forall_app; auto.
Qed.

Lemma installments_grow_same w w' : same_repayments w w' -> installments_grow w w'.
Proof. intro E. exists []. rewrite app_nil_r. auto. Qed.

Lemma installment_turn_grows loan_id investor_id mp i :
  keeps installments_grow (installment_turn loan_id investor_id mp i).
Proof.
  intro w. rewrite installment_turn_spec.
  destruct (Datetime.plus_days (clock w) (30 * (i + 1))) as [x|] eqn:E;
    cbn [world_of]; [|apply installments_grow_refl].
  eexists. split; [reflexivity|]. constructor; [|constructor].
  exists x. split; [exact (plus_days_valid _ _ E)|].
  apply plus_days_some in E. subst x. reflexivity.
Qed.

Lemma funding_grows investor_id loan_id ls loan :
  keeps installments_grow (funding investor_id loan_id ls loan).
Proof.
  pose proof installments_grow_refl as Rf.
  pose proof installments_grow_trans as Tr.
  rewrite funding_unfold.
  apply keeps_bind; [exact Tr| |intro mp].
  { intro w. apply installments_grow_same.
    destruct (monthly_payment_of_same_files loan w) as [D _].
    unfold same_repayments. rewrite D. reflexivity. }
  apply keeps_bind; [exact Tr|apply keeps_try; exact Rf|intro n].
  apply keeps_bind; [exact Tr| |intros _].
  { apply keeps_for_each; auto. intro i. apply installment_turn_grows. }
  apply keeps_bind; [exact Tr|apply keeps_first_keys; exact Rf|intros _].
  apply keeps_bind; [exact Tr| |intros _].
  - intro w. apply installments_grow_same. reflexivity.
  - intro w. apply installments_grow_same. reflexivity.
Qed.

Lemma invest_grows : keeps installments_grow invest.
Proof.
  intro w.
  destruct (stdin w) as [|investor_id rest0] eqn:E.
  { rewrite (invest_no_input _ E). apply installments_grow_same. reflexivity. }
  destruct (has_user investor_id "investor" (users (disk w))) eqn:H.
  2:{ rewrite (invest_bad_investor _ E H). apply installments_grow_same.
      reflexivity. }
  rewrite (invest_reads_loan_id _ H E).
  destruct rest0 as [|loan_id rest];
    [apply installments_grow_same; reflexivity|]. cbv zeta.
  destruct (open_loan loan_id (loans (disk w))) as [loan|] eqn:O;
    [|apply installments_grow_same; reflexivity].
  match goal with
  | |- context [funding ?i ?l ?ls ?ln ?v] =>
      destruct (funding_grows i l ls ln v) as (new & En & Fn)
  end.
  exists new. split; [exact En|exact Fn].
Qed.

Lemma settle_dated today_s rs :
  Forall dated rs -> Forall dated (map (settle today_s) rs).
Proof.
  induction 1 as [|r rs Hr _ IH]; simpl; constructor; [|exact IH].
  unfold settle. destruct (is_due today_s r); [|exact Hr].
  destruct Hr as (day & V & E). exists day. auto.
Qed.

Lemma run_dated o w :
  Forall dated (repayments (disk w)) ->
  Forall dated (repayments (disk (world_of (run o w)))).
Proof.
  intro F. destruct o; cbn [run].
  - rewrite register_user_same_repayments. exact F.
  - rewrite list_loan_same_repayments. exact F.
  - destruct (view_loans_same_files w) as [-> _]. exact F.
  - destruct (invest_grows w) as (new & -> & N). apply Forall_app. auto.
  - rewrite process_repayments_spec. cbn [world_of].
    destruct (existsb _ _); cbn [disk repayments wrote]; [|exact F].
    apply settle_dated, F.
  - destruct (investor_dashboard_same_files w) as [-> _]. exact F.
Qed.

(** Every due date on disk was written by [invest] from a day in range. *)
Lemma reachable_dated d : reachable d -> Forall dated (repayments d).
Proof.
  induction 1 as [|w o _ IH]; [constructor|]. apply run_dated, IH.
Qed.

(** For such a row the test of the repayment loop is a test on days. *)
Lemma is_due_on_days w r day :
  Datetime.valid (clock w) -> Datetime.valid day ->
  Repayment.due_date r = Datetime.strftime day ->
  Str.le (Repayment.due_date r) (Datetime.strftime (clock w)) = (day <=? clock w).
Proof. intros Vc Vd ->. apply strftime_le; assumption. Qed.

End DueDates.

(* ================================================================= *)
(** ** The ledger properties *)

Section Ledger.

Context {py : Runtime}.

(** *** Repayment processing *)

Lemma settle_rows today_s rs :
  Forall2 (fun r r' =>
             if Str.le (Repayment.due_date r) today_s
                && String.eqb (Repayment.paid r) "False"
             then r' = Repayment.set_paid "True" r else r' = r)
          rs (map (settle today_s) rs).
Proof.
  induction rs as [|r rs IH]; simpl; constructor; [|exact IH].
  unfold settle, is_due. destruct (_ && _); reflexivity.
Qed.

Lemma settle_changes today_s rs :
  existsb (is_due today_s) rs = true -> map (settle today_s) rs <> rs.
Proof.
  induction rs as [|r rs IH]; simpl; [discriminate|].
  intros H E. inversion E as [[Hr Hrs]].
  apply orb_true_iff in H as [D|D]; [|exact (IH D Hrs)].
  unfold settle in Hr. rewrite D in Hr.
  unfold is_due in D. apply andb_true_iff in D as [_ P].
  apply String.eqb_eq in P.
  apply (f_equal Repayment.paid) in Hr. simpl in Hr. rewrite P in Hr.
  discriminate.
Qed.

(** C3. [process_repayments] always returns; it sets [paid] to ['True'] on
    exactly the rows whose due date is at most today's and whose flag is
    ['False'], leaves every other row and the two other tables as they
    were; when some row is due it rewrites the repayments file once,
    otherwise it writes nothing and prints that no repayment is due.  The
    code compares the [YYYY-MM-DD] texts: on a data folder the program
    produced, read with a clock in date range, that is the comparison of
    the days themselves. *)
Theorem process_repayments_marks_due_only w :
  let today_s := Datetime.strftime (clock w) in
  let rs := repayments (disk w) in
  (exists w',
     process_repayments w = Return tt w' /\
     Forall2 (fun r r' =>
                if Str.le (Repayment.due_date r) today_s
                   && String.eqb (Repayment.paid r) "False"
                then r' = Repayment.set_paid "True" r else r' = r)
             rs (repayments (disk w')) /\
     users (disk w') = users (disk w) /\
     loans (disk w') = loans (disk w) /\
     if existsb (fun r => Str.le (Repayment.due_date r) today_s
                          && String.eqb (Repayment.paid r) "False") rs
     then repayments (disk w') <> rs /\
          fs_log w' = fs_log w ++ [Rewritten repayments_file]
     else disk w' = disk w /\ fs_log w' = fs_log w /\
          stdout w' = stdout w ++ ["No repayments due today."]) /\
  (reachable (disk w) -> Datetime.valid (clock w) ->
   Forall (fun r => exists day,
                      Datetime.valid day /\
                      Repayment.due_date r = Datetime.strftime day /\
                      Str.le (Repayment.due_date r) today_s = (day <=? clock w))
          rs).
Proof.
  intros today_s rs. split.
  - eexists. split; [apply process_repayments_spec|].
    fold today_s rs.
    change (fun r => Str.le _ today_s && _) with (is_due today_s).
    destruct (existsb (is_due today_s) rs) eqn:E;
      cbn [disk repayments users loans fs_log].
    + repeat split; auto using settle_rows, settle_changes.
    + unfold wrote; cbn [disk stdout fs_log].
      pose proof (settle_rows today_s rs) as F.
      rewrite (settle_not_due _ _ E) in F.
      repeat split; exact F.
  - intros R V. eapply Forall_impl; [|apply (reachable_dated R)].
    intros r (day & Vd & Ed). exists day.
    split; [exact Vd|]. split; [exact Ed|]. apply is_due_on_days; assumption.
Qed.

(** C4. [process_repayments] is idempotent: run twice in a row it leaves the
    table the first run left, the second run changing no row and writing
    nothing; the same holds for a later run at the same date on the table
    of the first.  No run un-marks a row: one whose flag is ['True'] is left
    as it is. *)
Theorem process_repayments_idempotent w :
  let w1 := world_of (process_repayments w) in
  let w2 := world_of (process_repayments w1) in
  disk w2 = disk w1 /\ fs_log w2 = fs_log w1 /\
  Forall2 (fun r r' => Repayment.paid r = "True" -> r' = r)
          (repayments (disk w)) (repayments (disk w1)) /\
  forall v, clock v = clock w -> disk v = disk w1 ->
            disk (world_of (process_repayments v)) = disk v /\
            fs_log (world_of (process_repayments v)) = fs_log v.
Proof.
  intros w1 w2.
  assert (repayments (disk w1)
          = map (settle (Datetime.strftime (clock w))) (repayments (disk w)))
    as R.
  { unfold w1. rewrite process_repayments_spec. cbn [world_of].
    destruct (existsb _ _) eqn:E; cbn [disk repayments wrote].
    - reflexivity.
    - symmetry. apply settle_not_due, E. }
  assert (forall v, clock v = clock w -> disk v = disk w1 ->
                    disk (world_of (process_repayments v)) = disk v /\
                    fs_log (world_of (process_repayments v)) = fs_log v) as Again.
  { intros v C D. rewrite (process_repayments_spec v). cbn [world_of].
    rewrite C, D, R, settled_none_due. cbn [wrote disk fs_log]. auto. }
  assert (clock w1 = clock w) as C1.
  { unfold w1. rewrite process_repayments_spec. cbn [world_of].
    destruct (existsb _ _); reflexivity. }
  destruct (Again w1 C1 eq_refl) as [D2 L2].
  split; [exact D2|]. split; [exact L2|]. split; [|exact Again].
  rewrite R. clear. induction (repayments (disk w)) as [|r rs IH]; simpl;
    constructor; [|exact IH].
  intro P. unfold settle, is_due. rewrite P.
  rewrite andb_false_r. reflexivity.
Qed.

End Ledger.

Section Guards.

Context {py : Runtime}.

(** *** Funding a loan that is not open *)

Lemma open_loan_none loan_id ls :
  (forall l, In l ls -> Loan.loan_id l = loan_id -> Loan.status l <> "open") ->
  open_loan loan_id ls = None.
Proof.
  intro H. unfold open_loan.
  destruct (find _ ls) as [l|] eqn:F; [|reflexivity].
  apply find_some in F as [I T]. apply andb_true_iff in T as [T1 T2].
  apply String.eqb_eq in T1, T2. exfalso. exact (H l I T1 T2).
Qed.

(** C5. When the id typed at the loan prompt is not the id of any loan
    with status ['open'] (an unknown id, or that of a loan already
    funded), [invest] prints ["❌ Invalid loan ID."] and returns, with the
    three tables unchanged: nothing was appended or rewritten.  (The loan
    prompt is reached once the investor id is that of a registered
    investor; otherwise the call has already ended on ["❌ Invalid investor
    ID."], the tables unchanged as well.) *)
Theorem invest_loan_not_open w investor_id loan_id rest :
  stdin w = investor_id :: loan_id :: rest ->
  (forall l, In l (loans (disk w)) ->
             Loan.loan_id l = loan_id -> Loan.status l <> "open") ->
  exists w',
    invest w = Return tt w' /\
    disk w' = disk w /\ fs_log w' = fs_log w /\ entropy w' = entropy w /\
    if has_user investor_id "investor" (users (disk w)) then
      stdin w' = rest /\
      stdout w' = stdout w
                    ++ "Enter your user ID: " :: view_lines (loans (disk w))
                    ++ ["Enter Loan ID to invest in: "; "❌ Invalid loan ID."]
    else
      stdin w' = loan_id :: rest /\
      stdout w' = stdout w ++ ["Enter your user ID: "; "❌ Invalid investor ID."].
Proof.
  intros E N.
  assert (open_loan loan_id (loans (disk w)) = None) as O
    by (apply open_loan_none; exact N).
  destruct (has_user investor_id "investor" (users (disk w))) eqn:H.
  - eexists. split; [apply (invest_bad_loan _ E H O)|]. cbn. auto.
  - eexists. split; [apply (invest_bad_investor _ E H)|]. cbn. auto.
Qed.

(** *** The investor dashboard *)

Lemma payments_ok rows w :
  Forall (fun r => float_of_str (Repayment.monthly_payment r) <> None) rows ->
  exists xs,
    map (fun r => float_of_str (Repayment.monthly_payment r)) rows = map Some xs /\
    payments rows w = Return xs w.
Proof.
  induction 1 as [|r rows Hr _ IH]; simpl.
  - exists []. auto.
  - destruct IH as (xs & M & P).
    destruct (float_of_str (Repayment.monthly_payment r)) as [x|] eqn:E;
      [|congruence].
    exists (x :: xs). unfold bind; simpl. rewrite P, M. auto.
Qed.

(** C9. When the payments of the investor's installments are numbers,
    [investor_dashboard] returns having printed three amounts: the sum of
    [monthly_payment] over the installments of that investor, the same
    sum over those with [paid] equal to ['True'], and as outstanding
    amount the first minus the second.  It writes nothing. *)
Theorem investor_dashboard_outstanding w investor_id rest :
  stdin w = investor_id :: rest ->
  Forall (fun r => Repayment.investor_id r = investor_id ->
                   float_of_str (Repayment.monthly_payment r) <> None)
         (repayments (disk w)) ->
  exists xs ys w',
    let mine := filter (fun r => String.eqb (Repayment.investor_id r) investor_id)
                       (repayments (disk w)) in
    let paid := filter (fun r => String.eqb (Repayment.paid r) "True") mine in
    let expected_total := fsum xs in
    let paid_total := fsum ys in
    let outstanding := fsub expected_total paid_total in
    map (fun r => float_of_str (Repayment.monthly_payment r)) mine = map Some xs /\
    map (fun r => float_of_str (Repayment.monthly_payment r)) paid = map Some ys /\
    investor_dashboard w = Return tt w' /\
    disk w' = disk w /\ fs_log w' = fs_log w /\
    stdout w' = stdout w
                  ++ ["Enter your user ID: ";
                      Str.concat [nl; "📈 Total Expected: R"; format_2f expected_total;
                                  nl; "✅ Total Paid: R"; format_2f paid_total;
                                  nl; "❌ Outstanding: R"; format_2f outstanding]].
Proof.
  intros E F.
  set (mine := filter (fun r => String.eqb (Repayment.investor_id r) investor_id)
                      (repayments (disk w))).
  assert (Forall (fun r => float_of_str (Repayment.monthly_payment r) <> None) mine)
    as Fm.
  { apply Forall_forall. intros r I. apply filter_In in I as [I T].
    apply String.eqb_eq in T. rewrite Forall_forall in F. auto. }
  assert (filter (fun r => of_investor investor_id r && is_paid r)
                 (repayments (disk w))
          = filter (fun r => String.eqb (Repayment.paid r) "True") mine) as Fp.
  { unfold mine. clear. induction (repayments (disk w)) as [|r rs IH]; simpl;
      [reflexivity|].
    unfold of_investor at 1, is_paid at 1.
    destruct (String.eqb (Repayment.investor_id r) investor_id); simpl;
      rewrite IH; reflexivity. }
  assert (Forall (fun r => float_of_str (Repayment.monthly_payment r) <> None)
                 (filter (fun r => String.eqb (Repayment.paid r) "True") mine))
    as Fy.
  { apply Forall_forall. intros r I. apply filter_In in I as [I _].
    rewrite Forall_forall in Fm. auto. }
  set (w1 := wrote ["Enter your user ID: "] (consumed rest w)).
  destruct (payments_ok w1 Fm) as (xs & Mx & Px).
  destruct (payments_ok w1 Fy) as (ys & My & Py).
  exists xs, ys. eexists. cbv zeta. fold mine.
  split; [exact Mx|]. split; [exact My|]. split.
  - unfold investor_dashboard. unfold bind at 1. rewrite (input_line _ _ E).
    unfold bind at 1, load_csv at 1. cbn [read disk wrote consumed].
    fold w1. unfold bind at 1, sum_payments at 1, bind at 1.
    change (filter (of_investor investor_id) (repayments (disk w))) with mine.
    rewrite Px. cbn [ret]. unfold bind at 1, sum_payments at 1, bind at 1.
    rewrite Fp, Py. cbn [ret]. rewrite print_spec. reflexivity.
  - unfold w1, wrote, consumed. cbn. rewrite <- app_assoc. auto.
Qed.

End Guards.

Lemma invest_loan_not_open_witness :
  let w := boot Scenario.ledger Scenario.day0 ["3c6ef362"; "daa66d13"; "7"] in
  (forall l, In l (loans (disk w)) ->
             Loan.loan_id l = "daa66d13" -> Loan.status l <> "open") /\
  exists w', invest w = Return tt w' /\ disk w' = disk w /\ fs_log w' = fs_log w /\
             last (stdout w') "" = "❌ Invalid loan ID.".
Proof.
  intro w.
  assert (forall l, In l (loans (disk w)) ->
                    Loan.loan_id l = "daa66d13" -> Loan.status l <> "open") as N.
  { intros l [<-|[]] _. discriminate. }
  split; [exact N|].
  destruct (invest_loan_not_open w (rest := ["7"]) eq_refl N)
    as (w' & R & D & L & _ & _ & O).
  exists w'. repeat split; try assumption. rewrite O. reflexivity.
Defined.

Lemma investor_dashboard_outstanding_witness :
  let w := boot Scenario.settled Scenario.day0 ["3c6ef362"] in
  Forall (fun r => Repayment.investor_id r = "3c6ef362" ->
                   float_of_str (Repayment.monthly_payment r) <> None)
         (repayments (disk w)) /\
  exists w', investor_dashboard w = Return tt w' /\ disk w' = disk w.
Proof.
  intro w.
  assert (Forall (fun r => Repayment.investor_id r = "3c6ef362" ->
                           float_of_str (Repayment.monthly_payment r) <> None)
                 (repayments (disk w))) as F.
  { repeat constructor; intros _; vm_compute; discriminate. }
  split; [exact F|].
  destruct (investor_dashboard_outstanding w (rest := []) eq_refl F)
    as (xs & ys & w' & _ & _ & R & D & _).
  exists w'. split; assumption.
Defined.

Section FundingProperties.

Context {py : Runtime}.

(** *** A successful funding *)

Lemma range_length d : List.length (range d) = Z.to_nat d.
Proof. unfold range. rewrite length_map, length_seq. reflexivity. Qed.

Lemma range_spec d i : In i (range d) <-> 0 <= i < d.
Proof.
  unfold range. rewrite in_map_iff. split.
  - intros (n & <- & I). apply in_seq in I. lia.
  - intro H. exists (Z.to_nat i). split; [lia|]. apply in_seq. lia.
Qed.

(** Everything a returning [invest] did, once the loan was found. *)
Lemma invest_funded w w' investor_id loan_id rest loan :
  stdin w = investor_id :: loan_id :: rest ->
  has_user investor_id "investor" (users (disk w)) = true ->
  open_loan loan_id (loans (disk w)) = Some loan ->
  invest w = Return tt w' ->
  exists d mp,
    payment_formula loan d mp /\
    Forall (fun i => Datetime.plus_days (clock w) (30 * (i + 1)) <> None) (range d) /\
    w' = funded investor_id loan_id (loans (disk w)) mp d
                (wrote ("Enter your user ID: " :: view_lines (loans (disk w))
                          ++ ["Enter Loan ID to invest in: "]) (consumed rest w)).
Proof.
  intros E H O R. rewrite (invest_open _ E H O) in R.
  apply funding_return in R as (d & mp & F & D & ->).
  exists d, mp. auto.
Qed.

(** Conversely, [invest] goes through whenever the fields of the loan are
    numbers, the duration is not zero and the last due date exists. *)
Lemma invest_funds w investor_id loan_id rest loan d mp :
  stdin w = investor_id :: loan_id :: rest ->
  has_user investor_id "investor" (users (disk w)) = true ->
  open_loan loan_id (loans (disk w)) = Some loan ->
  payment_formula loan d mp ->
  Forall (fun i => Datetime.plus_days (clock w) (30 * (i + 1)) <> None) (range d) ->
  invest w =
  Return tt (funded investor_id loan_id (loans (disk w)) mp d
                    (wrote ("Enter your user ID: " :: view_lines (loans (disk w))
                              ++ ["Enter Loan ID to invest in: "]) (consumed rest w))).
Proof.
  intros E H O F D. rewrite (invest_open _ E H O).
  apply funding_ok; [exact F|exact D|].
  unfold open_loan in O. apply find_some in O as [I _].
  intro N. rewrite N in I. exact I.
Qed.

Lemma open_loan_some loan_id ls loan :
  open_loan loan_id ls = Some loan ->
  In loan ls /\ Loan.loan_id loan = loan_id /\ Loan.status loan = "open".
Proof.
  unfold open_loan. intro F. apply find_some in F as [I T].
  apply andb_true_iff in T as [T1 T2]. apply String.eqb_eq in T1, T2. auto.
Qed.

(** C1, as amended.  When [invest] funds a loan, the installment rows it
    appends all carry the same [monthly_payment], the text of
    [round(amount * (1 + interest_rate / 100) / duration, 2)] computed from the
    stored fields of the loan; their number is the loan's duration when
    that is positive, and zero when it is negative. *)
Theorem invest_installments_share_payment w w' investor_id loan_id rest loan :
  stdin w = investor_id :: loan_id :: rest ->
  has_user investor_id "investor" (users (disk w)) = true ->
  open_loan loan_id (loans (disk w)) = Some loan ->
  invest w = Return tt w' ->
  exists amount rate duration hundred pct one months q new,
    float_of_str (Loan.amount loan) = Some amount /\
    float_of_str (Loan.interest_rate loan) = Some rate /\
    int_of_str (Loan.duration loan) = Some duration /\
    float_of_int 100 = Some hundred /\ fdiv rate hundred = Some pct /\
    float_of_int 1 = Some one /\ float_of_int duration = Some months /\
    fdiv (fmul amount (fadd one pct)) months = Some q /\
    repayments (disk w') = repayments (disk w) ++ new /\
    Z.of_nat (List.length new) = Z.max 0 duration /\
    Forall (fun r => Repayment.monthly_payment r = str_of_float (round2 q)) new.
Proof.
  intros E H O R.
  destruct (invest_funded _ E H O R) as (d & mp & F & _ & ->).
  destruct F as (a & r & h & pct & one & months & q
                 & Fa & Fr & Fh & Fp & Fo & Fd & Fm & Fq & ->).
  exists a, r, d, h, pct, one, months, q.
  eexists. repeat (split; [eassumption|]).
  cbn [funded disk repayments wrote consumed]. split; [reflexivity|]. split.
  - rewrite length_map, range_length. lia.
  - apply Forall_forall. intros x I. apply in_map_iff in I as (i & <- & _).
    reflexivity.
Qed.

(** C2, as amended.  A returning [invest] of a registered investor on an
    open loan appends to the repayments table, in order, one installment
    for each [i] in [0 .. duration-1] (none when the duration is
    negative), due 30*(i+1) days after the current date and with [paid]
    ['False']; it then marks the loan funded and rewrites the whole loan
    table.  The write log shows the appends followed by the rewrite. *)
Theorem invest_schedules_installments w w' investor_id loan_id rest loan :
  stdin w = investor_id :: loan_id :: rest ->
  has_user investor_id "investor" (users (disk w)) = true ->
  open_loan loan_id (loans (disk w)) = Some loan ->
  invest w = Return tt w' ->
  exists duration mp,
    int_of_str (Loan.duration loan) = Some duration /\
    repayments (disk w') =
      repayments (disk w)
        ++ map (fun i => Repayment.mk loan_id investor_id (str_of_float mp)
                           (Datetime.strftime (clock w + 30 * (i + 1))) "False")
               (range duration) /\
    (forall i, In i (range duration) <-> 0 <= i < duration) /\
    NoDup (range duration) /\
    loans (disk w') = map (mark_funded loan_id) (loans (disk w)) /\
    In (Loan.set_status "funded" loan) (loans (disk w')) /\
    fs_log w' = fs_log w
                  ++ repeat (Appended repayments_file) (Z.to_nat duration)
                  ++ [Rewritten loans_file].
Proof.
  intros E H O R.
  destruct (invest_funded _ E H O R) as (d & mp & F & _ & ->).
  exists d, mp. split; [exact (payment_formula_duration F)|].
  cbn [funded disk repayments loans fs_log wrote consumed clock].
  split; [reflexivity|]. split; [apply range_spec|]. split.
  { unfold range. apply Injective_map_NoDup; [|apply seq_NoDup].
    intros x y. lia. }
  split; [reflexivity|]. split.
  - apply open_loan_some in O as (I & Id & _).
    apply in_map_iff. exists loan. split; [|exact I].
    unfold mark_funded. rewrite Id, String.eqb_refl. reflexivity.
  - rewrite range_length. reflexivity.
Qed.





End FundingProperties.

(** The scenario of the specification: Bob funds Alice's loan of 1000 at
    10% over 2 months on 2026-11-03; two installments of 550.0 follow, due
    30 and 60 days later, and the loan is funded. *)
Example invest_scenario :
  let w := boot Scenario.market Scenario.day0 ["3c6ef362"; "daa66d13"] in
  exists w', invest w = Return tt w' /\ disk w' = Scenario.ledger /\
             fs_log w' = [Appended repayments_file; Appended repayments_file;
                          Rewritten loans_file].
Proof. eexists. split; [vm_compute; reflexivity|]. split; reflexivity. Qed.

(** Sixty-one days later both installments are processed and the dashboard
    of Bob shows nothing outstanding. *)
Example repayment_scenario :
  let w := boot Scenario.ledger (Scenario.day0 + 61) ["3c6ef362"] in
  exists w1 w2,
    process_repayments w = Return tt w1 /\ disk w1 = Scenario.settled /\
    investor_dashboard w1 = Return tt w2 /\
    last (stdout w2) "" =
    Str.concat [nl; "📈 Total Expected: R1100.00"; nl; "✅ Total Paid: R1100.00";
                nl; "❌ Outstanding: R0.00"].
Proof.
  eexists. eexists. split; [vm_compute; reflexivity|].
  split; [reflexivity|]. split; [vm_compute; reflexivity|]. reflexivity.
Qed.

(** C1, as stated, fails.  Starting from the empty data folder, Alice lists
    a loan with duration -2 and Bob funds it: the session ends normally,
    the loan is funded, and no installment row exists: the number of rows
    is not the duration. *)
Lemma negative_duration_funded_without_installments :
  exists w',
    menu 20 (boot empty_disk Scenario.day0 (Scenario.script "-2"))
    = Some (Return tt w') /\
    loans (disk w') = [Loan.set_status "funded" Scenario.backwards] /\
    int_of_str (Loan.duration Scenario.backwards) = Some (-2) /\
    repayments (disk w') = [] /\
    Z.of_nat (List.length (repayments (disk w'))) <> -2.
Proof.
  eexists. split; [vm_compute; reflexivity|].
  split; [reflexivity|]. split; [vm_compute; reflexivity|].
  split; [reflexivity|]. discriminate.
Qed.

Lemma invest_installments_share_payment_witness :
  let w := boot Scenario.market Scenario.day0 ["3c6ef362"; "daa66d13"; "7"] in
  let w' := world_of (invest w) in
  has_user "3c6ef362" "investor" (users (disk w)) = true /\
  open_loan "daa66d13" (loans (disk w)) = Some Scenario.listed /\
  invest w = Return tt w' /\
  exists q new,
    repayments (disk w') = repayments (disk w) ++ new /\
    Forall (fun r => Repayment.monthly_payment r = str_of_float (round2 q)) new.
Proof.
  intros w w'.
  assert (has_user "3c6ef362" "investor" (users (disk w)) = true) as H
    by (vm_compute; reflexivity).
  assert (open_loan "daa66d13" (loans (disk w)) = Some Scenario.listed) as O
    by (vm_compute; reflexivity).
  assert (invest w = Return tt w') as R by (vm_compute; reflexivity).
  split; [exact H|]. split; [exact O|]. split; [exact R|].
  destruct (invest_installments_share_payment w (rest := ["7"]) eq_refl H O R)
    as (a & r & d & h & pct & one & months & q & new & C).
  exists q, new. decompose [and] C. split; assumption.
Defined.

(** C2, as stated, fails.  Bob is a registered investor and the loan is
    open, its duration is -2; [invest] returns with the success line, marks
    the loan funded and rewrites the loan table, and creates no installment
    at all: not "exactly duration installments". *)
Lemma invest_negative_duration_appends_nothing :
  let w := boot Scenario.odd_market Scenario.day0 ["3c6ef362"; "daa66d13"] in
  has_user "3c6ef362" "investor" (users (disk w)) = true /\
  open_loan "daa66d13" (loans (disk w)) = Some Scenario.backwards /\
  int_of_str (Loan.duration Scenario.backwards) = Some (-2) /\
  invest w =
  Return tt
    (mkWorld (mkDisk [Scenario.alice; Scenario.bob]
                     [Loan.set_status "funded" Scenario.backwards] [])
             [Rewritten loans_file] []
             ["Enter your user ID: "; Str.concat [nl; "📊 Open Loans:"];
              "ID: daa66d13, Amount: R1000.0, Rate: 10.0%, Duration: -2 months";
              "Enter Loan ID to invest in: ";
              "💰 Investment successful! Repayments will be tracked monthly."]
             Scenario.day0 0).
Proof. repeat split; vm_compute; reflexivity. Qed.

Lemma invest_schedules_installments_witness :
  let w := boot Scenario.market Scenario.day0 ["3c6ef362"; "daa66d13"; "7"] in
  let w' := world_of (invest w) in
  has_user "3c6ef362" "investor" (users (disk w)) = true /\
  open_loan "daa66d13" (loans (disk w)) = Some Scenario.listed /\
  invest w = Return tt w' /\
  exists duration,
    int_of_str (Loan.duration Scenario.listed) = Some duration /\
    fs_log w' = fs_log w ++ repeat (Appended repayments_file) (Z.to_nat duration)
                         ++ [Rewritten loans_file].
Proof.
  intros w w'.
  assert (has_user "3c6ef362" "investor" (users (disk w)) = true) as H
    by (vm_compute; reflexivity).
  assert (open_loan "daa66d13" (loans (disk w)) = Some Scenario.listed) as O
    by (vm_compute; reflexivity).
  assert (invest w = Return tt w') as R by (vm_compute; reflexivity).
  split; [exact H|]. split; [exact O|]. split; [exact R|].
  destruct (invest_schedules_installments w (rest := ["7"]) eq_refl H O R)
    as (d & mp & C).
  exists d. decompose [and] C. split; assumption.
Defined.


Section StatusMachine.

Context {py : Runtime}.

(** The loan table under [list_loan]: it grows by open rows only. *)
Lemma loans_grow_refl w : loans_grow w w.
Proof. exists []. rewrite app_nil_r. auto. Qed.

Lemma loans_grow_trans x y z : loans_grow x y -> loans_grow y z -> loans_grow x z.
Proof.
  intros (n1 & E1 & F1) (n2 & E2 & F2). exists (n1 ++ n2).
  rewrite E2, E1, app_assoc. split; [reflexivity|]. apply Forall_app; auto.
Qed.

Lemma loans_grow_same w w' : same_loans w w' -> loans_grow w w'.
Proof. intro E. exists []. rewrite app_nil_r. auto. Qed.

Lemma list_loan_loans_grow : keeps loans_grow list_loan.
Proof.
  assert (forall w lines, loans_grow w (wrote lines w)) as W
    by (intros; apply loans_grow_same; reflexivity).
  assert (forall w l rest, stdin w = l :: rest -> loans_grow w (consumed rest w)) as C
    by (intros; apply loans_grow_same; reflexivity).
  assert (forall w n,
            loans_grow w (mkWorld (disk w) (fs_log w) (stdin w) (stdout w)
                                  (clock w) n)) as G
    by (intros; apply loans_grow_same; reflexivity).
  pose proof loans_grow_refl as Rf. pose proof loans_grow_trans as Tr.
  unfold list_loan. frame.
  intro w. cbn. eexists. split; [reflexivity|]. repeat constructor.
Qed.

(** A funding that raises has not touched the loan table. *)
Lemma funding_raise_same_loans investor_id loan_id ls loan w e w' :
  funding investor_id loan_id ls loan w = Raise e w' ->
  loans (disk w') = loans (disk w).
Proof.
  rewrite funding_unfold. unfold bind at 1.
  destruct (monthly_payment_of_cases loan w) as [(d & mp & F & ->)|[e' ->]];
    [|intro H; inversion H; reflexivity].
  unfold bind at 1. rewrite (payment_formula_duration F). cbn [try ret].
  unfold bind at 1.
  destruct (for_each (range d) (installment_turn loan_id investor_id mp) w)
    as [[] w1|e1 w1] eqn:L.
  - apply schedule_loop_return in L as [-> _].
    unfold bind. destruct ls; cbn; intro H; inversion H. reflexivity.
  - intro H; inversion H; subst.
    assert (keeps same_loans
              (for_each (range d) (installment_turn loan_id investor_id mp))) as K
      by (unfold installment_turn; frame).
    specialize (K w). rewrite L in K. exact K.
Qed.

(** Where the loan table stands after [invest], however it ends. *)
Lemma invest_loans w :
  loans (disk (world_of (invest w))) = loans (disk w) \/
  exists loan_id loan w',
    open_loan loan_id (loans (disk w)) = Some loan /\
    invest w = Return tt w' /\
    loans (disk w') = map (mark_funded loan_id) (loans (disk w)).
Proof.
  destruct (stdin w) as [|investor_id rest0] eqn:E.
  { left. rewrite (invest_no_input _ E). reflexivity. }
  destruct (has_user investor_id "investor" (users (disk w))) eqn:H.
  2:{ left. rewrite (invest_bad_investor _ E H). reflexivity. }
  rewrite (invest_reads_loan_id _ H E).
  destruct rest0 as [|loan_id rest]; [left; reflexivity|]. cbv zeta.
  destruct (open_loan loan_id (loans (disk w))) as [loan|] eqn:O;
    [|left; reflexivity].
  match goal with
  | |- context [funding ?i ?l ?ls ?ln ?v] =>
      destruct (funding i l ls ln v) as [[] w'|e w'] eqn:Fd
  end.
  - right. exists loan_id, loan, w'.
    apply funding_return in Fd as (d & mp & _ & _ & ->). auto.
  - left. apply funding_raise_same_loans in Fd. exact Fd.
Qed.

(** *** The status of a loan *)

Lemma set_status_same l s : Loan.status l = s -> Loan.set_status s l = l.
Proof. destruct l; simpl; intros ->; reflexivity. Qed.


Lemma loans_evolve_marked loan_id ls :
  Forall status_ok ls -> Forall2 loan_step ls (map (mark_funded loan_id) ls).
Proof.
  induction 1 as [|l ls Hl _ IH]; simpl; constructor; [|exact IH].
  unfold mark_funded. destruct (String.eqb _ _); [|left; reflexivity].
  destruct Hl as [O|F].
  - right. auto.
  - left. apply set_status_same, F.
Qed.

Lemma loans_evolve_ok ls ls' :
  loans_evolve ls ls' -> Forall status_ok ls -> Forall status_ok ls'.
Proof.
  intros (old & new & -> & S & N) F. apply Forall_app. split.
  - clear N. induction S as [|l l' ls old Hl _ IH]; [constructor|].
    inversion F; subst. constructor; auto.
    destruct Hl as [->|[_ ->]]; [assumption|]. right; reflexivity.
  - eapply Forall_impl; [|exact N]. intros l O. left; exact O.
Qed.

(** One operation on a table whose statuses are in order. *)
Lemma run_loans_evolve o w :
  Forall status_ok (loans (disk w)) ->
  exists old new,
    loans (disk (world_of (run o w))) = old ++ new /\
    Forall2 loan_step (loans (disk w)) old /\
    Forall (fun l => Loan.status l = "open") new /\
    (old <> loans (disk w) -> o = Invest /\ exists w', run o w = Return tt w') /\
    (new <> [] -> o = ListLoan).
Proof.
  intro F.
  assert (forall v, loans (disk v) = loans (disk w) -> o <> ListLoan ->
            exists old new,
              loans (disk v) = old ++ new /\
              Forall2 loan_step (loans (disk w)) old /\
              Forall (fun l => Loan.status l = "open") new /\
              (old <> loans (disk w) ->
               o = Invest /\ exists w', run o w = Return tt w') /\
              (new <> [] -> o = ListLoan)) as Same.
  { intros v E _. exists (loans (disk w)), []. rewrite app_nil_r.
    repeat split; auto; try congruence.
    clear. induction (loans (disk w)); constructor; auto. left; reflexivity. }
  destruct o; cbn [run].
  - apply Same; [apply register_user_same_loans|discriminate].
  - destruct (list_loan_loans_grow w) as (new & E & N).
    exists (loans (disk w)), new. repeat split; auto; try congruence.
    clear. induction (loans (disk w)); constructor; auto. left; reflexivity.
  - apply Same; [|discriminate].
    destruct (view_loans_same_files w) as [-> _]. reflexivity.
  - destruct (invest_loans w) as [E|(loan_id & loan & w' & _ & R & E)].
    + apply Same; [exact E|discriminate].
    + exists (map (mark_funded loan_id) (loans (disk w))), [].
      rewrite app_nil_r, R. cbn [world_of]. repeat split; eauto; try congruence.
      apply loans_evolve_marked, F.
  - apply Same; [apply process_repayments_same_loans|discriminate].
  - apply Same; [|discriminate].
    destruct (investor_dashboard_same_files w) as [-> _]. reflexivity.
Qed.

Lemma reachable_status_ok d : reachable d -> Forall status_ok (loans d).
Proof.
  induction 1 as [|w o _ IH]; [constructor|].
  destruct (@run_loans_evolve o w IH) as (old & new & E & S & N & _).
  apply (@loans_evolve_ok (loans (disk w))); [|exact IH].
  exists old, new. auto.
Qed.

(** C7. In every data folder the program can produce, each loan has
    status ['open'] or ['funded'].  From such a folder, any operation,
    on any input and however it ends, leaves every loan row in place,
    either untouched or moved from ['open'] to ['funded'] with its other
    fields unchanged, and adds at most new rows, all ['open'].  A status
    moves only in an [invest] that returns, a row is added only by
    [list_loan]; no row goes back to ['open'] or to any third status. *)
Theorem loan_status_machine d :
  reachable d ->
  Forall (fun l => Loan.status l = "open" \/ Loan.status l = "funded") (loans d) /\
  forall o w, disk w = d ->
    exists old new,
      loans (disk (world_of (run o w))) = old ++ new /\
      Forall2 (fun l l' =>
                 l' = l \/
                 (Loan.status l = "open" /\ l' = Loan.set_status "funded" l))
              (loans d) old /\
      Forall (fun l => Loan.status l = "open") new /\
      (old <> loans d -> o = Invest /\ exists w', run o w = Return tt w') /\
      (new <> [] -> o = ListLoan).
Proof.
  intro R. pose proof (reachable_status_ok R) as F. split; [exact F|].
  intros o w <-. apply run_loans_evolve. exact F.
Qed.

End StatusMachine.

Section Registration.

Context {py : Runtime}.

(** *** Registration *)

(** Whatever is typed, [register_user] keeps the old user rows and adds
    at most one row, with one of the two roles. *)
Lemma register_user_users_grow v :
  exists new,
    users (disk (world_of (register_user v))) = users (disk v) ++ new /\
    Forall (fun u => In (User.role u) ["borrower"; "investor"]) new.
Proof.
  destruct (stdin v) as [|n [|t r]] eqn:Ev.
  - exists []. rewrite app_nil_r. split; [|constructor].
    unfold register_user, bind. rewrite (input_eof _ _ Ev). reflexivity.
  - exists []. rewrite app_nil_r. split; [|constructor].
    unfold register_user, bind. rewrite (input_line _ _ Ev).
    rewrite input_eof by reflexivity. reflexivity.
  - destruct (Str.mem (Str.lower t) ["borrower"; "investor"]) eqn:M.
    + rewrite (register_user_accepts _ Ev M). cbn.
      eexists. split; [reflexivity|]. constructor; [|constructor].
      apply mem_roles in M. simpl. intuition.
    + rewrite (register_user_rejects _ Ev M). cbn.
      exists []. rewrite app_nil_r. split; [reflexivity|constructor].
Qed.

Lemma run_same_users o w :
  o <> RegisterUser -> users (disk (world_of (run o w))) = users (disk w).
Proof.
  destruct o; cbn [run]; intro N; try congruence.
  - apply list_loan_same_users.
  - destruct (view_loans_same_files w) as [-> _]. reflexivity.
  - apply invest_same_users.
  - apply process_repayments_same_users.
  - destruct (investor_dashboard_same_files w) as [-> _]. reflexivity.
Qed.

Lemma reachable_roles d :
  reachable d ->
  Forall (fun u => In (User.role u) ["borrower"; "investor"]) (users d).
Proof.
  induction 1 as [|w o _ IH]; [constructor|].
  destruct o; try (rewrite run_same_users by discriminate; exact IH).
  cbn [run]. destruct (register_user_users_grow w) as (new & -> & F).
  apply Forall_app. auto.
Qed.

(** C8, as amended.  When the typed role, lowercased, is neither
    ['borrower'] nor ['investor'], [register_user] prints ["Invalid
    role."] and returns without any write: tables, write log and id
    counter are as before.  So in every data folder the program can
    produce, every stored user's role is one of the two words. *)
Theorem register_user_invalid_role w name typed rest :
  stdin w = name :: typed :: rest ->
  ~ In (Str.lower typed) ["borrower"; "investor"] ->
  (exists w',
     register_user w = Return tt w' /\
     disk w' = disk w /\ fs_log w' = fs_log w /\ entropy w' = entropy w /\
     stdout w' = stdout w ++ ["Enter your name: "; "Role (borrower/investor): ";
                              "Invalid role."]) /\
  (forall d, reachable d ->
     Forall (fun u => User.role u = "borrower" \/ User.role u = "investor")
            (users d)).
Proof.
  intros E H. split.
  - assert (Str.mem (Str.lower typed) ["borrower"; "investor"] = false) as M.
    { destruct (Str.mem _ _) eqn:M; [|reflexivity].
      exfalso. apply H. apply mem_roles in M. simpl. intuition. }
    eexists. split; [apply (register_user_rejects _ E M)|].
    unfold wrote, consumed; cbn. repeat rewrite <- app_assoc. auto.
  - intros d R. eapply Forall_impl; [|apply (reachable_roles R)].
    simpl. intuition.
Qed.

End Registration.

(** C8, as stated, fails: the role typed as ["Borrower"] is neither of the
    two role words, yet the call appends a user row to the table. *)
Lemma register_user_mixed_case_role_is_stored :
  let w := boot empty_disk Scenario.day0 ["Alice"; "Borrower"] in
  ~ In "Borrower" ["borrower"; "investor"] /\
  users (disk w) = [] /\
  register_user w =
  Return tt
    (mkWorld (mkDisk [Scenario.alice] [] []) [Appended users_file] []
             ["Enter your name: "; "Role (borrower/investor): ";
              "✅ User 'Alice' registered with ID: 9e3779b1"]
             Scenario.day0 1).
Proof.
  split; [|split; vm_compute; reflexivity].
  simpl. intros [H|[H|[]]]; discriminate H.
Qed.

Lemma register_user_invalid_role_witness :
  let w := boot empty_disk Scenario.day0 ["Alice"; "lender"; "7"] in
  stdin w = ["Alice"; "lender"; "7"] /\
  ~ In (Str.lower "lender") ["borrower"; "investor"] /\
  exists w', register_user w = Return tt w' /\ disk w' = disk w.
Proof.
  intro w.
  assert (stdin w = ["Alice"; "lender"; "7"]) as E by reflexivity.
  assert (~ In (Str.lower "lender") ["borrower"; "investor"]) as H.
  { simpl. intros [H|[H|[]]]; discriminate H. }
  split; [exact E|]. split; [exact H|].
  destruct (proj1 (register_user_invalid_role w E H)) as (w' & R & D & _).
  exists w'. split; assumption.
Defined.

(** The data folder of the scenario is one the program produces. *)
Lemma ledger_reachable : reachable Scenario.ledger.
Proof.
  set (w0 := boot empty_disk Scenario.day0 ["Alice"; "borrower"]).
  set (w1 := mkWorld (disk (world_of (run RegisterUser w0))) [] ["Bob"; "investor"]
                     [] Scenario.day0 1).
  set (w2 := mkWorld (disk (world_of (run RegisterUser w1))) []
                     ["9e3779b1"; "1000"; "10"; "2"] [] Scenario.day0 2).
  set (w3 := mkWorld (disk (world_of (run ListLoan w2))) []
                     ["3c6ef362"; "daa66d13"] [] Scenario.day0 3).
  replace Scenario.ledger with (disk (world_of (run Invest w3)))
    by (vm_compute; reflexivity).
  apply reach_run. apply (reach_run w2 ListLoan).
  apply (reach_run w1 RegisterUser). apply (reach_run w0 RegisterUser).
  apply reach_boot.
Qed.

Lemma loan_status_machine_witness :
  reachable Scenario.ledger /\
  Forall (fun l => Loan.status l = "open" \/ Loan.status l = "funded")
         (loans Scenario.ledger).
Proof.
  exact (conj ledger_reachable (proj1 (loan_status_machine ledger_reachable))).
Defined.

Section Shell.

Context {py : Runtime}.

(** *** list_loan, path by path *)

Lemma list_loan_bad_borrower w borrower_id rest :
  stdin w = borrower_id :: rest ->
  has_user borrower_id "borrower" (users (disk w)) = false ->
  list_loan w =
  Return tt (wrote ["Enter your user ID: "; "❌ Invalid borrower ID."]
                   (consumed rest w)).
Proof.
  intros E H. unfold list_loan, bind. rewrite (input_line _ _ E).
  unfold load_csv. cbn [read disk wrote consumed]. rewrite H.
  cbn [negb]. world_eq.
Qed.

(** A listing by a registered borrower dies on the first entry that is
    not a number, before anything is written. *)
Lemma list_loan_bad_amount w borrower_id a rest :
  stdin w = borrower_id :: a :: rest ->
  has_user borrower_id "borrower" (users (disk w)) = true ->
  float_of_str a = None ->
  list_loan w =
  Raise ValueError (wrote ["Enter your user ID: "; "Loan amount (R): "]
                          (consumed rest w)).
Proof.
  intros E H A. unfold list_loan. unfold bind at 1. rewrite (input_line _ _ E).
  unfold bind at 1, load_csv at 1. cbn [read disk wrote consumed]. rewrite H.
  cbn [negb]. unfold bind at 1. erewrite input_line by reflexivity.
  unfold bind at 1. rewrite A. cbn [try raise]. f_equal. world_eq.
Qed.

Lemma list_loan_bad_rate w borrower_id a r rest :
  stdin w = borrower_id :: a :: r :: rest ->
  has_user borrower_id "borrower" (users (disk w)) = true ->
  float_of_str a <> None -> float_of_str r = None ->
  list_loan w =
  Raise ValueError (wrote ["Enter your user ID: "; "Loan amount (R): ";
                           "Interest rate (%): "] (consumed rest w)).
Proof.
  intros E H A R. unfold list_loan. unfold bind at 1. rewrite (input_line _ _ E).
  unfold bind at 1, load_csv at 1. cbn [read disk wrote consumed]. rewrite H.
  cbn [negb]. unfold bind at 1. erewrite input_line by reflexivity.
  unfold bind at 1. destruct (float_of_str a) as [x|]; [|congruence].
  cbn [try ret]. unfold bind at 1. erewrite input_line by reflexivity.
  unfold bind at 1. rewrite R. cbn [try raise]. f_equal. world_eq.
Qed.

Lemma list_loan_bad_duration w borrower_id a r d rest :
  stdin w = borrower_id :: a :: r :: d :: rest ->
  has_user borrower_id "borrower" (users (disk w)) = true ->
  float_of_str a <> None -> float_of_str r <> None -> int_of_str d = None ->
  list_loan w =
  Raise ValueError (wrote ["Enter your user ID: "; "Loan amount (R): ";
                           "Interest rate (%): "; "Duration (months): "]
                          (consumed rest w)).
Proof.
  intros E H A R D. unfold list_loan. unfold bind at 1. rewrite (input_line _ _ E).
  unfold bind at 1, load_csv at 1. cbn [read disk wrote consumed]. rewrite H.
  cbn [negb]. unfold bind at 1. erewrite input_line by reflexivity.
  unfold bind at 1. destruct (float_of_str a) as [x|]; [|congruence].
  cbn [try ret]. unfold bind at 1. erewrite input_line by reflexivity.
  unfold bind at 1. destruct (float_of_str r) as [y|]; [|congruence].
  cbn [try ret]. unfold bind at 1. erewrite input_line by reflexivity.
  unfold bind at 1. rewrite D. cbn [try raise]. f_equal. world_eq.
Qed.

(** *** The menu loop *)

Lemma last_of_app {A} (xs ys : list A) d :
  ys <> [] -> last (xs ++ ys) d = last ys d.
Proof.
  intro N. induction xs as [|x xs IH]; [reflexivity|].
  cbn [app]. rewrite <- IH. cbn [last].
  destruct (xs ++ ys) eqn:E; [|reflexivity].
  apply app_eq_nil in E as [_ E]. contradiction.
Qed.

Lemma consumed_wrote rest lines w :
  consumed rest (wrote lines w) = wrote lines (consumed rest w).
Proof. reflexivity. Qed.

(** A turn prints the menu, reads the choice and dispatches on it. *)
Lemma menu_turn_dispatch w choice rest :
  stdin w = choice :: rest ->
  menu_turn w = dispatch choice (wrote menu_text (consumed rest w)).
Proof.
  intro E. unfold menu_turn.
  repeat (unfold bind at 1; rewrite print_spec).
  unfold bind at 1. erewrite input_line by exact E.
  assert (forall v v' : World, v = v' -> dispatch choice v = dispatch choice v')
    as Cg by (intros ? ? ->; reflexivity).
  apply Cg. rewrite !wrote_app, consumed_wrote, wrote_app. reflexivity.
Qed.

Lemma menu_turn_no_input w :
  stdin w = [] -> menu_turn w = Raise EOFError (wrote menu_text w).
Proof.
  intro E. unfold menu_turn.
  repeat (unfold bind at 1; rewrite print_spec).
  unfold bind at 1. rewrite input_eof by exact E. f_equal.
  rewrite !wrote_app. reflexivity.
Qed.

Lemma dispatch_no_more_input choice : keeps no_more_input (dispatch choice).
Proof.
  pose proof no_more_input_trans as Tr.
  assert (forall (m : M unit) (f : flow),
            keeps no_more_input m -> keeps no_more_input (m ;; ret f)) as Seq.
  { intros m f K. apply keeps_bind; auto.
    intros _ w. apply no_more_input_refl. }
  unfold dispatch.
  repeat match goal with
         | |- keeps _ (if ?b then _ else _) => destruct b
         end;
    apply Seq;
    auto using register_user_no_more_input, list_loan_no_more_input,
      view_loans_no_more_input, invest_no_more_input,
      process_repayments_no_more_input, investor_dashboard_no_more_input.
  all: intro w; apply wrote_no_more_input.
Qed.

(** Every turn that does not end the loop has read at least one line. *)
Lemma menu_turn_consumes w f w' :
  menu_turn w = Return f w' ->
  (List.length (stdin w') < List.length (stdin w))%nat.
Proof.
  destruct (stdin w) as [|c rest] eqn:E.
  - rewrite (menu_turn_no_input _ E). discriminate.
  - rewrite (menu_turn_dispatch _ E). intro H.
    pose proof (dispatch_no_more_input c (wrote menu_text (consumed rest w))) as K.
    rewrite H in K. unfold no_more_input in K. cbn in K. cbn. lia.
Qed.

(** On a finite input the loop ends: a bound of one turn more than there
    are lines is never used up. *)
Lemma menu_total : forall n w,
  (List.length (stdin w) < n)%nat -> exists o, menu n w = Some o.
Proof.
  induction n as [|n IH]; intros w L; [lia|]. cbn [menu].
  destruct (menu_turn w) as [[] w'|e w'] eqn:T; eauto.
  apply IH. apply menu_turn_consumes in T. lia.
Qed.

Lemma dispatch_break choice w w' :
  dispatch choice w = Return Break w' -> w' = wrote ["👋 Goodbye!"] w.
Proof.
  unfold dispatch.
  repeat match goal with
         | |- context [if ?b then _ else _] => destruct b
         end;
    unfold bind;
    try (match goal with
         | |- context [match ?m w with _ => _ end] => destruct (m w)
         end; unfold ret; intro H; inversion H; fail).
  rewrite print_spec. unfold ret. intro H; inversion H. reflexivity.
Qed.

(** The loop returns only through choice 7. *)
Lemma menu_returns_on_exit : forall n w w',
  menu n w = Some (Return tt w') -> last (stdout w') "" = "👋 Goodbye!".
Proof.
  induction n as [|n IH]; intros w w'; cbn [menu]; [discriminate|].
  destruct (menu_turn w) as [[] v|e v] eqn:T.
  - apply IH.
  - intro H; inversion H; subst.
    destruct (stdin w) as [|c rest] eqn:E.
    + rewrite (menu_turn_no_input _ E) in T. discriminate.
    + rewrite (menu_turn_dispatch _ E) in T. apply dispatch_break in T.
      subst. cbn [wrote stdout]. apply last_last.
  - discriminate.
Qed.

Lemma not_in_choices c :
  ~ In c ["1"; "2"; "3"; "4"; "5"; "6"; "7"] ->
  dispatch c = (print "❌ Invalid choice. Try again." ;; ret Continue).
Proof.
  intro N. unfold dispatch.
  repeat match goal with
         | |- context [String.eqb c ?k] =>
             destruct (String.eqb_spec c k);
             [exfalso; apply N; subst; simpl; tauto|]
         end.
  reflexivity.
Qed.

(** A refused input costs one turn: the message is printed, nothing is
    written, and the lines after it are still to be read. *)
Lemma refused_turn w rest msg :
  refused w rest msg ->
  exists w',
    menu_turn w = Return Continue w' /\
    disk w' = disk w /\ fs_log w' = fs_log w /\ stdin w' = rest /\
    last (stdout w') "" = msg.
Proof.
  intro R. destruct R as [name typed rest E H | b rest E H | i rest E H
                          | i l rest E H O | c rest E N];
    rewrite (menu_turn_dispatch _ E).
  - assert (Str.mem (Str.lower typed) ["borrower"; "investor"] = false) as M.
    { destruct (Str.mem _ _) eqn:M; [|reflexivity].
      exfalso. apply H. apply mem_roles in M. simpl. intuition. }
    change (dispatch "1") with (register_user ;; ret Continue). unfold bind.
    erewrite register_user_rejects; [|reflexivity|exact M].
    eexists. split; [reflexivity|]. cbn. repeat split.
    rewrite last_of_app by discriminate. reflexivity.
  - change (dispatch "2") with (list_loan ;; ret Continue). unfold bind.
    erewrite list_loan_bad_borrower; [|reflexivity|exact H].
    eexists. split; [reflexivity|]. cbn. repeat split.
    rewrite last_of_app by discriminate. reflexivity.
  - change (dispatch "4") with (invest ;; ret Continue). unfold bind.
    erewrite invest_bad_investor; [|reflexivity|exact H].
    eexists. split; [reflexivity|]. cbn. repeat split.
    rewrite last_of_app by discriminate. reflexivity.
  - change (dispatch "4") with (invest ;; ret Continue). unfold bind.
    erewrite invest_bad_loan; [|reflexivity|exact H|exact O].
    eexists. split; [reflexivity|]. cbn. repeat split.
    rewrite last_of_app, app_comm_cons, last_of_app by discriminate.
    reflexivity.
  - rewrite (not_in_choices N). unfold bind. rewrite print_spec.
    eexists. split; [reflexivity|]. cbn. repeat split.
    rewrite last_of_app by discriminate. reflexivity.
Qed.

Lemma non_numeric_turn w rest :
  non_numeric w rest ->
  exists w',
    menu_turn w = Raise ValueError w' /\
    disk w' = disk w /\ fs_log w' = fs_log w /\ stdin w' = rest.
Proof.
  intro R. destruct R as [b a rest E H A | b a r rest E H A R
                          | b a r d rest E H A R D];
    rewrite (menu_turn_dispatch _ E);
    change (dispatch "2") with (list_loan ;; ret Continue); unfold bind.
  - erewrite list_loan_bad_amount; [|reflexivity|exact H|exact A].
    eexists. split; [reflexivity|]. cbn. auto.
  - erewrite list_loan_bad_rate; [|reflexivity|exact H|exact A|exact R].
    eexists. split; [reflexivity|]. cbn. auto.
  - erewrite list_loan_bad_duration;
      [|reflexivity|exact H|exact A|exact R|exact D].
    eexists. split; [reflexivity|]. cbn. auto.
Qed.

(** C6, as amended.  An invalid role, an unknown borrower or investor id,
    an unknown or non-open loan id and an unknown menu choice are each
    answered by a printed message, with nothing written, and the menu
    loop goes on with the lines that follow.  Nothing in the program
    catches an exception: a loan amount, rate or duration that is not a
    number raises [ValueError] out of the loop, the lines that follow
    staying unread.  The loop returns only after choice 7, and on a
    finite input it always ends. *)
Theorem menu_continues_after_refusal w rest msg :
  refused w rest msg ->
  (exists w',
     menu_turn w = Return Continue w' /\
     disk w' = disk w /\ fs_log w' = fs_log w /\ stdin w' = rest /\
     last (stdout w') "" = msg /\
     forall n, menu (S n) w = menu n w') /\
  (forall v left,
     non_numeric v left ->
     exists v',
       disk v' = disk v /\ fs_log v' = fs_log v /\ stdin v' = left /\
       forall n, menu (S n) v = Some (Raise ValueError v')) /\
  (forall n v v',
     menu n v = Some (Return tt v') -> last (stdout v') "" = "👋 Goodbye!") /\
  (forall n v, (List.length (stdin v) < n)%nat -> menu n v <> None).
Proof.
  intro R. split; [|split; [|split]].
  - destruct (refused_turn R) as (w' & T & D & L & I & O).
    exists w'. repeat split; auto. intro n. cbn [menu]. rewrite T. reflexivity.
  - intros v left N. destruct (non_numeric_turn N) as (v' & T & D & L & I).
    exists v'. repeat split; auto. intro n. cbn [menu]. rewrite T. reflexivity.
  - apply menu_returns_on_exit.
  - intros n v L. destruct (@menu_total n v L) as [o ->]. discriminate.
Qed.

End Shell.

(** C6, as stated, fails.  Alice, a registered borrower, starts a listing
    and types ["abc"] as the amount: [float] raises [ValueError], no message
    is printed for it, the loop is left by the exception and the exit choice
    that follows is never read. *)
Lemma non_numeric_amount_ends_the_menu :
  let w := boot Scenario.market Scenario.day0 ["2"; "9e3779b1"; "abc"; "7"] in
  exists w',
    menu 10 w = Some (Raise ValueError w') /\
    float_of_str "abc" = None /\
    stdin w' = ["7"] /\
    last (stdout w') "" = "Loan amount (R): " /\
    ~ In "👋 Goodbye!" (stdout w').
Proof.
  eexists. split; [vm_compute; reflexivity|].
  split; [vm_compute; reflexivity|]. split; [reflexivity|].
  split; [reflexivity|].
  cbn. intuition discriminate.
Qed.

Lemma menu_continues_after_refusal_witness :
  let w := boot Scenario.ledger Scenario.day0
                ["4"; "3c6ef362"; "daa66d13"; "7"] in
  refused w ["7"] "❌ Invalid loan ID." /\
  exists w', menu_turn w = Return Continue w' /\ disk w' = disk w /\
             menu 2 w = menu 1 w'.
Proof.
  intro w.
  assert (refused w ["7"] "❌ Invalid loan ID.") as R.
  { apply (@refused_loan w "3c6ef362" "daa66d13" ["7"]);
      vm_compute; reflexivity. }
  split; [exact R|].
  destruct (proj1 (menu_continues_after_refusal R)) as (w' & T & D & _ & _ & _ & C).
  exists w'. repeat split; auto.
Defined.

(* ================================================================= *)
(** ** Every way [invest] and [list_loan] can end *)

Section Outcomes.

Context {py : Runtime}.

(** *** [invest] *)

Lemma monthly_payment_of_raise loan w e w' :
  monthly_payment_of loan w = Raise e w' ->
  w' = w /\ In e [ValueError; OverflowError; ZeroDivisionError].
Proof.
  unfold monthly_payment_of, bind, try, ret, raise.
  repeat match goal with
         | |- context [match ?o with Some _ => _ | None => _ end] =>
             destruct o
         end;
    intro H; inversion H; subst; simpl; auto.
Qed.

(** The installment loop returns, or stops at the first due date that
    does not exist, the earlier installments written. *)
Lemma schedule_loop_cases loan_id investor_id mp xs : forall w,
  for_each xs (installment_turn loan_id investor_id mp) w
  = Return tt (scheduled loan_id investor_id mp xs w) \/
  exists pre i post,
    xs = pre ++ i :: post /\
    Datetime.plus_days (clock w) (30 * (i + 1)) = None /\
    for_each xs (installment_turn loan_id investor_id mp) w
    = Raise OverflowError (scheduled loan_id investor_id mp pre w).
Proof.
  induction xs as [|x xs IH]; intro w; cbn [for_each].
  - left. unfold ret. rewrite scheduled_nil. reflexivity.
  - unfold bind. rewrite installment_turn_spec.
    destruct (Datetime.plus_days (clock w) (30 * (x + 1))) as [due|] eqn:E.
    + destruct (IH (scheduled loan_id investor_id mp [x] w))
        as [R|(pre & i & post & -> & N & R)]; rewrite R, scheduled_cons.
      * left. reflexivity.
      * right. exists (x :: pre), i, post. auto.
    + right. exists [], x, xs. rewrite scheduled_nil. auto.
Qed.

(** The three ways lines 101-116 can end: before any write, in the middle
    of the installments, or with the loan funded. *)
Lemma funding_outcomes investor_id loan_id ls loan w :
  ls <> [] ->
  (exists e, In e [ValueError; OverflowError; ZeroDivisionError] /\
             funding investor_id loan_id ls loan w = Raise e w) \/
  (exists d mp pre i post,
     payment_formula loan d mp /\ range d = pre ++ i :: post /\
     Datetime.plus_days (clock w) (30 * (i + 1)) = None /\
     funding investor_id loan_id ls loan w
     = Raise OverflowError (scheduled loan_id investor_id mp pre w)) \/
  (exists d mp,
     payment_formula loan d mp /\
     funding investor_id loan_id ls loan w
     = Return tt (funded investor_id loan_id ls mp d w)).
Proof.
  intro N.
  destruct (monthly_payment_of_cases loan w) as [(d & mp & F & P)|[e P]].
  - destruct (schedule_loop_cases loan_id investor_id mp (range d) w)
      as [R|(pre & i & post & Ex & No & R)].
    + right. right. exists d, mp. split; [exact F|].
      apply funding_ok; [exact F| |exact N].
      apply schedule_loop_return in R as [_ Ok]. exact Ok.
    + right. left. exists d, mp, pre, i, post.
      repeat (split; [assumption|]).
      rewrite funding_unfold. unfold bind at 1. rewrite P.
      unfold bind at 1. rewrite (payment_formula_duration F). cbn [try ret].
      unfold bind at 1. rewrite R. reflexivity.
  - left. exists e. split.
    + apply monthly_payment_of_raise in P as [_ I]. exact I.
    + rewrite funding_unfold. unfold bind at 1. rewrite P. reflexivity.
Qed.

(** Every way [invest] can end: without a write; or, an open loan found,
    with the installments of a prefix of the schedule appended and, when
    the prefix is the whole schedule, the loan table rewritten. *)
Lemma invest_outcomes w :
  (same_files w (world_of (invest w)) /\
   forall e w', invest w = Raise e w' ->
                In e [EOFError; ValueError; OverflowError; ZeroDivisionError]) \/
  exists investor_id loan_id rest loan d mp,
    stdin w = investor_id :: loan_id :: rest /\
    has_user investor_id "investor" (users (disk w)) = true /\
    open_loan loan_id (loans (disk w)) = Some loan /\
    payment_formula loan d mp /\
    let w2 := wrote ("Enter your user ID: " :: view_lines (loans (disk w))
                       ++ ["Enter Loan ID to invest in: "]) (consumed rest w) in
    (invest w = Return tt (funded investor_id loan_id (loans (disk w)) mp d w2) \/
     exists pre i post,
       range d = pre ++ i :: post /\
       Datetime.plus_days (clock w) (30 * (i + 1)) = None /\
       invest w = Raise OverflowError (scheduled loan_id investor_id mp pre w2)).
Proof.
  destruct (stdin w) as [|investor_id rest0] eqn:E.
  { left. rewrite (invest_no_input _ E). split; [split; reflexivity|].
    intros e w' H; inversion H; simpl; auto. }
  destruct (has_user investor_id "investor" (users (disk w))) eqn:H.
  2:{ left. rewrite (invest_bad_investor _ E H). split; [split; reflexivity|].
      discriminate. }
  rewrite (invest_reads_loan_id _ H E).
  destruct rest0 as [|loan_id rest].
  { left. split; [split; reflexivity|].
    intros e w' R; inversion R; simpl; auto. }
  cbv zeta.
  destruct (open_loan loan_id (loans (disk w))) as [loan|] eqn:O.
  2:{ left. split; [split; reflexivity|]. rewrite print_spec. discriminate. }
  assert (loans (disk w) <> []) as Ne.
  { unfold open_loan in O. apply find_some in O as [I _].
    intro Z. rewrite Z in I. exact I. }
  match goal with
  | |- context [funding ?i ?l ?ls ?ln ?v] =>
      destruct (@funding_outcomes i l ls ln v Ne)
        as [(e & Ie & R)|[(d & mp & pre & i0 & post & F & Ex & No & R)
                         |(d & mp & F & R)]]
  end.
  - left. rewrite R. split; [split; reflexivity|].
    intros e' w' X; inversion X; subst. simpl in *. intuition.
  - right. exists investor_id, loan_id, rest, loan, d, mp.
    repeat (split; [assumption || reflexivity|]).
    right. exists pre, i0, post. auto.
  - right. exists investor_id, loan_id, rest, loan, d, mp.
    repeat (split; [assumption || reflexivity|]).
    left. exact R.
Qed.

(** *** [list_loan] *)

Lemma list_loan_reads w borrower_id rest0 :
  stdin w = borrower_id :: rest0 ->
  has_user borrower_id "borrower" (users (disk w)) = true ->
  list_loan w
  = listing borrower_id (wrote ["Enter your user ID: "] (consumed rest0 w)).
Proof.
  intros E H. unfold list_loan. unfold bind at 1. rewrite (input_line _ _ E).
  unfold bind at 1, load_csv at 1. cbn [read disk wrote consumed]. rewrite H.
  reflexivity.
Qed.

Lemma list_loan_no_input w :
  stdin w = [] -> list_loan w = Raise EOFError (wrote ["Enter your user ID: "] w).
Proof. intro E. unfold list_loan, bind. rewrite (input_eof _ _ E). reflexivity. Qed.

Lemma consumed_consumed rest rest' w :
  consumed rest (consumed rest' w) = consumed rest w.
Proof. reflexivity. Qed.

(** A listing whose three entries are numbers. *)
Lemma listing_ok borrower_id w a r d rest amount rate duration :
  stdin w = a :: r :: d :: rest ->
  float_of_str a = Some amount -> float_of_str r = Some rate ->
  int_of_str d = Some duration ->
  listing borrower_id w
  = Return tt
      (let loan_id := Str.prefix 8 (uuid4 (entropy w)) in
       mkWorld (mkDisk (users (disk w))
                       (loans (disk w)
                          ++ [Loan.mk loan_id borrower_id (str_of_float amount)
                                      (str_of_float rate) (str_of_int duration)
                                      "open"])
                       (repayments (disk w)))
               (fs_log w ++ [Appended loans_file]) rest
               (stdout w ++ ["Loan amount (R): "; "Interest rate (%): ";
                             "Duration (months): ";
                             Str.concat ["📌 Loan listed with ID: "; loan_id]])
               (clock w) (S (entropy w))).
Proof.
  intros E A R D. unfold listing.
  unfold bind at 1. rewrite (input_line _ _ E).
  unfold bind at 1. rewrite A. cbn [try ret raise].
  unfold bind at 1. erewrite input_line by reflexivity.
  unfold bind at 1. rewrite R. cbn [try ret raise].
  unfold bind at 1. erewrite input_line by reflexivity.
  unfold bind at 1. rewrite D. cbn [try ret raise].
  repeat first [rewrite consumed_wrote | rewrite consumed_consumed
               | rewrite wrote_app].
  cbn [app]. cbv zeta. unfold bind. world_eq.
Qed.

(** A listing dies on the first missing or non-numeric entry, nothing
    written; otherwise it appends the loan. *)
Lemma listing_outcomes borrower_id w :
  (exists e w', In e [EOFError; ValueError] /\
                listing borrower_id w = Raise e w' /\ same_files w w' /\
                entropy w' = entropy w) \/
  exists a r d rest amount rate duration,
    stdin w = a :: r :: d :: rest /\
    float_of_str a = Some amount /\ float_of_str r = Some rate /\
    int_of_str d = Some duration /\
    listing borrower_id w
    = Return tt
        (let loan_id := Str.prefix 8 (uuid4 (entropy w)) in
         mkWorld (mkDisk (users (disk w))
                         (loans (disk w)
                            ++ [Loan.mk loan_id borrower_id (str_of_float amount)
                                        (str_of_float rate) (str_of_int duration)
                                        "open"])
                         (repayments (disk w)))
                 (fs_log w ++ [Appended loans_file]) rest
                 (stdout w ++ ["Loan amount (R): "; "Interest rate (%): ";
                               "Duration (months): ";
                               Str.concat ["📌 Loan listed with ID: "; loan_id]])
                 (clock w) (S (entropy w))).
Proof.
  remember (listing borrower_id w) as o eqn:Ho. pose proof Ho as Ho0.
  unfold listing in Ho.
  destruct (stdin w) as [|a t1] eqn:E1.
  { left. unfold bind at 1 in Ho. rewrite (input_eof _ _ E1) in Ho.
    eexists _, _. split; [|split; [exact Ho|]]; simpl; auto. split; [split|]; reflexivity. }
  unfold bind at 1 in Ho. rewrite (input_line _ _ E1) in Ho.
  unfold bind at 1 in Ho.
  destruct (float_of_str a) as [amount|] eqn:A; cbn [try ret raise] in Ho.
  2:{ left. eexists _, _. split; [|split; [exact Ho|]]; simpl; auto.
      split; [split|]; reflexivity. }
  destruct t1 as [|r t2].
  { left. unfold bind at 1 in Ho. rewrite input_eof in Ho by reflexivity.
    eexists _, _. split; [|split; [exact Ho|]]; simpl; auto. split; [split|]; reflexivity. }
  unfold bind at 1 in Ho. erewrite input_line in Ho by reflexivity.
  unfold bind at 1 in Ho.
  destruct (float_of_str r) as [rate|] eqn:R; cbn [try ret raise] in Ho.
  2:{ left. eexists _, _. split; [|split; [exact Ho|]]; simpl; auto.
      split; [split|]; reflexivity. }
  destruct t2 as [|d rest].
  { left. unfold bind at 1 in Ho. rewrite input_eof in Ho by reflexivity.
    eexists _, _. split; [|split; [exact Ho|]]; simpl; auto. split; [split|]; reflexivity. }
  unfold bind at 1 in Ho. erewrite input_line in Ho by reflexivity.
  unfold bind at 1 in Ho.
  destruct (int_of_str d) as [duration|] eqn:D; cbn [try ret raise] in Ho.
  2:{ left. eexists _, _. split; [|split; [exact Ho|]]; simpl; auto.
      split; [split|]; reflexivity. }
  right. exists a, r, d, rest, amount, rate, duration.
  repeat (split; [reflexivity || assumption|]).
  rewrite Ho0. exact (listing_ok borrower_id _ E1 A R D).
Qed.

(** [list_loan] as a whole: it ends without a write, or appends the loan
    of a registered borrower. *)
Lemma list_loan_outcomes w :
  (same_files w (world_of (list_loan w)) /\
   entropy (world_of (list_loan w)) = entropy w /\
   forall e w', list_loan w = Raise e w' -> In e [EOFError; ValueError]) \/
  exists borrower_id a r d rest amount rate duration,
    stdin w = borrower_id :: a :: r :: d :: rest /\
    has_user borrower_id "borrower" (users (disk w)) = true /\
    float_of_str a = Some amount /\ float_of_str r = Some rate /\
    int_of_str d = Some duration /\
    list_loan w = Return tt (loan_listed borrower_id amount rate duration rest w).
Proof.
  destruct (stdin w) as [|b rest0] eqn:E.
  { left. rewrite (list_loan_no_input _ E). split; [split; reflexivity|].
    split; [reflexivity|]. intros e w' H; inversion H; simpl; auto. }
  destruct (has_user b "borrower" (users (disk w))) eqn:H.
  2:{ left. rewrite (list_loan_bad_borrower _ E H).
      split; [split; reflexivity|]. split; [reflexivity|]. discriminate. }
  rewrite (list_loan_reads _ E H).
  destruct (listing_outcomes b (wrote ["Enter your user ID: "] (consumed rest0 w)))
    as [(e & w' & I & R & [Sd Sl] & En)
       |(a & r & d & rest & amount & rate & duration & Es & A & Rr & D & R)];
    rewrite R.
  - left. cbn [world_of]. split; [split; [rewrite Sd|rewrite Sl]; reflexivity|].
    split; [rewrite En; reflexivity|].
    intros e' w'' X; inversion X; subst. exact I.
  - right. cbn [wrote consumed stdin] in Es. subst rest0.
    exists b, a, r, d, rest, amount, rate, duration.
    repeat (split; [reflexivity || assumption|]).
    f_equal. unfold loan_listed. cbn. rewrite <- app_assoc. reflexivity.
Qed.

End Outcomes.

(* ================================================================= *)
(** ** How each operation ends and what it leaves on disk *)

Section Evolution.

Context {py : Runtime}.

(** *** Every way [register_user] can end *)

Lemma register_user_no_name w :
  stdin w = [] ->
  register_user w = Raise EOFError (wrote ["Enter your name: "] w).
Proof. intro E. unfold register_user, bind. rewrite (input_eof _ _ E). reflexivity. Qed.

Lemma register_user_no_role w name :
  stdin w = [name] ->
  register_user w
  = Raise EOFError (wrote ["Enter your name: "; "Role (borrower/investor): "]
                          (consumed [] w)).
Proof.
  intro E. unfold register_user. unfold bind at 1. rewrite (input_line _ _ E).
  unfold bind at 1. rewrite input_eof by reflexivity. rewrite wrote_app.
  reflexivity.
Qed.

Lemma register_user_outcomes w :
  (same_files w (world_of (register_user w)) /\
   same_entropy w (world_of (register_user w)) /\
   forall e w', register_user w = Raise e w' -> e = EOFError) \/
  exists name typed rest,
    stdin w = name :: typed :: rest /\
    Str.mem (Str.lower typed) ["borrower"; "investor"] = true /\
    register_user w = Return tt (user_registered name typed rest w).
Proof.
  destruct (stdin w) as [|name [|typed rest]] eqn:E.
  - left. rewrite (register_user_no_name _ E).
    split; [split; reflexivity|]. split; [reflexivity|].
    intros e w' H; inversion H; reflexivity.
  - left. rewrite (register_user_no_role _ E).
    split; [split; reflexivity|]. split; [reflexivity|].
    intros e w' H; inversion H; reflexivity.
  - destruct (Str.mem (Str.lower typed) ["borrower"; "investor"]) eqn:Mem.
    + right. exists name, typed, rest. split; [reflexivity|]. split; [exact Mem|].
      exact (register_user_accepts _ E Mem).
    + left. rewrite (register_user_rejects _ E Mem).
      split; [split; reflexivity|]. split; [reflexivity|]. discriminate.
Qed.

(** *** Every way [investor_dashboard] can end *)

Lemma payments_cases rows w :
  (exists xs,
     map (fun r => float_of_str (Repayment.monthly_payment r)) rows = map Some xs /\
     payments rows w = Return xs w) \/
  (Exists bad_payment rows /\ payments rows w = Raise ValueError w).
Proof.
  induction rows as [|r rows IH]; cbn [payments].
  - left. exists []. split; reflexivity.
  - unfold bind at 1.
    destruct (float_of_str (Repayment.monthly_payment r)) as [x|] eqn:X;
      unfold try, ret, raise; cbn beta iota.
    + destruct IH as [(xs & Mx & R)|[B R]]; unfold bind; rewrite R.
      * left. exists (x :: xs). cbn [map]. rewrite X, Mx. split; reflexivity.
      * right. split; [apply Exists_cons_tl; exact B|reflexivity].
    + right. split; [apply Exists_cons_hd; exact X|reflexivity].
Qed.

Lemma sum_payments_cases rows w :
  (exists xs,
     map (fun r => float_of_str (Repayment.monthly_payment r)) rows = map Some xs /\
     sum_payments rows w = Return (fsum xs) w) \/
  (Exists bad_payment rows /\ sum_payments rows w = Raise ValueError w).
Proof.
  unfold sum_payments, bind.
  destruct (payments_cases rows w) as [(xs & Mx & R)|[B R]]; rewrite R.
  - left. exists xs. split; [exact Mx|reflexivity].
  - right. split; [exact B|reflexivity].
Qed.

Lemma investor_dashboard_no_input w :
  stdin w = [] ->
  investor_dashboard w = Raise EOFError (wrote ["Enter your user ID: "] w).
Proof.
  intro E. unfold investor_dashboard, bind. rewrite (input_eof _ _ E). reflexivity.
Qed.

Lemma parsed_not_bad rows xs :
  map (fun r => float_of_str (Repayment.monthly_payment r)) rows = map Some xs ->
  ~ Exists bad_payment rows.
Proof.
  revert xs. induction rows as [|r rows IH]; intros xs Mx B.
  - inversion B.
  - destruct xs as [|x xs]; [discriminate|]. cbn [map] in Mx.
    injection Mx as X Mx. inversion B; subst.
    + unfold bad_payment in *. congruence.
    + exact (IH _ Mx H0).
Qed.

Lemma bad_in_part (f g : Repayment.t -> bool) rows :
  (forall r, g r = true -> f r = true) ->
  Exists bad_payment (filter g rows) -> Exists bad_payment (filter f rows).
Proof.
  intros Sub B. apply Exists_exists in B as (r & I & Br).
  apply filter_In in I as [I G]. apply Exists_exists. exists r.
  split; [apply filter_In; split; [exact I|apply Sub; exact G]|exact Br].
Qed.

(** The dashboard dies on the first payment of the investor that is not a
    number, the prompt printed and nothing else; otherwise it returns. *)
Lemma investor_dashboard_cases w investor_id rest :
  stdin w = investor_id :: rest ->
  let mine := filter (of_investor investor_id) (repayments (disk w)) in
  let w1 := wrote ["Enter your user ID: "] (consumed rest w) in
  (Exists bad_payment mine /\ investor_dashboard w = Raise ValueError w1) \/
  (~ Exists bad_payment mine /\
   exists line, investor_dashboard w = Return tt (wrote [line] w1)).
Proof.
  intros E mine w1. remember (investor_dashboard w) as o eqn:Ho.
  unfold investor_dashboard in Ho. unfold bind at 1 in Ho.
  rewrite (input_line _ _ E) in Ho. fold w1 in Ho.
  unfold bind at 1, load_csv at 1 in Ho.
  replace (read (disk w1) repayments_file) with (repayments (disk w)) in Ho
    by reflexivity.
  fold mine in Ho. unfold bind at 1 in Ho.
  destruct (sum_payments_cases mine w1) as [(xs & Mx & R)|[B R]]; rewrite R in Ho.
  2:{ left. split; [exact B|exact Ho]. }
  right. split; [exact (parsed_not_bad _ Mx)|].
  unfold bind at 1 in Ho.
  destruct (sum_payments_cases
              (filter (fun r => of_investor investor_id r && is_paid r)
                      (repayments (disk w))) w1) as [(ys & My & R2)|[B R2]];
    rewrite R2 in Ho.
  - eexists. rewrite print_spec in Ho. exact Ho.
  - exfalso. apply (parsed_not_bad _ Mx). unfold mine.
    eapply bad_in_part; [|exact B].
    intros r H. apply andb_true_iff in H as [H _]. exact H.
Qed.

(** *** The exceptions of each operation *)

Lemma run_raises_only o : raises_only (may_raise o) (run o).
Proof.
  intros w e w' R. destruct o; cbn [run may_raise] in *.
  - destruct (register_user_outcomes w) as [(_ & _ & Only)|(n & t & r & _ & _ & Ok)].
    + rewrite (Only _ _ R). simpl; auto.
    + rewrite Ok in R. discriminate.
  - destruct (list_loan_outcomes w)
      as [(_ & _ & Only)|(b & a & r & d & rest & am & ra & du & _ & _ & _ & _ & _ & Ok)].
    + exact (Only _ _ R).
    + rewrite Ok in R. discriminate.
  - rewrite view_loans_spec in R. discriminate.
  - destruct (invest_outcomes w)
      as [(_ & Only)|(i & l & rest & loan & d & mp & _ & _ & _ & _ & [Ok|(pre & k & post & _ & _ & Ov)])].
    + exact (Only _ _ R).
    + rewrite Ok in R. discriminate.
    + rewrite Ov in R. inversion R. simpl; auto.
  - rewrite process_repayments_spec in R. discriminate.
  - destruct (stdin w) as [|investor_id rest] eqn:E.
    + rewrite (investor_dashboard_no_input _ E) in R. inversion R. simpl; auto.
    + destruct (investor_dashboard_cases _ E) as [[_ V]|[_ [line Ok]]].
      * rewrite V in R. inversion R. simpl; auto.
      * rewrite Ok in R. discriminate.
Qed.

End Evolution.

(* ================================================================= *)
(** ** What an operation can do to each table *)

Section Tables.

Context {py : Runtime}.

(** *** Ids are drawn by registrations and listings only *)









(** *** The users table *)

Lemma has_user_app uid r us new :
  has_user uid r (us ++ new) = has_user uid r us || has_user uid r new.
Proof. unfold has_user. apply existsb_app. Qed.

Lemma has_user_grows uid r us new :
  has_user uid r us = true -> has_user uid r (us ++ new) = true.
Proof. intro H. rewrite has_user_app, H. reflexivity. Qed.

(** One operation adds at most one user, and only a registration does. *)
Lemma run_users_evolve o w :
  users (disk (world_of (run o w))) = users (disk w) \/
  exists name typed rest,
    o = RegisterUser /\
    stdin w = name :: typed :: rest /\
    In (Str.lower typed) ["borrower"; "investor"] /\
    run o w = Return tt (user_registered name typed rest w).
Proof.
  destruct o; try (left; apply run_same_users; discriminate).
  cbn [run].
  destruct (register_user_outcomes w) as [([Sd _] & _)|(n & t & r & E & Mem & Ok)].
  - left. rewrite Sd. reflexivity.
  - right. exists n, t, r. split; [reflexivity|]. split; [exact E|].
    split; [|exact Ok].
    apply mem_roles in Mem. destruct Mem as [Mem|Mem]; rewrite Mem; simpl; auto.
Qed.

(** *** The repayments table *)

Lemma repayment_step_refl rs : Forall2 repayment_step rs rs.
Proof. induction rs; constructor; [left; reflexivity|assumption]. Qed.

Lemma settle_steps today_s rs :
  Forall2 repayment_step rs (map (settle today_s) rs).
Proof.
  induction rs as [|r rs IH]; cbn [map]; constructor; [|exact IH].
  unfold settle, is_due. destruct (Str.le (Repayment.due_date r) today_s); cbn [andb].
  - destruct (String.eqb (Repayment.paid r) "False") eqn:P.
    + right. split; [apply String.eqb_eq; exact P|reflexivity].
    + left. reflexivity.
  - left. reflexivity.
Qed.

Lemma installments_unpaid loan_id investor_id mp day xs :
  Forall (fun r => Repayment.paid r = "False")
         (map (installment loan_id investor_id mp day) xs).
Proof. apply Forall_forall. intros r I. apply in_map_iff in I as (i & <- & _). reflexivity. Qed.

End Tables.

(* ================================================================= *)
(** ** References between the tables, ids and menu sessions *)

Section Session.

Context {py : Runtime}.

(** *** References *)

Lemma mark_funded_id loan_id l :
  Loan.loan_id (mark_funded loan_id l) = Loan.loan_id l.
Proof. unfold mark_funded. destruct (String.eqb _ _); reflexivity. Qed.

Lemma mark_funded_borrower loan_id l :
  Loan.borrower_id (mark_funded loan_id l) = Loan.borrower_id l.
Proof. unfold mark_funded. destruct (String.eqb _ _); reflexivity. Qed.

Lemma mark_funded_ids loan_id ls :
  map Loan.loan_id (map (mark_funded loan_id) ls) = map Loan.loan_id ls.
Proof. rewrite map_map. apply map_ext. intro l. apply mark_funded_id. Qed.

Lemma settle_investor today_s r :
  Repayment.investor_id (settle today_s r) = Repayment.investor_id r.
Proof. unfold settle. destruct (is_due today_s r); reflexivity. Qed.

Lemma settle_loan today_s r :
  Repayment.loan_id (settle today_s r) = Repayment.loan_id r.
Proof. unfold settle. destruct (is_due today_s r); reflexivity. Qed.

Lemma settle_paid today_s r :
  Repayment.paid r = "False" \/ Repayment.paid r = "True" ->
  Repayment.paid (settle today_s r) = "False" \/
  Repayment.paid (settle today_s r) = "True".
Proof. unfold settle. destruct (is_due today_s r); [right; reflexivity|auto]. Qed.

(** References survive whatever keeps the roles of the users, the
    borrowers of the loans and the ids of the loans. *)
Lemma references_ok_frame d us ls :
  references_ok d ->
  (forall uid r, has_user uid r (users d) = true -> has_user uid r us = true) ->
  map Loan.borrower_id ls = map Loan.borrower_id (loans d) ->
  map Loan.loan_id ls = map Loan.loan_id (loans d) ->
  references_ok (mkDisk us ls (repayments d)).
Proof.
  intros [L R] U B I. split; cbn [loans repayments users].
  - unfold loan_refers in *. cbn [users].
    apply (Forall_map Loan.borrower_id (fun b => has_user b "borrower" us = true)).
    rewrite B. apply Forall_map. eapply Forall_impl; [|exact L].
    intros l H. apply U. exact H.
  - eapply Forall_impl; [|exact R].
    intros r (H1 & H2 & H3). unfold repayment_refers. cbn [users loans].
    rewrite I. split; [apply U; exact H1|]. split; assumption.
Qed.

Lemma references_ok_more_loans d new :
  references_ok d -> Forall (loan_refers d) new ->
  references_ok (mkDisk (users d) (loans d ++ new) (repayments d)).
Proof.
  intros [L R] N. split; cbn [loans repayments users].
  - apply Forall_app. split; [exact L|exact N].
  - eapply Forall_impl; [|exact R].
    intros r (H1 & H2 & H3). unfold repayment_refers. cbn [users loans].
    split; [exact H1|]. split; [|exact H3].
    rewrite map_app. apply in_or_app. left. exact H2.
Qed.

Lemma references_ok_more_repayments d new :
  references_ok d -> Forall (repayment_refers d) new ->
  references_ok (mkDisk (users d) (loans d) (repayments d ++ new)).
Proof.
  intros [L R] N. split; cbn [loans repayments users].
  - exact L.
  - apply Forall_app. split; [exact R|exact N].
Qed.

Lemma references_ok_settled d today_s :
  references_ok d ->
  references_ok (mkDisk (users d) (loans d) (map (settle today_s) (repayments d))).
Proof.
  intros [L R]. split; cbn [loans repayments users].
  - exact L.
  - apply Forall_map. eapply Forall_impl; [|exact R].
    intros r (H1 & H2 & H3). unfold repayment_refers. cbn [users loans].
    rewrite settle_investor, settle_loan.
    split; [exact H1|]. split; [exact H2|apply settle_paid; exact H3].
Qed.

Lemma installments_refer d loan_id investor_id mp day xs loan :
  has_user investor_id "investor" (users d) = true ->
  open_loan loan_id (loans d) = Some loan ->
  Forall (repayment_refers d) (map (installment loan_id investor_id mp day) xs).
Proof.
  intros H O. apply open_loan_some in O as (I & Id & _).
  apply Forall_forall. intros r Ir. apply in_map_iff in Ir as (i & <- & _).
  unfold repayment_refers, installment. cbn.
  split; [exact H|]. split; [|left; reflexivity].
  rewrite <- Id. apply in_map. exact I.
Qed.

Lemma disk_eta d : mkDisk (users d) (loans d) (repayments d) = d.
Proof. destruct d; reflexivity. Qed.

(** No operation, however it ends, leaves a dangling reference. *)
Lemma run_references o w :
  references_ok (disk w) -> references_ok (disk (world_of (run o w))).
Proof.
  intro Ok. destruct o; cbn [run].
  - destruct (register_user_outcomes w) as [([Sd _] & _)|(n & t & r & _ & _ & R)].
    + rewrite Sd. exact Ok.
    + rewrite R. cbn [world_of user_registered disk].
      apply (@references_ok_frame (disk w)); auto.
      intros uid ro H. apply has_user_grows. exact H.
  - destruct (list_loan_outcomes w)
      as [([Sd _] & _)|(b & a & r & d & rest & am & ra & du & _ & H & _ & _ & _ & R)].
    + rewrite Sd. exact Ok.
    + rewrite R. cbn [world_of loan_listed disk].
      apply references_ok_more_loans; [exact Ok|].
      constructor; [exact H|constructor].
  - destruct (view_loans_same_files w) as [-> _]. exact Ok.
  - destruct (invest_outcomes w)
      as [([Sd _] & _)|(i & l & rest & loan & d & mp & _ & H & O & _ & [R|(pre & k & post & _ & _ & R)])].
    + rewrite Sd. exact Ok.
    + rewrite R. cbn [world_of funded disk wrote consumed users loans repayments].
      pose proof (@references_ok_more_repayments (disk w)
                    (map (installment l i mp (clock w)) (range d)) Ok
                    (@installments_refer (disk w) l i mp (clock w) (range d) loan H O)) as Ok2.
      apply (@references_ok_frame _ (users (disk w))
               (map (mark_funded l) (loans (disk w)))) in Ok2.
      * exact Ok2.
      * auto.
      * cbn [loans]. rewrite map_map. apply map_ext. intro x.
        apply mark_funded_borrower.
      * cbn [loans]. apply mark_funded_ids.
    + rewrite R. cbn [world_of scheduled disk wrote consumed users loans repayments].
      apply references_ok_more_repayments; [exact Ok|].
      exact (@installments_refer (disk w) l i mp (clock w) pre loan H O).
  - rewrite process_repayments_spec. cbv zeta.
    destruct (existsb _ _).
    + cbn [world_of disk]. apply references_ok_settled. exact Ok.
    + exact Ok.
  - destruct (investor_dashboard_same_files w) as [-> _]. exact Ok.
Qed.

(** *** Ids *)





(** *** The menu loop *)

Lemma dispatch_op o : dispatch (choice_of o) = (run o ;; ret Continue).
Proof. destruct o; reflexivity. Qed.

Lemma dispatch_exit w :
  dispatch "7" w = Return Break (wrote ["👋 Goodbye!"] w).
Proof. reflexivity. Qed.

Lemma choice_cases choice :
  (exists o, choice = choice_of o) \/ choice = "7" \/
  ~ In choice ["1"; "2"; "3"; "4"; "5"; "6"; "7"].
Proof.
  destruct (in_dec string_dec choice ["1"; "2"; "3"; "4"; "5"; "6"; "7"]) as [I|N].
  - simpl in I.
    destruct I as [<-|[<-|[<-|[<-|[<-|[<-|[<-|[]]]]]]]].
    + left. exists RegisterUser. reflexivity.
    + left. exists ListLoan. reflexivity.
    + left. exists ViewLoans. reflexivity.
    + left. exists Invest. reflexivity.
    + left. exists ProcessRepayments. reflexivity.
    + left. exists InvestorDashboard. reflexivity.
    + right. left. reflexivity.
  - right. right. exact N.
Qed.

(** One turn of the menu: the operation chosen, on the world left by the
    menu text and the choice; an exception of the operation ends the loop. *)
Lemma menu_runs_choice n w o rest :
  stdin w = choice_of o :: rest ->
  menu (S n) w =
  match run o (wrote menu_text (consumed rest w)) with
  | Return _ w' => menu n w'
  | Raise e w' => Some (Raise e w')
  end.
Proof.
  intro E. cbn [menu]. rewrite (menu_turn_dispatch _ E), dispatch_op.
  unfold bind, ret. destruct (run o _); reflexivity.
Qed.

Lemma menu_exits n w rest :
  stdin w = "7" :: rest ->
  menu (S n) w
  = Some (Return tt (wrote (menu_text ++ ["👋 Goodbye!"]) (consumed rest w))).
Proof.
  intro E. cbn [menu]. rewrite (menu_turn_dispatch _ E), dispatch_exit, wrote_app.
  reflexivity.
Qed.

Lemma menu_no_input n w :
  stdin w = [] -> menu (S n) w = Some (Raise EOFError (wrote menu_text w)).
Proof. intro E. cbn [menu]. rewrite (menu_turn_no_input _ E). reflexivity. Qed.

Lemma menu_skips_unknown n w choice rest :
  stdin w = choice :: rest ->
  ~ In choice ["1"; "2"; "3"; "4"; "5"; "6"; "7"] ->
  menu (S n) w
  = menu n (wrote (menu_text ++ ["❌ Invalid choice. Try again."]) (consumed rest w)).
Proof.
  intros E N. cbn [menu]. rewrite (menu_turn_dispatch _ E), (not_in_choices N).
  unfold bind, ret. rewrite print_spec, wrote_app. reflexivity.
Qed.

(** Whatever every operation keeps of the disk and the entropy, a whole
    session keeps. *)
Lemma menu_invariant (P : Disk -> nat -> Prop) :
  (forall o w, P (disk w) (entropy w) ->
               P (disk (world_of (run o w))) (entropy (world_of (run o w)))) ->
  forall n w out,
    P (disk w) (entropy w) -> menu n w = Some out ->
    P (disk (world_of out)) (entropy (world_of out)).
Proof.
  intros Step. induction n as [|n IH]; intros w out Pw R; [discriminate|].
  destruct (stdin w) as [|choice rest] eqn:E.
  { rewrite (menu_no_input _ _ E) in R. inversion R. exact Pw. }
  destruct (choice_cases choice) as [[o ->]|[->|N]].
  - rewrite (menu_runs_choice _ _ _ E) in R.
    pose proof (Step o (wrote menu_text (consumed rest w)) Pw) as Pw'.
    destruct (run o (wrote menu_text (consumed rest w))) as [[] w'|e w'];
      cbn [world_of] in Pw'.
    + exact (IH _ _ Pw' R).
    + inversion R. exact Pw'.
  - rewrite (menu_exits _ _ E) in R. inversion R. exact Pw.
  - rewrite (menu_skips_unknown _ _ E N) in R.
    eapply IH; [|exact R]. exact Pw.
Qed.

Lemma menu_raises : forall n w e w',
  menu n w = Some (Raise e w') ->
  In e [EOFError; ValueError; OverflowError; ZeroDivisionError].
Proof.
  induction n as [|n IH]; intros w e w' R; [discriminate|].
  destruct (stdin w) as [|choice rest] eqn:E.
  { rewrite (menu_no_input _ _ E) in R. inversion R. simpl; auto. }
  destruct (choice_cases choice) as [[o ->]|[->|N]].
  - rewrite (menu_runs_choice _ _ _ E) in R.
    destruct (run o (wrote menu_text (consumed rest w))) as [[] v|e' v] eqn:Ro.
    + exact (IH _ _ _ R).
    + inversion R; subst. apply run_raises_only in Ro.
      destruct o; simpl in Ro; simpl; intuition.
  - rewrite (menu_exits _ _ E) in R. discriminate.
  - rewrite (menu_skips_unknown _ _ E N) in R. exact (IH _ _ _ R).
Qed.

End Session.

(* ================================================================= *)
(** ** Listings, schedules and processing dates *)

Section Further.

Context {py : Runtime}.

(** *** A listing that goes through *)

Lemma list_loan_ok w borrower_id a r d rest amount rate duration :
  stdin w = borrower_id :: a :: r :: d :: rest ->
  has_user borrower_id "borrower" (users (disk w)) = true ->
  float_of_str a = Some amount -> float_of_str r = Some rate ->
  int_of_str d = Some duration ->
  list_loan w = Return tt (loan_listed borrower_id amount rate duration rest w).
Proof.
  intros E H A R D. rewrite (list_loan_reads _ E H).
  rewrite (@listing_ok _ borrower_id
             (wrote ["Enter your user ID: "] (consumed (a :: r :: d :: rest) w))
             a r d rest amount rate duration eq_refl A R D).
  f_equal. unfold loan_listed. cbn. rewrite <- app_assoc. reflexivity.
Qed.

(** *** Prefixes of a schedule *)

Lemma seq_prefix : forall p s n k q,
  seq s n = p ++ k :: q ->
  p = seq s (List.length p) /\ k = (s + List.length p)%nat /\
  (List.length p < n)%nat.
Proof.
  induction p as [|x p IH]; intros s n k q E.
  - destruct n as [|n]; [discriminate|]. cbn in E. injection E as <- _.
    cbn. repeat split; lia.
  - destruct n as [|n]; [discriminate|]. cbn in E. injection E as <- E.
    destruct (IH _ _ _ _ E) as (P & K & L).
    cbn [List.length seq]. rewrite <- P. repeat split; lia.
Qed.

Lemma range_prefix d pre i post :
  range d = pre ++ i :: post ->
  pre = range (Z.of_nat (List.length pre)) /\
  i = Z.of_nat (List.length pre) /\ Z.of_nat (List.length pre) < d.
Proof.
  unfold range. intro E.
  apply map_eq_app in E as (p & rest & E & <- & E2).
  apply map_eq_cons in E2 as (k & q & -> & <- & _).
  apply seq_prefix in E as (P & K & L).
  rewrite length_map, Nat2Z.id, <- P. cbn in K. subst k.
  split; [reflexivity|]. split; [reflexivity|]. lia.
Qed.

(** *** A funded loan is not open *)

Lemma open_loan_marked loan_id ls :
  open_loan loan_id (map (mark_funded loan_id) ls) = None.
Proof.
  apply open_loan_none. intros l I Id.
  apply in_map_iff in I as (l0 & <- & _). unfold mark_funded in *.
  destruct (String.eqb (Loan.loan_id l0) loan_id) eqn:Q.
  - simpl. discriminate.
  - apply String.eqb_neq in Q. exfalso. exact (Q Id).
Qed.

(** [invest] on a loan table without an open loan of the id typed. *)
Lemma invest_not_open w investor_id loan_id rest :
  stdin w = investor_id :: loan_id :: rest ->
  open_loan loan_id (loans (disk w)) = None ->
  exists w', invest w = Return tt w' /\ disk w' = disk w /\ fs_log w' = fs_log w.
Proof.
  intros E O.
  destruct (has_user investor_id "investor" (users (disk w))) eqn:H.
  - rewrite (invest_bad_loan _ E H O). eexists. split; [reflexivity|].
    split; reflexivity.
  - rewrite (invest_bad_investor _ E H). eexists. split; [reflexivity|].
    split; reflexivity.
Qed.

(** *** Processing by date *)

Lemma process_repayments_disk w :
  disk (world_of (process_repayments w))
  = mkDisk (users (disk w)) (loans (disk w))
           (map (settle (Datetime.strftime (clock w))) (repayments (disk w))).
Proof.
  rewrite process_repayments_spec. cbv zeta.
  destruct (existsb _ _) eqn:X.
  - reflexivity.
  - rewrite (settle_not_due _ _ X). cbn [world_of wrote disk].
    apply eq_sym, disk_eta.
Qed.

(** On a row due on a calendar day the test of line 123 compares days. *)
Lemma settle_on_day t day r :
  Datetime.valid t -> Datetime.valid day ->
  Repayment.due_date r = Datetime.strftime day ->
  settle (Datetime.strftime t) r
  = if (day <=? t) && String.eqb (Repayment.paid r) "False"
    then Repayment.set_paid "True" r else r.
Proof.
  intros Vt Vd E. unfold settle, is_due. rewrite E, (strftime_le Vd Vt).
  reflexivity.
Qed.

Lemma settle_twice t1 t2 r :
  Datetime.valid t1 -> Datetime.valid t2 -> t1 <= t2 -> dated r ->
  settle (Datetime.strftime t2) (settle (Datetime.strftime t1) r)
  = settle (Datetime.strftime t2) r.
Proof.
  intros V1 V2 L (day & Vd & E).
  rewrite (@settle_on_day t1 day r V1 Vd E).
  destruct ((day <=? t1) && String.eqb (Repayment.paid r) "False") eqn:Due.
  - apply andb_true_iff in Due as [D P].
    rewrite (@settle_on_day t2 day r V2 Vd E), P.
    replace (day <=? t2) with true by (symmetry; apply Z.leb_le; apply Z.leb_le in D; lia).
    cbn [andb]. unfold settle, is_due. cbn. rewrite andb_false_r. reflexivity.
  - reflexivity.
Qed.

Lemma settle_twice_all t1 t2 rs :
  Datetime.valid t1 -> Datetime.valid t2 -> t1 <= t2 -> Forall dated rs ->
  map (settle (Datetime.strftime t2)) (map (settle (Datetime.strftime t1)) rs)
  = map (settle (Datetime.strftime t2)) rs.
Proof.
  intros V1 V2 L D. rewrite map_map. apply map_ext_in. intros r I.
  apply settle_twice; try assumption.
  rewrite Forall_forall in D. apply D. exact I.
Qed.

End Further.

(* ================================================================= *)
(** ** Further properties of the operations *)

Section Listing.

Context {py : Runtime}.

(** X1 ([list_loan], lines 59-77).  When the id typed is that of a stored
    borrower and the amount, the rate and the duration typed are numbers,
    [list_loan] returns and appends exactly one loan: its id is the next
    id drawn, its borrower the id typed, its amount, rate and duration the
    numbers read, written as Python prints them, its status ['open'].  The
    users and the repayments are untouched, the one file operation is an
    append to the loans file, the four lines are consumed and the last
    line printed carries the id. *)
Theorem list_loan_appends_open_loan
        w borrower_id a r d rest amount rate duration :
  stdin w = borrower_id :: a :: r :: d :: rest ->
  has_user borrower_id "borrower" (users (disk w)) = true ->
  float_of_str a = Some amount -> float_of_str r = Some rate ->
  int_of_str d = Some duration ->
  exists w',
    list_loan w = Return tt w' /\
    let loan_id := Str.prefix 8 (uuid4 (entropy w)) in
    loans (disk w')
    = loans (disk w)
        ++ [Loan.mk loan_id borrower_id (str_of_float amount) (str_of_float rate)
                    (str_of_int duration) "open"] /\
    users (disk w') = users (disk w) /\
    repayments (disk w') = repayments (disk w) /\
    fs_log w' = fs_log w ++ [Appended loans_file] /\
    stdin w' = rest /\ entropy w' = S (entropy w) /\
    last (stdout w') "" = Str.concat ["📌 Loan listed with ID: "; loan_id].
Proof.
  intros E H A R D. eexists. split; [exact (list_loan_ok _ E H A R D)|].
  cbv zeta. unfold loan_listed. cbn [disk loans users repayments fs_log stdin
                                     entropy stdout].
  repeat (split; [reflexivity|]).
  rewrite last_of_app by discriminate. reflexivity.
Qed.

(** X2 ([list_loan], lines 59-77).  In every other case (no line left, an
    id that is not a stored borrower's, an entry that is not a number)
    [list_loan] writes no file and draws no id, and if it raises, the
    exception is [EOFError] or [ValueError]. *)
Theorem list_loan_writes_nothing_otherwise w :
  let w' := world_of (list_loan w) in
  (exists borrower_id a r d rest,
     stdin w = borrower_id :: a :: r :: d :: rest /\
     has_user borrower_id "borrower" (users (disk w)) = true /\
     float_of_str a <> None /\ float_of_str r <> None /\ int_of_str d <> None) \/
  (disk w' = disk w /\ fs_log w' = fs_log w /\ entropy w' = entropy w /\
   forall e v, list_loan w = Raise e v -> e = EOFError \/ e = ValueError).
Proof.
  cbv zeta.
  destruct (list_loan_outcomes w)
    as [([Sd Sl] & Se & Only)
       |(b & a & r & d & rest & am & ra & du & E & H & A & R & D & _)].
  - right. split; [exact Sd|]. split; [exact Sl|]. split; [exact Se|].
    intros e v X. destruct (Only _ _ X) as [<-|[<-|[]]]; auto.
  - left. exists b, a, r, d, rest. rewrite A, R, D.
    repeat (split; [assumption || discriminate|]). discriminate.
Qed.


(** X4 ([view_loans], lines 79-86).  [view_loans] always returns, writes
    no file and reads no line.  It prints the one line that there is no
    open loan when no row has status ['open']; otherwise the heading and
    one line per open row, in table order.  The line of the loan that
    [invest] would pick for an id is among them. *)
Theorem view_loans_shows_open_loans w :
  exists w' lines,
    view_loans w = Return tt w' /\
    disk w' = disk w /\ fs_log w' = fs_log w /\ stdin w' = stdin w /\
    entropy w' = entropy w /\ stdout w' = stdout w ++ lines /\
    let offered := filter (fun l => String.eqb (Loan.status l) "open")
                          (loans (disk w)) in
    (offered = [] -> lines = ["No open loans available."]) /\
    (offered <> [] ->
     lines = Str.concat [nl; "📊 Open Loans:"] :: map loan_line offered) /\
    (forall l, In l (loans (disk w)) -> Loan.status l = "open" ->
               In (loan_line l) lines) /\
    (forall loan_id loan, open_loan loan_id (loans (disk w)) = Some loan ->
                          In (loan_line loan) lines).
Proof.
  exists (wrote (view_lines (loans (disk w))) w), (view_lines (loans (disk w))).
  split; [apply view_loans_spec|]. repeat (split; [reflexivity|]).
  cbv zeta. fold is_open.
  assert (forall l, In l (loans (disk w)) -> Loan.status l = "open" ->
                    In (loan_line l) (view_lines (loans (disk w)))) as Shown.
  { intros l I S. unfold view_lines.
    assert (In l (filter is_open (loans (disk w)))) as F.
    { apply filter_In. split; [exact I|]. unfold is_open. rewrite S. reflexivity. }
    destruct (filter is_open (loans (disk w))) as [|x xs]; [inversion F|].
    right. exact (in_map loan_line _ _ F). }
  split; [|split; [|split]].
  - intro N. unfold view_lines. rewrite N. reflexivity.
  - intro N. unfold view_lines.
    destruct (filter is_open (loans (disk w))); [exfalso; apply N|]; reflexivity.
  - exact Shown.
  - intros loan_id loan O. apply open_loan_some in O as (I & _ & S).
    exact (Shown _ I S).
Qed.

End Listing.

Lemma list_loan_appends_open_loan_witness :
  let w := mkWorld (mkDisk [Scenario.alice; Scenario.bob] [] []) []
                   ["9e3779b1"; "1000"; "10"; "2"; "7"] [] Scenario.day0 2 in
  has_user "9e3779b1" "borrower" (users (disk w)) = true /\
  exists w', list_loan w = Return tt w' /\ loans (disk w') = [Scenario.listed] /\
             stdin w' = ["7"].
Proof.
  intro w.
  assert (has_user "9e3779b1" "borrower" (users (disk w)) = true) as H
    by (vm_compute; reflexivity).
  split; [exact H|].
  destruct (@list_loan_appends_open_loan CPython.runtime w "9e3779b1" "1000" "10" "2" ["7"]
              (CPython.of_ratio false 1000 1) (CPython.of_ratio false 10 1) 2
              eq_refl H)
    as (w' & R & L & _ & _ & _ & S & _);
    [vm_compute; reflexivity|vm_compute; reflexivity|vm_compute; reflexivity|].
  exists w'. split; [exact R|]. split; [|exact S].
  rewrite L. vm_compute. reflexivity.
Defined.


Section Funding.

Context {py : Runtime}.

Lemma range_nth d i k :
  nth_error (range d) i = Some k -> k = Z.of_nat i /\ In k (range d).
Proof.
  intro E. split; [|exact (nth_error_In _ _ E)].
  assert (i < List.length (range d))%nat as L
    by (apply nth_error_Some; rewrite E; discriminate).
  apply (nth_error_nth _ _ 0) in E. rewrite <- E. unfold range in *.
  rewrite length_map, length_seq in L.
  change 0 with (Z.of_nat 0). rewrite map_nth, seq_nth by exact L.
  reflexivity.
Qed.

Lemma schedule_days w d k :
  Forall (fun i => Datetime.plus_days (clock w) (30 * (i + 1)) <> None) (range d) ->
  In k (range d) -> Datetime.valid (clock w + 30 * (k + 1)).
Proof.
  intros F I. rewrite Forall_forall in F. specialize (F _ I).
  destruct (Datetime.plus_days (clock w) (30 * (k + 1))) as [x|] eqn:E;
    [|exfalso; apply F; reflexivity].
  pose proof (plus_days_valid _ _ E) as V.
  apply plus_days_some in E. rewrite <- E. exact V.
Qed.

(** X5 ([invest], lines 88-116).  An [invest] that raises never touches
    the users or the loans: no loan is marked funded and the loan table is
    not rewritten.  Either nothing at all was written, or the exception is
    the [OverflowError] of a due date beyond the last day of the calendar:
    then the installments before that date were already appended, the loan
    is still open, and the rows written are the first ones of its
    schedule, fewer than its duration. *)
Theorem invest_failure_leaves_loans_untouched w e w' :
  invest w = Raise e w' ->
  In e [EOFError; ValueError; OverflowError; ZeroDivisionError] /\
  users (disk w') = users (disk w) /\ loans (disk w') = loans (disk w) /\
  exists written,
    repayments (disk w') = repayments (disk w) ++ written /\
    fs_log w' = fs_log w ++ repeat (Appended repayments_file) (List.length written) /\
    (written <> [] ->
     e = OverflowError /\
     exists investor_id loan_id rest loan d mp,
       stdin w = investor_id :: loan_id :: rest /\
       open_loan loan_id (loans (disk w')) = Some loan /\
       payment_formula loan d mp /\
       Z.of_nat (List.length written) < d /\
       written = map (installment loan_id investor_id mp (clock w))
                     (range (Z.of_nat (List.length written))) /\
       Datetime.plus_days (clock w) (30 * (Z.of_nat (List.length written) + 1))
       = None).
Proof.
  intro R.
  destruct (invest_outcomes w)
    as [([Sd Sl] & Only)
       |(i & l & rest & loan & d & mp & E & H & O & F & [Ok|(pre & k & post & Ex & No & Ov)])].
  - rewrite R in Sd, Sl. cbn [world_of] in Sd, Sl.
    split; [exact (Only _ _ R)|]. rewrite Sd. split; [reflexivity|].
    split; [reflexivity|]. exists []. rewrite !app_nil_r.
    split; [reflexivity|]. split; [exact Sl|].
    intro N. exfalso. apply N. reflexivity.
  - rewrite Ok in R. discriminate.
  - rewrite Ov in R. inversion R; subst e w'. clear R.
    split; [simpl; auto|]. split; [reflexivity|]. split; [reflexivity|].
    exists (map (installment l i mp (clock w)) pre).
    split; [reflexivity|]. rewrite length_map. split; [reflexivity|].
    intros _. split; [reflexivity|].
    exists i, l, rest, loan, d, mp.
    apply range_prefix in Ex as (P & K & L). subst k.
    split; [exact E|]. split; [exact O|]. split; [exact F|].
    split; [exact L|]. split; [rewrite <- P; reflexivity|exact No].
Qed.

(** X6 ([invest], lines 97-116).  A loan is funded once: after an [invest]
    that returned having found the loan open, no row with that id is open,
    and any later [invest] for that id on that loan table, by whatever
    investor, returns without writing anything. *)
Theorem invest_funds_a_loan_once w w' investor_id loan_id rest loan :
  stdin w = investor_id :: loan_id :: rest ->
  has_user investor_id "investor" (users (disk w)) = true ->
  open_loan loan_id (loans (disk w)) = Some loan ->
  invest w = Return tt w' ->
  open_loan loan_id (loans (disk w')) = None /\
  (forall l, In l (loans (disk w')) -> Loan.loan_id l = loan_id ->
             Loan.status l = "funded") /\
  forall v other rest2,
    loans (disk v) = loans (disk w') ->
    stdin v = other :: loan_id :: rest2 ->
    exists v', invest v = Return tt v' /\ disk v' = disk v /\ fs_log v' = fs_log v.
Proof.
  intros E H O R.
  destruct (invest_funded _ E H O R) as (d & mp & _ & _ & ->).
  cbn [funded disk loans]. split; [apply open_loan_marked|]. split.
  - intros l I Id. apply in_map_iff in I as (l0 & <- & _).
    unfold mark_funded in *.
    destruct (String.eqb (Loan.loan_id l0) loan_id) eqn:Q; [reflexivity|].
    apply String.eqb_neq in Q. exfalso. exact (Q Id).
  - intros v other rest2 L Ev. apply (invest_not_open _ Ev).
    rewrite L. apply open_loan_marked.
Qed.

(** X7 ([invest], lines 102-110).  The installments of a funding are
    appended in the order of their due dates: row [i] is due 30 * (i + 1)
    days after the day of the funding, a day of the calendar, and for two
    rows the earlier one has the strictly smaller due date in the text
    order that [process_repayments] compares with. *)
Theorem invest_schedule_is_increasing w w' investor_id loan_id rest loan :
  stdin w = investor_id :: loan_id :: rest ->
  has_user investor_id "investor" (users (disk w)) = true ->
  open_loan loan_id (loans (disk w)) = Some loan ->
  invest w = Return tt w' ->
  exists new,
    repayments (disk w') = repayments (disk w) ++ new /\
    (forall i r, nth_error new i = Some r ->
       Datetime.valid (clock w + 30 * (Z.of_nat i + 1)) /\
       Repayment.due_date r = Datetime.strftime (clock w + 30 * (Z.of_nat i + 1))) /\
    (forall i j ri rj,
       nth_error new i = Some ri -> nth_error new j = Some rj -> (i < j)%nat ->
       Str.le (Repayment.due_date ri) (Repayment.due_date rj) = true /\
       Str.le (Repayment.due_date rj) (Repayment.due_date ri) = false).
Proof.
  intros E H O R.
  destruct (invest_funded _ E H O R) as (d & mp & _ & F & ->).
  exists (map (installment loan_id investor_id mp (clock w)) (range d)).
  split; [reflexivity|].
  assert (forall i r,
            nth_error (map (installment loan_id investor_id mp (clock w)) (range d)) i
            = Some r ->
            Datetime.valid (clock w + 30 * (Z.of_nat i + 1)) /\
            Repayment.due_date r = Datetime.strftime (clock w + 30 * (Z.of_nat i + 1)))
    as Row.
  { intros i r N. rewrite nth_error_map in N.
    destruct (nth_error (range d) i) as [k|] eqn:K; [|discriminate].
    injection N as <-. apply range_nth in K as [-> I].
    split; [|reflexivity]. exact (@schedule_days _ d _ F I). }
  split; [exact Row|].
  intros i j ri rj Ni Nj L.
  destruct (Row _ _ Ni) as [Vi ->]. destruct (Row _ _ Nj) as [Vj ->].
  rewrite (strftime_le Vi Vj), (strftime_le Vj Vi).
  split; [apply Z.leb_le|apply Z.leb_gt]; lia.
Qed.

(** X8 ([invest] then [process_repayments], lines 102-110 and 118-130).
    A processing run on the table a funding left marks exactly the
    installments whose 30 * (i + 1) days have passed: run on the day [t],
    it leaves installment [i] paid when the day of the funding plus
    30 * (i + 1) is at most [t] and unpaid otherwise, the other fields as
    they were written. *)
Theorem installments_are_paid_from_their_due_day
        w w' investor_id loan_id rest loan v :
  stdin w = investor_id :: loan_id :: rest ->
  has_user investor_id "investor" (users (disk w)) = true ->
  open_loan loan_id (loans (disk w)) = Some loan ->
  invest w = Return tt w' ->
  disk v = disk w' -> Datetime.valid (clock v) ->
  exists d mp,
    payment_formula loan d mp /\
    repayments (disk (world_of (process_repayments v)))
    = map (settle (Datetime.strftime (clock v))) (repayments (disk w))
        ++ map (fun i =>
                  Repayment.mk loan_id investor_id (str_of_float mp)
                    (Datetime.strftime (clock w + 30 * (i + 1)))
                    (if clock w + 30 * (i + 1) <=? clock v then "True" else "False"))
               (range d).
Proof.
  intros E H O R Dv Vv.
  destruct (invest_funded _ E H O R) as (d & mp & F & Days & ->).
  exists d, mp. split; [exact F|].
  rewrite process_repayments_disk, Dv. cbn [funded disk repayments wrote consumed].
  rewrite map_app, map_map. f_equal. apply map_ext_in. intros k I.
  change (clock (wrote ("Enter your user ID: " :: view_lines (loans (disk w))
                          ++ ["Enter Loan ID to invest in: "]) (consumed rest w)))
    with (clock w).
  rewrite (@settle_on_day (clock v) (clock w + 30 * (k + 1))
             (installment loan_id investor_id mp (clock w) k) Vv
             (@schedule_days _ d _ Days I) eq_refl).
  unfold installment. cbn [Repayment.paid]. cbn [String.eqb Ascii.eqb].
  destruct (clock w + 30 * (k + 1) <=? clock v); reflexivity.
Qed.

(** X9 ([process_repayments], lines 118-130).  Processing catches up: on
    a data folder the program produced, a run on one day followed by a run
    on a later day leaves the files that the later run alone would have
    left. *)
Theorem process_repayments_catches_up w v u :
  reachable (disk w) ->
  Datetime.valid (clock w) -> Datetime.valid (clock v) -> clock w <= clock v ->
  disk v = disk (world_of (process_repayments w)) ->
  disk u = disk w -> clock u = clock v ->
  disk (world_of (process_repayments v)) = disk (world_of (process_repayments u)).
Proof.
  intros Re Vw Vv L Dv Du Cu.
  rewrite !process_repayments_disk, Dv, Du, Cu, process_repayments_disk.
  cbn [users loans repayments]. f_equal.
  apply settle_twice_all; try assumption.
  apply reachable_dated. exact Re.
Qed.

End Funding.


Lemma invest_failure_leaves_loans_untouched_witness :
  let w := boot Scenario.market Scenario2.doomsday ["3c6ef362"; "daa66d13"; "7"] in
  let w' := world_of (invest w) in
  invest w = Raise OverflowError w' /\
  loans (disk w') = [Scenario.listed] /\
  List.length (repayments (disk w')) = 1%nat /\
  exists written, repayments (disk w') = repayments (disk w) ++ written /\
                  fs_log w' = fs_log w ++ repeat (Appended repayments_file)
                                                 (List.length written).
Proof.
  intros w w'.
  assert (invest w = Raise OverflowError w') as R by (vm_compute; reflexivity).
  split; [exact R|]. split; [vm_compute; reflexivity|].
  split; [vm_compute; reflexivity|].
  destruct (invest_failure_leaves_loans_untouched w R)
    as (_ & _ & _ & written & Rp & Lg & _).
  exists written. split; assumption.
Defined.

Lemma invest_funds_a_loan_once_witness :
  let w := boot Scenario.market Scenario.day0 ["3c6ef362"; "daa66d13"; "7"] in
  let w' := world_of (invest w) in
  has_user "3c6ef362" "investor" (users (disk w)) = true /\
  open_loan "daa66d13" (loans (disk w)) = Some Scenario.listed /\
  invest w = Return tt w' /\
  open_loan "daa66d13" (loans (disk w')) = None.
Proof.
  intros w w'.
  assert (has_user "3c6ef362" "investor" (users (disk w)) = true) as H
    by (vm_compute; reflexivity).
  assert (open_loan "daa66d13" (loans (disk w)) = Some Scenario.listed) as O
    by (vm_compute; reflexivity).
  assert (invest w = Return tt w') as R by (vm_compute; reflexivity).
  split; [exact H|]. split; [exact O|]. split; [exact R|].
  exact (proj1 (invest_funds_a_loan_once w (rest := ["7"]) eq_refl H O R)).
Defined.

Lemma invest_schedule_is_increasing_witness :
  let w := boot Scenario.market Scenario.day0 ["3c6ef362"; "daa66d13"; "7"] in
  let w' := world_of (invest w) in
  has_user "3c6ef362" "investor" (users (disk w)) = true /\
  open_loan "daa66d13" (loans (disk w)) = Some Scenario.listed /\
  invest w = Return tt w' /\
  repayments (disk w') = [Scenario.first_due; Scenario.second_due] /\
  exists new,
    repayments (disk w') = repayments (disk w) ++ new /\
    forall i j ri rj,
      nth_error new i = Some ri -> nth_error new j = Some rj -> (i < j)%nat ->
      Str.le (Repayment.due_date ri) (Repayment.due_date rj) = true /\
      Str.le (Repayment.due_date rj) (Repayment.due_date ri) = false.
Proof.
  intros w w'.
  assert (has_user "3c6ef362" "investor" (users (disk w)) = true) as H
    by (vm_compute; reflexivity).
  assert (open_loan "daa66d13" (loans (disk w)) = Some Scenario.listed) as O
    by (vm_compute; reflexivity).
  assert (invest w = Return tt w') as R by (vm_compute; reflexivity).
  split; [exact H|]. split; [exact O|]. split; [exact R|].
  split; [vm_compute; reflexivity|].
  destruct (invest_schedule_is_increasing w (rest := ["7"]) eq_refl H O R)
    as (new & Rp & _ & Ord).
  exists new. split; assumption.
Defined.

Lemma installments_are_paid_from_their_due_day_witness :
  let w := boot Scenario.market Scenario.day0 ["3c6ef362"; "daa66d13"; "7"] in
  let w' := world_of (invest w) in
  let v := boot Scenario.ledger (Scenario.day0 + 45) ["7"] in
  has_user "3c6ef362" "investor" (users (disk w)) = true /\
  open_loan "daa66d13" (loans (disk w)) = Some Scenario.listed /\
  invest w = Return tt w' /\ disk v = disk w' /\ Datetime.valid (clock v) /\
  repayments (disk (world_of (process_repayments v)))
  = [Repayment.set_paid "True" Scenario.first_due; Scenario.second_due] /\
  exists d mp,
    repayments (disk (world_of (process_repayments v)))
    = map (settle (Datetime.strftime (clock v))) (repayments (disk w))
        ++ map (fun i =>
                  Repayment.mk "daa66d13" "3c6ef362" (str_of_float mp)
                    (Datetime.strftime (clock w + 30 * (i + 1)))
                    (if clock w + 30 * (i + 1) <=? clock v then "True" else "False"))
               (range d).
Proof.
  intros w w' v.
  assert (has_user "3c6ef362" "investor" (users (disk w)) = true) as H
    by (vm_compute; reflexivity).
  assert (open_loan "daa66d13" (loans (disk w)) = Some Scenario.listed) as O
    by (vm_compute; reflexivity).
  assert (invest w = Return tt w') as R by (vm_compute; reflexivity).
  assert (disk v = disk w') as Dv by (vm_compute; reflexivity).
  assert (Datetime.valid (clock v)) as Vv by (vm_compute; split; discriminate).
  split; [exact H|]. split; [exact O|]. split; [exact R|]. split; [exact Dv|].
  split; [exact Vv|]. split; [vm_compute; reflexivity|].
  destruct (installments_are_paid_from_their_due_day
              w (rest := ["7"]) v eq_refl H O R Dv Vv) as (d & mp & _ & Rp).
  exists d, mp. exact Rp.
Defined.

Lemma process_repayments_catches_up_witness :
  let w := boot Scenario.ledger (Scenario.day0 + 31) ["7"] in
  let v := boot (disk (world_of (process_repayments w))) (Scenario.day0 + 61) ["7"] in
  let u := boot Scenario.ledger (Scenario.day0 + 61) ["7"] in
  reachable (disk w) /\
  repayments (disk v)
  = [Repayment.set_paid "True" Scenario.first_due; Scenario.second_due] /\
  disk (world_of (process_repayments u)) = Scenario.settled /\
  disk (world_of (process_repayments v)) = disk (world_of (process_repayments u)).
Proof.
  intros w v u.
  assert (reachable (disk w)) as Re by exact ledger_reachable.
  split; [exact Re|]. split; [vm_compute; reflexivity|].
  split; [vm_compute; reflexivity|].
  apply (@process_repayments_catches_up _ w v u Re).
  - vm_compute; split; discriminate.
  - vm_compute; split; discriminate.
  - vm_compute; discriminate.
  - reflexivity.
  - reflexivity.
  - reflexivity.
Defined.


Section Sessions.

Context {py : Runtime}.


(** X11 ([investor_dashboard], lines 132-137).  With an id typed, the
    dashboard raises exactly when one of the installments of that investor
    carries a payment that is not a number, and then the exception is
    [ValueError]: only the prompt was printed, no total.  Rows of other
    investors are never converted.  However the dashboard ends, it writes
    no file. *)
Theorem investor_dashboard_dies_on_bad_payment w investor_id rest :
  stdin w = investor_id :: rest ->
  let mine := filter (fun r => String.eqb (Repayment.investor_id r) investor_id)
                     (repayments (disk w)) in
  ((exists r, In r mine /\ float_of_str (Repayment.monthly_payment r) = None) <->
   (exists e w', investor_dashboard w = Raise e w')) /\
  (forall e w', investor_dashboard w = Raise e w' ->
     e = ValueError /\ disk w' = disk w /\ fs_log w' = fs_log w /\
     stdin w' = rest /\ stdout w' = stdout w ++ ["Enter your user ID: "]) /\
  disk (world_of (investor_dashboard w)) = disk w /\
  fs_log (world_of (investor_dashboard w)) = fs_log w.
Proof.
  intros E mine.
  change mine with (filter (of_investor investor_id) (repayments (disk w))).
  clear mine.
  destruct (investor_dashboard_cases _ E) as [[B V]|[NB [line Ok]]].
  - split; [split|split].
    + intros _. eexists _, _. exact V.
    + intros _. apply Exists_exists in B. exact B.
    + intros e w' R. rewrite V in R. inversion R; subst.
      repeat split; reflexivity.
    + rewrite V. split; reflexivity.
  - split; [split|split].
    + intros (r & I & Br). exfalso. apply NB. apply Exists_exists.
      exists r. split; assumption.
    + intros (e & w' & R). rewrite Ok in R. discriminate.
    + intros e w' R. rewrite Ok in R. discriminate.
    + rewrite Ok. split; reflexivity.
Qed.


(** X13 (data folders the program produces).  References between the
    tables always resolve: the borrower of every loan is a stored user
    with role ['borrower']; the investor of every installment is a stored
    user with role ['investor'], its loan id is the id of a stored loan,
    and its flag is ['False'] or ['True'].  This holds also after an
    operation that died on an exception. *)
Theorem reachable_references_resolve d :
  reachable d ->
  Forall (fun l => has_user (Loan.borrower_id l) "borrower" (users d) = true)
         (loans d) /\
  Forall (fun r =>
            has_user (Repayment.investor_id r) "investor" (users d) = true /\
            In (Repayment.loan_id r) (map Loan.loan_id (loans d)) /\
            (Repayment.paid r = "False" \/ Repayment.paid r = "True"))
         (repayments d).
Proof.
  intro Re. change (references_ok d).
  induction Re as [|w o _ IH].
  - split; constructor.
  - apply run_references. exact IH.
Qed.

(** X14 (installment rows, any operation).  Whatever the operation and
    its input, and however it ends, the installments that were on disk
    stay in place, each unchanged or moved from ['False'] to ['True'], and
    the rows appended after them are unpaid.  Only [process_repayments]
    changes a row and only [invest] appends one; no row is removed,
    reordered or set back to unpaid. *)
Theorem installment_state_machine o w :
  exists old new,
    repayments (disk (world_of (run o w))) = old ++ new /\
    Forall2 (fun r r' =>
               r' = r \/
               (Repayment.paid r = "False" /\ r' = Repayment.set_paid "True" r))
            (repayments (disk w)) old /\
    Forall (fun r => Repayment.paid r = "False") new /\
    (old <> repayments (disk w) -> o = ProcessRepayments) /\
    (new <> [] -> o = Invest).
Proof.
  change (exists old new,
            repayments (disk (world_of (run o w))) = old ++ new /\
            Forall2 repayment_step (repayments (disk w)) old /\
            Forall (fun r => Repayment.paid r = "False") new /\
            (old <> repayments (disk w) -> o = ProcessRepayments) /\
            (new <> [] -> o = Invest)).
  assert (forall v, repayments (disk v) = repayments (disk w) ->
            exists old new,
              repayments (disk v) = old ++ new /\
              Forall2 repayment_step (repayments (disk w)) old /\
              Forall (fun r => Repayment.paid r = "False") new /\
              (old <> repayments (disk w) -> o = ProcessRepayments) /\
              (new <> [] -> o = Invest)) as Same.
  { intros v E. exists (repayments (disk w)), []. rewrite app_nil_r.
    split; [exact E|]. split; [apply repayment_step_refl|].
    split; [constructor|]. split; intro N; exfalso; apply N; reflexivity. }
  destruct o; cbn [run].
  - apply Same. apply register_user_same_repayments.
  - apply Same. apply list_loan_same_repayments.
  - apply Same. destruct (view_loans_same_files w) as [-> _]. reflexivity.
  - destruct (invest_outcomes w)
      as [([Sd _] & _)|(i & l & rest & loan & d & mp & _ & _ & _ & _ & [Ok|(pre & k & post & _ & _ & Ov)])].
    + apply Same. rewrite Sd. reflexivity.
    + rewrite Ok. cbn [world_of].
      exists (repayments (disk w)),
             (map (installment l i mp (clock w)) (range d)).
      split; [reflexivity|]. split; [apply repayment_step_refl|].
      split; [apply installments_unpaid|].
      split; [intro N; exfalso; apply N; reflexivity|reflexivity].
    + rewrite Ov. cbn [world_of].
      exists (repayments (disk w)),
             (map (installment l i mp (clock w)) pre).
      split; [reflexivity|]. split; [apply repayment_step_refl|].
      split; [apply installments_unpaid|].
      split; [intro N; exfalso; apply N; reflexivity|reflexivity].
  - rewrite process_repayments_spec. cbv zeta.
    destruct (existsb (is_due (Datetime.strftime (clock w))) (repayments (disk w))).
    + cbn [world_of disk repayments].
      exists (map (settle (Datetime.strftime (clock w))) (repayments (disk w))), [].
      rewrite app_nil_r. split; [reflexivity|]. split; [apply settle_steps|].
      split; [constructor|]. split; [reflexivity|].
      intro N; exfalso; apply N; reflexivity.
    + apply Same. reflexivity.
  - apply Same. destruct (investor_dashboard_same_files w) as [-> _]. reflexivity.
Qed.

(** X15 (the users table, any operation).  Users are created by
    registration and never changed or removed: an operation leaves the
    users table as it was, or it is a [register_user] that returned and
    appended one row, with the id just drawn and a role that is
    ['borrower'] or ['investor']. *)
Theorem users_are_only_added o w :
  let w' := world_of (run o w) in
  users (disk w') = users (disk w) \/
  (o = RegisterUser /\
   exists name role,
     run o w = Return tt w' /\
     users (disk w')
     = users (disk w) ++ [User.mk (Str.prefix 8 (uuid4 (entropy w))) name role] /\
     (role = "borrower" \/ role = "investor") /\
     entropy w' = S (entropy w)).
Proof.
  cbv zeta.
  destruct (run_users_evolve o w) as [S|(name & typed & rest & -> & _ & I & R)].
  - left. exact S.
  - right. split; [reflexivity|]. exists name, (Str.lower typed).
    rewrite R. cbn [world_of user_registered disk users entropy].
    split; [reflexivity|]. split; [reflexivity|]. split; [|reflexivity].
    simpl in I. destruct I as [I|[I|[]]]; auto.
Qed.

(** X16 ([menu], lines 141-168).  A turn of the menu whose choice is one
    of ['1'] to ['6'] prints the menu, reads the choice and runs exactly
    the operation of that key on what follows in the input.  When the
    operation returns the loop goes on from the world it left; when it
    raises, nothing catches the exception: the session ends on it, in the
    world the operation left. *)
Theorem menu_runs_the_chosen_operation n w o rest :
  stdin w = choice_of o :: rest ->
  menu (S n) w =
  match run o (wrote menu_text (consumed rest w)) with
  | Return _ w' => menu n w'
  | Raise e w' => Some (Raise e w')
  end.
Proof.
  intro E. cbn [menu]. rewrite (menu_turn_dispatch _ E), dispatch_op.
  unfold bind, ret.
  destruct (run o (wrote menu_text (consumed rest w))) as [[] w'|e w'];
    reflexivity.
Qed.

(** X17 ([menu], lines 141-168).  A session that reads ['7'] as its
    choice ends at once with the farewell line, whatever follows in the
    input; a session whose input is exhausted when a choice is asked ends
    on [EOFError]; any other text than ['1'] to ['7'] is answered by the
    invalid-choice line and the loop goes on.  None of the three writes a
    file. *)
Theorem menu_exit_end_of_input_and_unknown_choice n w :
  match stdin w with
  | [] => menu (S n) w = Some (Raise EOFError (wrote menu_text w))
  | choice :: rest =>
      (choice = "7" ->
       menu (S n) w
       = Some (Return tt (wrote (menu_text ++ ["👋 Goodbye!"]) (consumed rest w)))) /\
      (~ In choice ["1"; "2"; "3"; "4"; "5"; "6"; "7"] ->
       menu (S n) w
       = menu n (wrote (menu_text ++ ["❌ Invalid choice. Try again."])
                       (consumed rest w)))
  end.
Proof.
  destruct (stdin w) as [|choice rest] eqn:E.
  - exact (menu_no_input n _ E).
  - split.
    + intros ->. exact (menu_exits n _ E).
    + intro N. exact (menu_skips_unknown n _ E N).
Qed.

(** X18 ([menu], lines 141-168).  A session that ends on an exception
    ends on [EOFError], [ValueError], [OverflowError] or
    [ZeroDivisionError], never on [IndexError]. *)
Theorem menu_raises_only_listed n w e w' :
  menu n w = Some (Raise e w') ->
  (e = EOFError \/ e = ValueError \/ e = OverflowError \/ e = ZeroDivisionError) /\
  e <> IndexError.
Proof.
  intro R. pose proof (menu_raises _ _ R) as I. simpl in I.
  intuition (subst; discriminate || auto).
Qed.

(** X19 ([menu], lines 141-168).  A whole session, however long and
    however it ends, takes a data folder the program can produce to a data
    folder the program can produce: what holds of those folders (roles,
    statuses, due dates, references) holds after every session. *)
Theorem menu_session_keeps_folder_reachable n w out :
  reachable (disk w) -> menu n w = Some out -> reachable (disk (world_of out)).
Proof.
  intros Re R.
  apply (@menu_invariant _ (fun d _ => reachable d)
           (fun o v Rv => reach_run v o Rv) n w out Re R).
Qed.


End Sessions.

Lemma investor_dashboard_dies_on_bad_payment_witness :
  let w := boot Scenario2.smudged Scenario.day0 ["3c6ef362"; "7"] in
  exists w', investor_dashboard w = Raise ValueError w' /\
             stdout w' = ["Enter your user ID: "] /\ disk w' = disk w.
Proof.
  intro w.
  destruct (@investor_dashboard_dies_on_bad_payment CPython.runtime w
              "3c6ef362" ["7"] eq_refl) as (Iff & Only & _).
  destruct (proj1 Iff) as (e & w' & R).
  { exists (Repayment.mk "daa66d13" "3c6ef362" "R550" "2027-01-02" "False").
    split; [vm_compute; auto|vm_compute; reflexivity]. }
  destruct (Only _ _ R) as (-> & D & _ & _ & O).
  exists w'. split; [exact R|]. split; [exact O|exact D].
Defined.


Lemma reachable_references_resolve_witness :
  reachable Scenario.ledger /\
  Forall (fun l => has_user (Loan.borrower_id l) "borrower"
                            (users Scenario.ledger) = true)
         (loans Scenario.ledger).
Proof.
  split; [exact ledger_reachable|].
  exact (proj1 (reachable_references_resolve ledger_reachable)).
Defined.

Lemma menu_runs_the_chosen_operation_witness :
  let w := boot Scenario.market Scenario.day0 ["3"; "7"] in
  stdin w = choice_of ViewLoans :: ["7"] /\
  menu 2 w =
  match run ViewLoans (wrote menu_text (consumed ["7"] w)) with
  | Return _ w' => menu 1 w'
  | Raise e w' => Some (Raise e w')
  end.
Proof.
  intro w. split; [reflexivity|].
  apply (@menu_runs_the_chosen_operation CPython.runtime 1 w ViewLoans ["7"]).
  reflexivity.
Defined.

Lemma menu_raises_only_listed_witness :
  let w := boot empty_disk Scenario.day0 ["1"; "Alice"] in
  exists w', menu 5 w = Some (Raise EOFError w') /\ EOFError <> IndexError.
Proof.
  intro w.
  assert (exists w', menu 5 w = Some (Raise EOFError w')) as [w' R]
    by (eexists; vm_compute; reflexivity).
  exists w'. split; [exact R|].
  exact (proj2 (menu_raises_only_listed 5 w R)).
Defined.

Lemma menu_session_keeps_folder_reachable_witness :
  let w := boot empty_disk Scenario.day0 (Scenario.script "2") in
  reachable (disk w) /\
  exists out, menu 20 w = Some out /\ disk (world_of out) = Scenario.ledger /\
              reachable (disk (world_of out)).
Proof.
  intro w.
  assert (reachable (disk w)) as Re by exact reach_boot.
  split; [exact Re|].
  assert (exists out, menu 20 w = Some out /\ disk (world_of out) = Scenario.ledger)
    as (out & R & D) by (eexists; split; vm_compute; reflexivity).
  exists out. split; [exact R|]. split; [exact D|].
  exact (menu_session_keeps_folder_reachable 20 w Re R).
Defined.


Section Report.

Context {py : Runtime}.

Lemma existsb_filter {A} (f : A -> bool) xs :
  existsb f xs = match filter f xs with [] => false | _ :: _ => true end.
Proof.
  induction xs as [|x xs IH]; [reflexivity|]. cbn [existsb filter].
  destruct (f x); [reflexivity|exact IH].
Qed.

(** X21 ([process_repayments], lines 118-130).  [process_repayments]
    always returns and reads no line.  It prints one line per installment
    it marks, in table order, carrying the payment, the loan and the
    investor of the row, and each such row is on disk afterwards with the
    flag ['True']; the repayments file is then rewritten once.  When no
    row is due it prints the single line that none is and writes no
    file. *)
Theorem process_repayments_reports_each_payment w :
  let today_s := Datetime.strftime (clock w) in
  let due := filter (fun r => Str.le (Repayment.due_date r) today_s
                              && String.eqb (Repayment.paid r) "False")
                    (repayments (disk w)) in
  exists w',
    process_repayments w = Return tt w' /\
    stdin w' = stdin w /\ entropy w' = entropy w /\
    stdout w'
    = stdout w
        ++ match due with
           | [] => ["No repayments due today."]
           | _ :: _ =>
               map (fun r =>
                      Str.concat ["✅ Processed repayment of R";
                                  Repayment.monthly_payment r;
                                  " for Loan ID "; Repayment.loan_id r;
                                  " to Investor "; Repayment.investor_id r]) due
           end /\
    fs_log w'
    = fs_log w ++ match due with [] => [] | _ :: _ => [Rewritten repayments_file] end /\
    Forall (fun r => In (Repayment.set_paid "True" r) (repayments (disk w'))) due.
Proof.
  cbv zeta. eexists. split; [apply process_repayments_spec|]. cbv zeta.
  change (fun r => Str.le (Repayment.due_date r) (Datetime.strftime (clock w))
                   && String.eqb (Repayment.paid r) "False")
    with (is_due (Datetime.strftime (clock w))).
  rewrite existsb_filter.
  destruct (filter (is_due (Datetime.strftime (clock w))) (repayments (disk w)))
    as [|r due] eqn:F.
  - cbn [wrote stdin entropy stdout fs_log]. rewrite app_nil_r.
    repeat (split; [reflexivity|]). constructor.
  - cbn [stdin entropy stdout fs_log disk repayments].
    repeat (split; [reflexivity|]).
    apply Forall_forall. intros x I. rewrite <- F in I.
    apply filter_In in I as [I D].
    replace (Repayment.set_paid "True" x)
      with (settle (Datetime.strftime (clock w)) x)
      by (unfold settle; rewrite D; reflexivity).
    apply in_map. exact I.
Qed.

End Report.
